(** * RAGU front end: the PDF upload component, the chat component and the
      README's WebSocket client, embedded as state-passing functions.

    Every handler of the JavaScript sources is a function from the
    component state (and from what the network, the browser or the user
    answers) to the next state, together with the requests it issued.
    The watchers that mirror refs into [localStorage] and the debounce of
    the preference update are embedded on their own, beside the handlers;
    the scrolling of the conversation and the console output act on
    nothing the handlers read back, and are left out. *)

From Stdlib Require Import ZArith String Ascii List Permutation Sorting.Sorted Lia.
From Stdlib Require Import Floats.PrimFloat.
From stdpp Require Import gmap strings list fin_maps pretty.

Open Scope string_scope.
Open Scope list_scope.

(** ** The JavaScript runtime the components rely on *)

Module Js.

(** A string is a sequence of code units; the embedding keeps the code
    units below 256, for which [trim] and [toLowerCase] are given in full. *)

(** WhiteSpace and LineTerminator code units: TAB, LF, VT, FF, CR, SP, NBSP. *)
Definition is_white_space (c : ascii) : bool :=
  let n := nat_of_ascii c in
  ((9 <=? n)%nat && (n <=? 13)%nat) || (n =? 32)%nat || (n =? 160)%nat.

Fixpoint trimStart (s : string) : string :=
  match s with
  | EmptyString => EmptyString
  | String c s' => if is_white_space c then trimStart s' else s
  end.

Fixpoint trimEnd (s : string) : string :=
  match s with
  | EmptyString => EmptyString
  | String c s' =>
      let t := trimEnd s' in
      if is_white_space c && String.eqb t "" then "" else String c t
  end.

(** [s.trim()] *)
Definition trim (s : string) : string := trimEnd (trimStart s).

(** Lower-casing of one code unit: A-Z, and the upper-case letters of the
    Latin-1 block (0xC0-0xDE without the multiplication sign 0xD7). *)
Definition lower_unit (c : ascii) : ascii :=
  let n := nat_of_ascii c in
  if ((65 <=? n)%nat && (n <=? 90)%nat)
     || ((192 <=? n)%nat && (n <=? 222)%nat && negb (n =? 215)%nat)
  then ascii_of_nat (n + 32) else c.

(** [s.toLowerCase()] *)
Fixpoint toLowerCase (s : string) : string :=
  match s with
  | EmptyString => EmptyString
  | String c s' => String (lower_unit c) (toLowerCase s')
  end.

(** [s.substring(n)] *)
Fixpoint substring_from (n : nat) (s : string) : string :=
  match n, s with
  | O, _ => s
  | S n', String _ s' => substring_from n' s'
  | S _, EmptyString => EmptyString
  end.

(** [s.endsWith(searchString)]: the search string is compared with the
    last [searchString.length] code units; a longer search string never
    matches. *)
Definition endsWith (s searchString : string) : bool :=
  let len := String.length s in
  let searchLength := String.length searchString in
  if (len <? searchLength)%nat then false
  else String.eqb (substring_from (len - searchLength) s) searchString.

(** [s.includes(searchString)] *)
Fixpoint includes (s searchString : string) : bool :=
  String.prefix searchString s
  || match s with
     | EmptyString => false
     | String _ s' => includes s' searchString
     end.

(** [s.startsWith(searchString)] *)
Definition startsWith (s searchString : string) : bool := String.prefix searchString s.

(** Truthiness of a string: only the empty string is falsy. *)
Definition truthy (s : string) : bool := negb (String.eqb s "").

(** A number is a double, with the arithmetic and the comparisons of
    IEEE 754.  Truthiness of a number: [0], [-0] and [NaN] are falsy. *)
Definition truthy_number (x : float) : bool := negb (is_zero x || is_nan x).

(** What [sort] makes of the number its comparator answers: [NaN] counts
    as [0], and of any other number only the sign is used. *)
Definition sign_of_number (v : float) : Z :=
  if (v <? 0)%float then (-1)%Z else if (0 <? v)%float then 1%Z else 0%Z.

(** Truthiness of a property that may be missing ([undefined] or [null]). *)
Definition truthy_opt (o : option string) : bool :=
  match o with
  | Some s => truthy s
  | None => false
  end.

(** [o || fallback] for a string property that may be missing. *)
Definition or_else (o : option string) (fallback : string) : string :=
  match o with
  | Some s => if truthy s then s else fallback
  | None => fallback
  end.

(** How an awaited promise (or a call) completes. *)
Inductive Completion (A : Type) : Type :=
| Normal (value : A)
| Throw (message : string).
Arguments Normal {A} value.
Arguments Throw {A} message.

(** The body of an error response of the API: [{"detail": "..."}]. *)
Record ErrorBody := { detail : option string }.

(** A [Response] as the handlers read it: the [ok] flag and what
    [response.json()] settles to.  An ok response carries the endpoint's
    reply, any other status an error body; either body may fail to parse. *)
Inductive Response (A : Type) : Type :=
| ok_response (json : Completion A)
| error_response (json : Completion ErrorBody).
Arguments ok_response {A} json.
Arguments error_response {A} json.

Definition ok {A} (response : Response A) : bool :=
  match response with
  | ok_response _ => true
  | error_response _ => false
  end.

(** What [await fetch(...)] gives: a response, or a rejection. *)
Definition Fetched (A : Type) : Type := Completion (Response A).

(** [array.pop()], the array left behind. *)
Definition pop {A} (l : list A) : list A := removelast l.

(** [array.push(x)], the array left behind. *)
Definition push {A} (l : list A) (x : A) : list A := l ++ [x].

(** [array.slice(0, -1)] *)
Definition slice_0_m1 {A} (l : list A) : list A := removelast l.

(** [Promise.all]: every promise carries the instant it settles at.  The
    result is the list of the values when all promises fulfil, and
    otherwise the rejection that settled first (the earlier element of the
    list when two settle at the same instant). *)
Fixpoint first_rejection {A} (promises : list (nat * Completion A)) : option (nat * string) :=
  match promises with
  | [] => None
  | (_, Normal _) :: rest => first_rejection rest
  | (t, Throw m) :: rest =>
      match first_rejection rest with
      | Some (t', m') => if (t' <? t)%nat then Some (t', m') else Some (t, m)
      | None => Some (t, m)
      end
  end.

Fixpoint fulfilled_values {A} (promises : list (nat * Completion A)) : list A :=
  match promises with
  | [] => []
  | (_, Normal v) :: rest => v :: fulfilled_values rest
  | (_, Throw _) :: rest => fulfilled_values rest
  end.

Definition Promise_all {A} (promises : list (nat * Completion A)) : Completion (list A) :=
  match first_rejection promises with
  | Some (_, m) => Throw m
  | None => Normal (fulfilled_values promises)
  end.

(** [array.includes(x)] on an array of strings. *)
Definition Array_includes (l : list string) (x : string) : bool :=
  existsb (String.eqb x) l.

(** [array.sort(compareFn)].  The language fixes the result for a
    consistent comparator: the elements in the order of the comparator,
    equal ones in their original order.  It is embedded as a stable
    insertion sort; [compareFn] answers a number, of which only the sign
    is used. *)
Fixpoint sort_insert {A} (compareFn : A -> A -> Z) (x : A) (sorted : list A) : list A :=
  match sorted with
  | [] => [x]
  | y :: rest =>
      if (compareFn x y <=? 0)%Z then x :: y :: rest
      else y :: sort_insert compareFn x rest
  end.

Fixpoint Array_sort {A} (compareFn : A -> A -> Z) (l : list A) : list A :=
  match l with
  | [] => []
  | x :: rest => sort_insert compareFn x (Array_sort compareFn rest)
  end.

End Js.

Import Js.

(** ** Handlers over any component state

    The same computations as in the chat component below, for the other
    components: a handler runs on a state of type [S], appends to a log of
    calls of type [C], and completes normally or with a thrown error. *)

Module Eff.

Definition M (S C A : Type) : Type :=
  S -> list C -> Completion A * S * list C.

Definition ret {S C A} (a : A) : M S C A := fun st log => (Normal a, st, log).

Definition bind {S C A B} (m : M S C A) (k : A -> M S C B) : M S C B :=
  fun st log =>
    match m st log with
    | (Normal a, st', log') => k a st' log'
    | (Throw e, st', log') => (Throw e, st', log')
    end.

#[global] Instance M_ret {S C} : MRet (M S C) := @ret S C.
#[global] Instance M_bind {S C} : MBind (M S C) := fun A B k m => bind m k.

Definition get {S C} : M S C S := fun st log => (Normal st, st, log).

Definition modify {S C} (f : S -> S) : M S C unit :=
  fun st log => (Normal tt, f st, log).

Definition call {S C} (c : C) : M S C unit :=
  fun st log => (Normal tt, st, log ++ [c]).

(** [await p] *)
Definition await {S C A} (p : Completion A) : M S C A :=
  fun st log => (p, st, log).

(** [try { body } catch (err) { handler(err.message) }] *)
Definition try_catch {S C A} (body : M S C A) (handler : string -> M S C A) : M S C A :=
  fun st log =>
    match body st log with
    | (Throw e, st', log') => handler e st' log'
    | done => done
    end.

(** [try { body } finally { cleanup }] *)
Definition try_finally {S C A} (body : M S C A) (cleanup : M S C unit) : M S C A :=
  fun st log =>
    match body st log with
    | (completion, st', log') =>
        match cleanup st' log' with
        | (Normal _, st'', log'') => (completion, st'', log'')
        | (Throw e, st'', log'') => (Throw e, st'', log'')
        end
    end.

(** [await fetch(...)]: the request is logged, then the promise settles. *)
Definition fetch {S C A} (request : C) (fetched : Fetched A) : M S C (Response A) :=
  call request;; await fetched.

(** The state a handler leaves, and the calls it made, from a given state. *)
Definition run {S C A} (m : M S C A) (st : S) : S * list C :=
  match m st [] with
  | (_, st', log) => (st', log)
  end.

End Eff.

(** ** The PDF upload component ([app/static/js/pdf-upload.js]) *)

Module PdfUpload.

(** A [File] of the browser: the component reads its name and MIME type. *)
Record File := { name : string; type : string }.

(** One entry of [results] in [uploadFiles]. *)
Record UploadResult := {
  fileName : string;
  result_success : bool;
  result_message : option string
}.

(** The [uploadStatus] object: [{ success, message, details }]. *)
Record UploadStatus := {
  success : bool;
  message : string;
  details : option (list UploadResult)
}.

(** The component's [React.useState] cells. *)
Record State := {
  files : list File;
  isDragging : bool;
  isUploading : bool;
  uploadStatus : option UploadStatus;
  collections : list string;
  selectedCollection : string;
  tags : string
}.

Definition setFiles (v : list File) (st : State) : State :=
  {| files := v; isDragging := isDragging st; isUploading := isUploading st;
     uploadStatus := uploadStatus st; collections := collections st;
     selectedCollection := selectedCollection st; tags := tags st |}.

Definition setIsUploading (v : bool) (st : State) : State :=
  {| files := files st; isDragging := isDragging st; isUploading := v;
     uploadStatus := uploadStatus st; collections := collections st;
     selectedCollection := selectedCollection st; tags := tags st |}.

Definition setUploadStatus (v : option UploadStatus) (st : State) : State :=
  {| files := files st; isDragging := isDragging st; isUploading := isUploading st;
     uploadStatus := v; collections := collections st;
     selectedCollection := selectedCollection st; tags := tags st |}.

(** The filter of [handleFiles]:
    [file.type === 'application/pdf' || file.name.toLowerCase().endsWith('.pdf')] *)
Definition isPdf (file : File) : bool :=
  String.eqb (type file) "application/pdf"
  || endsWith (toLowerCase (name file)) ".pdf".

(** [handleFiles(newFiles)] *)
Definition handleFiles (newFiles : list File) (st : State) : State :=
  let pdfFiles := List.filter isPdf newFiles in
  if (length pdfFiles =? 0)%nat then
    setUploadStatus
      (Some {| success := false;
               message := "Only PDF files are allowed.";
               details := None |}) st
  else
    setUploadStatus None (setFiles (files st ++ pdfFiles) st).

(** A part of a [FormData] body. *)
Inductive FormValue : Type :=
| form_file (file : File)
| form_text (text : string).

(** A request handed to [fetch]. *)
Record Request := {
  method : string;
  url : string;
  body : list (string * FormValue)
}.

(** The reply of the upload endpoint, as far as the component reads it. *)
Record UploadReply := { reply_message : option string }.

(** The form built for one file; [tags] is sent only when it is not empty. *)
Definition formData (file : File) (st : State) : list (string * FormValue) :=
  [("file", form_file file); ("collection_name", form_text (selectedCollection st))]
  ++ (if truthy (tags st) then [("tags", form_text (tags st))] else []).

Definition upload_request (file : File) (st : State) : Request :=
  {| method := "POST"; url := "/api/v1/documents/upload"; body := formData file st |}.

(** The async callback of [files.map] after its [fetch] has been issued:
    it awaits the response, then [response.json()], then builds the entry. *)
Definition upload_one (file : File) (fetched : Fetched UploadReply) : Completion UploadResult :=
  match fetched with
  | Throw m => Throw m
  | Normal (ok_response (Throw m)) => Throw m
  | Normal (error_response (Throw m)) => Throw m
  | Normal (ok_response (Normal result)) =>
      Normal {| fileName := name file; result_success := true;
                result_message := reply_message result |}
  | Normal (error_response (Normal result)) =>
      Normal {| fileName := name file; result_success := false;
                result_message := Some (or_else (detail result) "Upload failed") |}
  end.

(** [uploadFiles()].  [network i] is what the request for the [i]-th file
    meets: the instant its promise settles at and the outcome of the fetch.
    The function returns the next state and the requests issued, in order. *)
Definition uploadFiles (network : nat -> nat * Fetched UploadReply) (st : State)
  : State * list Request :=
  if (length (files st) =? 0)%nat then
    (setUploadStatus
       (Some {| success := false;
                message := "Please select at least one PDF file to upload.";
                details := None |}) st, [])
  else if negb (truthy (selectedCollection st)) then
    (setUploadStatus
       (Some {| success := false;
                message := "Please select a collection.";
                details := None |}) st, [])
  else
    let st1 := setUploadStatus None (setIsUploading true st) in
    let requests := map (fun file => upload_request file st) (files st) in
    let promises :=
      imap (fun i file => (fst (network i), upload_one file (snd (network i))))
           (files st) in
    let st2 :=
      match Promise_all promises with
      | Normal results =>
          let allSuccessful := forallb result_success results in
          let st' :=
            setUploadStatus
              (Some {| success := allSuccessful;
                       message :=
                         if allSuccessful
                         then "Successfully uploaded " +:+ pretty (length results)
                              +:+ " file(s)."
                         else "Some files failed to upload. See details below.";
                       details := Some results |}) st1 in
          if allSuccessful then setFiles [] st' else st'
      | Throw m =>
          setUploadStatus
            (Some {| success := false;
                     message := "Error uploading files: " +:+ m;
                     details := None |}) st1
      end in
    (setIsUploading false st2, requests).

(** The files the component accepts, in the words of its comment
    ("Filter for PDF files only"): the MIME type is that of a PDF, or the
    lower-cased name is some stem followed by [.pdf]. *)
Definition qualifies (file : File) : Prop :=
  type file = "application/pdf"
  \/ exists stem, toLowerCase (name file) = stem +:+ ".pdf".

(** The status shown is a success. *)
Definition status_successful (st : State) : Prop :=
  exists status, uploadStatus st = Some status /\ success status = true.

(** Every fetch that resolved did so with an ok response. *)
Definition every_response_ok (network : nat -> nat * Fetched UploadReply) (st : State) : Prop :=
  forall i response,
    (i < length (files st))%nat -> snd (network i) = Normal response -> ok response = true.

(** Every upload ran to its end: the fetch resolved with an ok response
    and its body parsed. *)
Definition every_upload_completes (network : nat -> nat * Fetched UploadReply) (st : State) : Prop :=
  forall i, (i < length (files st))%nat ->
    exists reply, snd (network i) = Normal (ok_response (Normal reply)).

(** A state and a network used in the examples below. *)
Definition one_pdf_selected : State :=
  {| files := [ {| name := "report.pdf"; type := "application/pdf" |} ];
     isDragging := false; isUploading := false; uploadStatus := None;
     collections := ["docs"]; selectedCollection := "docs"; tags := "" |}.

(** The endpoint answers 200 with a body that is not JSON. *)
Definition ok_with_unreadable_body : nat -> nat * Fetched UploadReply :=
  fun _ => (0%nat, Normal (ok_response (Throw "Unexpected end of JSON input"))).

(** *** The other handlers of the component *)

Definition setIsDragging (v : bool) (st : State) : State :=
  {| files := files st; isDragging := v; isUploading := isUploading st;
     uploadStatus := uploadStatus st; collections := collections st;
     selectedCollection := selectedCollection st; tags := tags st |}.

Definition setCollections (v : list string) (st : State) : State :=
  {| files := files st; isDragging := isDragging st; isUploading := isUploading st;
     uploadStatus := uploadStatus st; collections := v;
     selectedCollection := selectedCollection st; tags := tags st |}.

Definition setSelectedCollection (v : string) (st : State) : State :=
  {| files := files st; isDragging := isDragging st; isUploading := isUploading st;
     uploadStatus := uploadStatus st; collections := collections st;
     selectedCollection := v; tags := tags st |}.

Definition setTags (v : string) (st : State) : State :=
  {| files := files st; isDragging := isDragging st; isUploading := isUploading st;
     uploadStatus := uploadStatus st; collections := collections st;
     selectedCollection := selectedCollection st; tags := v |}.

(** The state of the first render. *)
Definition initial : State :=
  {| files := []; isDragging := false; isUploading := false; uploadStatus := None;
     collections := []; selectedCollection := ""; tags := "" |}.

(** [handleDragEnter], [handleDragLeave], [handleDragOver] *)
Definition handleDragEnter (st : State) : State := setIsDragging true st.
Definition handleDragLeave (st : State) : State := setIsDragging false st.
Definition handleDragOver (st : State) : State :=
  if negb (isDragging st) then setIsDragging true st else st.

(** [handleDrop]: [droppedFiles] is [Array.from(e.dataTransfer.files)]. *)
Definition handleDrop (droppedFiles : list File) (st : State) : State :=
  handleFiles droppedFiles (setIsDragging false st).

(** [handleFileInputChange] *)
Definition handleFileInputChange (selectedFiles : list File) (st : State) : State :=
  handleFiles selectedFiles st.

(** [removeFile(index)]: [prevFiles.filter((_, i) => i !== index)] *)
Definition removeFile (index : nat) (st : State) : State :=
  setFiles
    (map snd (List.filter (fun entry => negb (fst entry =? index)%nat)
                          (imap (fun i file => (i, file)) (files st))))
    st.

(** [handleCollectionChange], [handleTagsChange]: the value of the input. *)
Definition handleCollectionChange (v : string) (st : State) : State :=
  setSelectedCollection v st.
Definition handleTagsChange (v : string) (st : State) : State := setTags v st.

(** What the two collection handlers do to the outside: a [fetch] with its
    JSON body (a flat object of strings), or an [alert]. *)
Inductive Effect : Type :=
| Fetch (method url : string) (json : list (string * string))
| Alert (message : string).

(** The reply of [GET /api/v1/collections/]. *)
Record CollectionsData := { data_collections : option (list string) }.

Abbreviation Handler := (Eff.M State Effect).

(** [fetchCollections()]: failures are only written to the console. *)
Definition fetchCollections (fetched : Fetched CollectionsData) : Handler unit :=
  Eff.try_catch
    (response ← Eff.fetch (Fetch "GET" "/api/v1/collections/" []) fetched;
     match response with
     | ok_response json =>
         data ← Eff.await json;
         Eff.modify (setCollections (default [] (data_collections data)));;
         match data_collections data with
         | Some (first :: _) => Eff.modify (setSelectedCollection first)
         | _ => mret tt
         end
     | error_response _ => mret tt
     end)
    (fun _ => mret tt).

(** [createCollection()].  [prompted] is what [prompt] returns, [now] is
    [new Date().toLocaleString()], [created] what the POST meets and
    [refetched] what the reload of the collections meets. *)
Definition createCollection (prompted : option string) (now : string)
    (created : Fetched unit) (refetched : Fetched CollectionsData) : Handler unit :=
  match prompted with
  | None => mret tt
  | Some collectionName =>
      if negb (truthy collectionName) then mret tt else
      Eff.try_catch
        (response ← Eff.fetch
                      (Fetch "POST" "/api/v1/collections/"
                             [("name", collectionName);
                              ("description", "Collection created on " +:+ now)])
                      created;
         match response with
         | ok_response _ =>
             fetchCollections refetched;;
             Eff.modify (setSelectedCollection collectionName)
         | error_response json =>
             error ← Eff.await json;
             Eff.call (Alert ("Failed to create collection: "
                              +:+ or_else (detail error) "Unknown error"))
         end)
        (fun message => Eff.call (Alert ("Error creating collection: " +:+ message)))
  end.

(** One event of the component, with what the outside answers to it. *)
Inductive Event : Type :=
| DragEnter
| DragLeave
| DragOver
| Drop (droppedFiles : list File)
| FileInputChange (selectedFiles : list File)
| RemoveFile (index : nat)
| CollectionChange (v : string)
| TagsChange (v : string)
| UploadFiles (network : nat -> nat * Fetched UploadReply)
| FetchCollections (fetched : Fetched CollectionsData)
| CreateCollection (prompted : option string) (now : string)
    (created : Fetched unit) (refetched : Fetched CollectionsData).

(** The state after the handler of an event has run to its end. *)
Definition handle (event : Event) (st : State) : State :=
  match event with
  | DragEnter => handleDragEnter st
  | DragLeave => handleDragLeave st
  | DragOver => handleDragOver st
  | Drop droppedFiles => handleDrop droppedFiles st
  | FileInputChange selectedFiles => handleFileInputChange selectedFiles st
  | RemoveFile index => removeFile index st
  | CollectionChange v => handleCollectionChange v st
  | TagsChange v => handleTagsChange v st
  | UploadFiles network => fst (uploadFiles network st)
  | FetchCollections fetched => fst (Eff.run (fetchCollections fetched) st)
  | CreateCollection prompted now created refetched =>
      fst (Eff.run (createCollection prompted now created refetched) st)
  end.

(** The component after a sequence of events, from the first render. *)
Definition after (events : list Event) : State :=
  fold_left (fun st event => handle event st) events initial.

(** The file of an upload request. *)
Definition uploaded_file (request : Request) : option File :=
  match body request with
  | ("file", form_file file) :: _ => Some file
  | _ => None
  end.

(** Every upload is accepted by the endpoint. *)
Definition every_upload_accepted : nat -> nat * Fetched UploadReply :=
  fun _ => (0%nat, Normal (ok_response (Normal {| reply_message := Some "Document uploaded" |}))).

(** Every fetch resolved and the body of every response parsed. *)
Definition every_body_parses (network : nat -> nat * Fetched UploadReply) (st : State) : Prop :=
  forall i, (i < length (files st))%nat ->
    (exists reply, snd (network i) = Normal (ok_response (Normal reply)))
    \/ (exists errorBody, snd (network i) = Normal (error_response (Normal errorBody))).

End PdfUpload.

(** ** The chat component ([ModelQueryComponent], tag-based version) *)

Module ModelQuery.

(** An entry of [availableModels]. *)
Record Model := { value : string; label : string }.

Definition availableModels : list Model :=
  [ {| value := "ollama:llama2"; label := "Ollama: Llama 2" |};
    {| value := "ollama:mistral"; label := "Ollama: Mistral" |};
    {| value := "ollama:nomic-embed-text"; label := "Ollama: Nomic Embed Text" |};
    {| value := "anthropic:claude-3-haiku-20240307"; label := "Anthropic: Claude 3 Haiku" |};
    {| value := "anthropic:claude-3-sonnet-20240229"; label := "Anthropic: Claude 3 Sonnet" |};
    {| value := "anthropic:claude-3-opus-20240229"; label := "Anthropic: Claude 3 Opus" |};
    {| value := "openai:gpt-4o"; label := "OpenAI: GPT-4o" |};
    {| value := "openai:gpt-4-turbo"; label := "OpenAI: GPT-4 Turbo" |};
    {| value := "openai:gpt-3.5-turbo"; label := "OpenAI: GPT-3.5 Turbo" |} ].

(** A message of a conversation: [{ role, content }]. *)
Record Message := { role : string; content : string }.

(** A retrieved passage; the component only stores the list. *)
Record Source := { source_id : string; source_text : string }.

(** The reply of [POST /api/v1/chat/]. *)
Module ChatData.
Record t := {
  history : list Message;
  sources : list Source;
  conversation_id : option string
}.
End ChatData.

(** A conversation of [/api/v1/conversations/].  A property that may be
    missing or null is an [option]; for [include_untagged], which the code
    compares with [undefined], [None] is the missing property. *)
Module Conversation.
Record t := {
  id : string;
  title : string;
  messages : list Message;
  tags : option (list string);
  include_untagged : option bool;
  model : option string;
  created_at : string;
  updated_at : string
}.
End Conversation.

(** The reply of [GET /api/v1/tags/]. *)
Module TagsData.
Record t := {
  tags : option (list string);
  tag_counts : option (gmap string float)
}.
End TagsData.

(** The [requestData] of [submitQuery]; [model] and [conversation_id] are
    added only when set. *)
Module ChatRequest.
Record t := {
  query : string;
  history : list Message;
  tags : list string;
  include_untagged : bool;
  model : option string;
  conversation_id : option string
}.
End ChatRequest.

(** A Fuse.js instance: the strings it searches, and its [list] property
    as the component reads it ([None] when the instance has none). *)
Module Fuse.
Record t := {
  collection : list string;
  list : option (list string)
}.
End Fuse.

(** The refs and closure variables of [setup()]. *)
Record State := {
  availableTags : list string;
  tagCounts : gmap string float;
  selectedTags : list string;
  includeUntagged : bool;
  tagSearchQuery : string;
  tagDropdownOpen : bool;
  fuse : option Fuse.t;
  models : list Model;
  selectedModel : string;
  queryText : string;
  isLoading : bool;
  error : string;
  results : option ChatData.t;
  conversationHistory : list Message;
  lastSources : list Source;
  conversations : list Conversation.t;
  currentConversationId : option string;
  isLoadingConversations : bool
}.

Definition set_availableTags (v : list string) (st : State) : State :=
  {| availableTags := v; tagCounts := tagCounts st; selectedTags := selectedTags st;
     includeUntagged := includeUntagged st; tagSearchQuery := tagSearchQuery st;
     tagDropdownOpen := tagDropdownOpen st; fuse := fuse st; models := models st;
     selectedModel := selectedModel st; queryText := queryText st; isLoading :=
     isLoading st; error := error st; results := results st; conversationHistory :=
     conversationHistory st; lastSources := lastSources st; conversations :=
     conversations st; currentConversationId := currentConversationId st;
     isLoadingConversations := isLoadingConversations st |}.

Definition set_tagCounts (v : gmap string float) (st : State) : State :=
  {| availableTags := availableTags st; tagCounts := v; selectedTags := selectedTags st;
     includeUntagged := includeUntagged st; tagSearchQuery := tagSearchQuery st;
     tagDropdownOpen := tagDropdownOpen st; fuse := fuse st; models := models st;
     selectedModel := selectedModel st; queryText := queryText st; isLoading :=
     isLoading st; error := error st; results := results st; conversationHistory :=
     conversationHistory st; lastSources := lastSources st; conversations :=
     conversations st; currentConversationId := currentConversationId st;
     isLoadingConversations := isLoadingConversations st |}.

Definition set_selectedTags (v : list string) (st : State) : State :=
  {| availableTags := availableTags st; tagCounts := tagCounts st; selectedTags := v;
     includeUntagged := includeUntagged st; tagSearchQuery := tagSearchQuery st;
     tagDropdownOpen := tagDropdownOpen st; fuse := fuse st; models := models st;
     selectedModel := selectedModel st; queryText := queryText st; isLoading :=
     isLoading st; error := error st; results := results st; conversationHistory :=
     conversationHistory st; lastSources := lastSources st; conversations :=
     conversations st; currentConversationId := currentConversationId st;
     isLoadingConversations := isLoadingConversations st |}.

Definition set_includeUntagged (v : bool) (st : State) : State :=
  {| availableTags := availableTags st; tagCounts := tagCounts st; selectedTags :=
     selectedTags st; includeUntagged := v; tagSearchQuery := tagSearchQuery st;
     tagDropdownOpen := tagDropdownOpen st; fuse := fuse st; models := models st;
     selectedModel := selectedModel st; queryText := queryText st; isLoading :=
     isLoading st; error := error st; results := results st; conversationHistory :=
     conversationHistory st; lastSources := lastSources st; conversations :=
     conversations st; currentConversationId := currentConversationId st;
     isLoadingConversations := isLoadingConversations st |}.

Definition set_tagSearchQuery (v : string) (st : State) : State :=
  {| availableTags := availableTags st; tagCounts := tagCounts st; selectedTags :=
     selectedTags st; includeUntagged := includeUntagged st; tagSearchQuery := v;
     tagDropdownOpen := tagDropdownOpen st; fuse := fuse st; models := models st;
     selectedModel := selectedModel st; queryText := queryText st; isLoading :=
     isLoading st; error := error st; results := results st; conversationHistory :=
     conversationHistory st; lastSources := lastSources st; conversations :=
     conversations st; currentConversationId := currentConversationId st;
     isLoadingConversations := isLoadingConversations st |}.

Definition set_fuse (v : option Fuse.t) (st : State) : State :=
  {| availableTags := availableTags st; tagCounts := tagCounts st; selectedTags :=
     selectedTags st; includeUntagged := includeUntagged st; tagSearchQuery :=
     tagSearchQuery st; tagDropdownOpen := tagDropdownOpen st; fuse := v; models :=
     models st; selectedModel := selectedModel st; queryText := queryText st; isLoading
     := isLoading st; error := error st; results := results st; conversationHistory :=
     conversationHistory st; lastSources := lastSources st; conversations :=
     conversations st; currentConversationId := currentConversationId st;
     isLoadingConversations := isLoadingConversations st |}.

Definition set_selectedModel (v : string) (st : State) : State :=
  {| availableTags := availableTags st; tagCounts := tagCounts st; selectedTags :=
     selectedTags st; includeUntagged := includeUntagged st; tagSearchQuery :=
     tagSearchQuery st; tagDropdownOpen := tagDropdownOpen st; fuse := fuse st; models
     := models st; selectedModel := v; queryText := queryText st; isLoading := isLoading
     st; error := error st; results := results st; conversationHistory :=
     conversationHistory st; lastSources := lastSources st; conversations :=
     conversations st; currentConversationId := currentConversationId st;
     isLoadingConversations := isLoadingConversations st |}.

Definition set_queryText (v : string) (st : State) : State :=
  {| availableTags := availableTags st; tagCounts := tagCounts st; selectedTags :=
     selectedTags st; includeUntagged := includeUntagged st; tagSearchQuery :=
     tagSearchQuery st; tagDropdownOpen := tagDropdownOpen st; fuse := fuse st; models
     := models st; selectedModel := selectedModel st; queryText := v; isLoading :=
     isLoading st; error := error st; results := results st; conversationHistory :=
     conversationHistory st; lastSources := lastSources st; conversations :=
     conversations st; currentConversationId := currentConversationId st;
     isLoadingConversations := isLoadingConversations st |}.

Definition set_isLoading (v : bool) (st : State) : State :=
  {| availableTags := availableTags st; tagCounts := tagCounts st; selectedTags :=
     selectedTags st; includeUntagged := includeUntagged st; tagSearchQuery :=
     tagSearchQuery st; tagDropdownOpen := tagDropdownOpen st; fuse := fuse st; models
     := models st; selectedModel := selectedModel st; queryText := queryText st;
     isLoading := v; error := error st; results := results st; conversationHistory :=
     conversationHistory st; lastSources := lastSources st; conversations :=
     conversations st; currentConversationId := currentConversationId st;
     isLoadingConversations := isLoadingConversations st |}.

Definition set_error (v : string) (st : State) : State :=
  {| availableTags := availableTags st; tagCounts := tagCounts st; selectedTags :=
     selectedTags st; includeUntagged := includeUntagged st; tagSearchQuery :=
     tagSearchQuery st; tagDropdownOpen := tagDropdownOpen st; fuse := fuse st; models
     := models st; selectedModel := selectedModel st; queryText := queryText st;
     isLoading := isLoading st; error := v; results := results st; conversationHistory
     := conversationHistory st; lastSources := lastSources st; conversations :=
     conversations st; currentConversationId := currentConversationId st;
     isLoadingConversations := isLoadingConversations st |}.

Definition set_results (v : option ChatData.t) (st : State) : State :=
  {| availableTags := availableTags st; tagCounts := tagCounts st; selectedTags :=
     selectedTags st; includeUntagged := includeUntagged st; tagSearchQuery :=
     tagSearchQuery st; tagDropdownOpen := tagDropdownOpen st; fuse := fuse st; models
     := models st; selectedModel := selectedModel st; queryText := queryText st;
     isLoading := isLoading st; error := error st; results := v; conversationHistory :=
     conversationHistory st; lastSources := lastSources st; conversations :=
     conversations st; currentConversationId := currentConversationId st;
     isLoadingConversations := isLoadingConversations st |}.

Definition set_conversationHistory (v : list Message) (st : State) : State :=
  {| availableTags := availableTags st; tagCounts := tagCounts st; selectedTags :=
     selectedTags st; includeUntagged := includeUntagged st; tagSearchQuery :=
     tagSearchQuery st; tagDropdownOpen := tagDropdownOpen st; fuse := fuse st; models
     := models st; selectedModel := selectedModel st; queryText := queryText st;
     isLoading := isLoading st; error := error st; results := results st;
     conversationHistory := v; lastSources := lastSources st; conversations :=
     conversations st; currentConversationId := currentConversationId st;
     isLoadingConversations := isLoadingConversations st |}.

Definition set_lastSources (v : list Source) (st : State) : State :=
  {| availableTags := availableTags st; tagCounts := tagCounts st; selectedTags :=
     selectedTags st; includeUntagged := includeUntagged st; tagSearchQuery :=
     tagSearchQuery st; tagDropdownOpen := tagDropdownOpen st; fuse := fuse st; models
     := models st; selectedModel := selectedModel st; queryText := queryText st;
     isLoading := isLoading st; error := error st; results := results st;
     conversationHistory := conversationHistory st; lastSources := v; conversations :=
     conversations st; currentConversationId := currentConversationId st;
     isLoadingConversations := isLoadingConversations st |}.

Definition set_conversations (v : list Conversation.t) (st : State) : State :=
  {| availableTags := availableTags st; tagCounts := tagCounts st; selectedTags :=
     selectedTags st; includeUntagged := includeUntagged st; tagSearchQuery :=
     tagSearchQuery st; tagDropdownOpen := tagDropdownOpen st; fuse := fuse st; models
     := models st; selectedModel := selectedModel st; queryText := queryText st;
     isLoading := isLoading st; error := error st; results := results st;
     conversationHistory := conversationHistory st; lastSources := lastSources st;
     conversations := v; currentConversationId := currentConversationId st;
     isLoadingConversations := isLoadingConversations st |}.

Definition set_currentConversationId (v : option string) (st : State) : State :=
  {| availableTags := availableTags st; tagCounts := tagCounts st; selectedTags :=
     selectedTags st; includeUntagged := includeUntagged st; tagSearchQuery :=
     tagSearchQuery st; tagDropdownOpen := tagDropdownOpen st; fuse := fuse st; models
     := models st; selectedModel := selectedModel st; queryText := queryText st;
     isLoading := isLoading st; error := error st; results := results st;
     conversationHistory := conversationHistory st; lastSources := lastSources st;
     conversations := conversations st; currentConversationId := v;
     isLoadingConversations := isLoadingConversations st |}.

Definition set_isLoadingConversations (v : bool) (st : State) : State :=
  {| availableTags := availableTags st; tagCounts := tagCounts st; selectedTags :=
     selectedTags st; includeUntagged := includeUntagged st; tagSearchQuery :=
     tagSearchQuery st; tagDropdownOpen := tagDropdownOpen st; fuse := fuse st; models
     := models st; selectedModel := selectedModel st; queryText := queryText st;
     isLoading := isLoading st; error := error st; results := results st;
     conversationHistory := conversationHistory st; lastSources := lastSources st;
     conversations := conversations st; currentConversationId := currentConversationId
     st; isLoadingConversations := v |}.

(** The state right after [setup()]. *)
Definition setup : State :=
  {| availableTags := []; tagCounts := ∅; selectedTags := []; includeUntagged := true;
     tagSearchQuery := ""; tagDropdownOpen := false; fuse := None;
     models := availableModels; selectedModel := ""; queryText := ""; isLoading := false;
     error := ""; results := None; conversationHistory := []; lastSources := [];
     conversations := []; currentConversationId := None;
     isLoadingConversations := false |}.

Definition STORAGE_KEY_MODEL : string := "ragu_selected_model".
Definition STORAGE_KEY_TAGS : string := "ragu_selected_tags".
Definition STORAGE_KEY_INCLUDE_UNTAGGED : string := "ragu_include_untagged".

(** The JSON bodies the component sends. *)
Inductive Body : Type :=
| no_body
| chat_body (requestData : ChatRequest.t)
| preferences_body (tags : list string) (include_untagged : bool)
| title_body (title : string).

Record Request := { method : string; url : string; body : Body }.

(** What a handler does to the outside: a [fetch], or a call of
    [window.refreshSidebarConversations]. *)
Inductive Call : Type :=
| Fetch (request : Request)
| refreshSidebarConversations.

(** *** Handlers as computations

    A handler runs on the component state, appends to the log of its
    calls, and completes normally or with a thrown error. *)
Definition M (A : Type) : Type :=
  State -> list Call -> Completion A * State * list Call.

Definition ret {A} (a : A) : M A := fun st log => (Normal a, st, log).

Definition bind {A B} (m : M A) (k : A -> M B) : M B :=
  fun st log =>
    match m st log with
    | (Normal a, st', log') => k a st' log'
    | (Throw e, st', log') => (Throw e, st', log')
    end.

#[global] Instance M_ret : MRet M := @ret.
#[global] Instance M_bind : MBind M := fun A B k m => bind m k.

Definition get : M State := fun st log => (Normal st, st, log).

Definition modify (f : State -> State) : M unit :=
  fun st log => (Normal tt, f st, log).

Definition call (c : Call) : M unit :=
  fun st log => (Normal tt, st, log ++ [c]).

(** [await p] *)
Definition await {A} (p : Completion A) : M A :=
  fun st log => (p, st, log).

(** [try { body } catch (err) { handler(err.message) }] *)
Definition try_catch {A} (body : M A) (handler : string -> M A) : M A :=
  fun st log =>
    match body st log with
    | (Throw e, st', log') => handler e st' log'
    | done => done
    end.

(** [try { body } finally { cleanup }] *)
Definition try_finally {A} (body : M A) (cleanup : M unit) : M A :=
  fun st log =>
    match body st log with
    | (completion, st', log') =>
        match cleanup st' log' with
        | (Normal _, st'', log'') => (completion, st'', log'')
        | (Throw e, st'', log'') => (Throw e, st'', log'')
        end
    end.

(** [await fetch(url, init)]: the request goes out, then the promise
    settles as the network has it. *)
Definition fetch {A} (request : Request) (fetched : Fetched A) : M (Response A) :=
  call (Fetch request);; await fetched.

(** The state a handler leaves, and the calls it made, from a given state. *)
Definition run {A} (m : M A) (st : State) : State * list Call :=
  match m st [] with
  | (_, st', log) => (st', log)
  end.

(** [canSubmit] *)
Definition canSubmit (st : State) : bool :=
  (0 <? String.length (trim (queryText st)))%nat.

(** The start of an [async] function that is called without [await]: it
    runs up to its [fetch]; its continuation is a later step. *)
Definition fetchTags_start : M unit :=
  call (Fetch {| method := "GET"; url := "/api/v1/tags/"; body := no_body |}).

(** [fetchTags()], awaited. *)
Definition fetchTags (fetched : Fetched TagsData.t) : M unit :=
  try_catch
    (response ← fetch {| method := "GET"; url := "/api/v1/tags/"; body := no_body |} fetched;
     match response with
     | ok_response json =>
         data ← await json;
         modify (set_availableTags (default [] (TagsData.tags data)));;
         modify (set_tagCounts (default ∅ (TagsData.tag_counts data)))
     | error_response _ =>
         modify (set_error "Failed to fetch tags. Please try again.")
     end)
    (fun message => modify (set_error ("Error fetching tags: " +:+ message))).

(** The start of [fetchConversations()], called without [await]. *)
Definition fetchConversations_start : M unit :=
  modify (set_isLoadingConversations true);;
  modify (set_error "");;
  call (Fetch {| method := "GET"; url := "/api/v1/conversations/"; body := no_body |}).

(** The start of [updateConversationTagPreferences(conversationId)],
    called without [await]. *)
Definition updateConversationTagPreferences_start (conversationId : string) : M unit :=
  st ← get;
  call (Fetch {| method := "PUT";
                 url := "/api/v1/conversations/" +:+ conversationId;
                 body := preferences_body (selectedTags st) (includeUntagged st) |}).

(** [onMounted]: the tags are fetched, then the saved preferences are read
    from [localStorage].  [JSON_parse] is the runtime's parser, at the type
    of the stored tags. *)
Definition onMounted (JSON_parse : string -> Completion (list string))
    (localStorage : gmap string string) (tagsFetched : Fetched TagsData.t) : M unit :=
  fetchTags tagsFetched;;
  st ← get;
  let savedModel := localStorage !! STORAGE_KEY_MODEL in
  (match savedModel with
   | Some saved =>
       if truthy saved then
         let modelExists := existsb (fun model => String.eqb (value model) saved) (models st) in
         if modelExists then modify (set_selectedModel saved) else mret tt
       else mret tt
   | None => mret tt
   end);;
  let savedTags := localStorage !! STORAGE_KEY_TAGS in
  (match savedTags with
   | Some saved =>
       if truthy saved then
         try_catch (parsed ← await (JSON_parse saved); modify (set_selectedTags parsed))
                   (fun _ => mret tt)
       else mret tt
   | None => mret tt
   end);;
  let savedIncludeUntagged := localStorage !! STORAGE_KEY_INCLUDE_UNTAGGED in
  (match savedIncludeUntagged with
   | Some saved => modify (set_includeUntagged (String.eqb saved "true"))
   | None => mret tt
   end);;
  fetchConversations_start.

(** [selectConversation(conversationId)] *)
Definition selectConversation (conversationId : string)
    (fetched : Fetched Conversation.t) (tagsFetched : Fetched TagsData.t) : M unit :=
  try_catch
    (response ← fetch {| method := "GET";
                         url := "/api/v1/conversations/" +:+ conversationId;
                         body := no_body |} fetched;
     match response with
     | ok_response json =>
         conversation ← await json;
         modify (set_currentConversationId (Some conversationId));;
         modify (set_conversationHistory (Conversation.messages conversation));;
         fetchTags tagsFetched;;
         (match Conversation.tags conversation with
          | Some tags => modify (set_selectedTags tags)
          | None => modify (set_selectedTags [])
          end);;
         (match Conversation.include_untagged conversation with
          | Some include_untagged => modify (set_includeUntagged include_untagged)
          | None => modify (set_includeUntagged true)
          end);;
         (match Conversation.model conversation with
          | Some model => if truthy model then modify (set_selectedModel model) else mret tt
          | None => mret tt
          end)
     | error_response json =>
         errorData ← await json;
         modify (set_error ("Failed to load conversation: "
                            +:+ or_else (detail errorData) "Unknown error"))
     end)
    (fun message => modify (set_error ("Error loading conversation: " +:+ message))).

(** [submitQuery()].  [sidebar] tells whether
    [window.refreshSidebarConversations] is defined; [chat] is what the
    POST to [/api/v1/chat/] meets. *)
Definition submitQuery (sidebar : bool) (chat : Fetched ChatData.t) : M unit :=
  st ← get;
  if negb (canSubmit st) then mret tt else
  let currentQuery := queryText st in
  modify (fun st => set_conversationHistory
                      (push (conversationHistory st)
                            {| role := "user"; content := currentQuery |}) st);;
  modify (set_queryText "");;
  modify (set_isLoading true);;
  modify (set_error "");;
  try_finally
    (try_catch
       (st ← get;
        let requestData :=
          {| ChatRequest.query := currentQuery;
             ChatRequest.history := slice_0_m1 (conversationHistory st);
             ChatRequest.tags := selectedTags st;
             ChatRequest.include_untagged := includeUntagged st;
             ChatRequest.model :=
               if truthy (selectedModel st) then Some (selectedModel st) else None;
             ChatRequest.conversation_id :=
               if truthy_opt (currentConversationId st)
               then currentConversationId st else None |} in
        response ← fetch {| method := "POST"; url := "/api/v1/chat/";
                            body := chat_body requestData |} chat;
        match response with
        | ok_response json =>
            data ← await json;
            modify (set_results (Some data));;
            modify (set_conversationHistory (ChatData.history data));;
            modify (set_lastSources (ChatData.sources data));;
            (match ChatData.conversation_id data with
             | Some conversation_id =>
                 if truthy conversation_id then
                   modify (set_currentConversationId (Some conversation_id));;
                   updateConversationTagPreferences_start conversation_id
                 else mret tt
             | None => mret tt
             end);;
            (if sidebar then call refreshSidebarConversations else mret tt);;
            fetchTags_start
        | error_response json =>
            modify (fun st => set_conversationHistory (pop (conversationHistory st)) st);;
            modify (set_queryText currentQuery);;
            errorData ← await json;
            modify (set_error (or_else (detail errorData)
                                       "Failed to process query. Please try again."))
        end)
       (fun message =>
          modify (fun st => set_conversationHistory (pop (conversationHistory st)) st);;
          modify (set_queryText currentQuery);;
          modify (set_error ("Error submitting query: " +:+ message))))
    (modify (set_isLoading false)).

(** [renameConversation(conversation)].  [prompted] is what [prompt]
    returns: [None] when the user cancels. *)
Definition renameConversation (conversation : Conversation.t) (prompted : option string)
    (fetched : Fetched Conversation.t) : M unit :=
  match prompted with
  | None => mret tt
  | Some newTitle =>
      if negb (truthy newTitle) || String.eqb (trim newTitle) "" then mret tt else
      try_catch
        (response ← fetch {| method := "PUT";
                             url := "/api/v1/conversations/" +:+ Conversation.id conversation;
                             body := title_body (trim newTitle) |} fetched;
         match response with
         | ok_response json =>
             updatedConversation ← await json;
             st ← get;
             match list_find (fun c => Conversation.id c = Conversation.id conversation)
                             (conversations st) with
             | Some (index, _) =>
                 modify (set_conversations (<[index := updatedConversation]> (conversations st)))
             | None => mret tt
             end
         | error_response json =>
             errorData ← await json;
             modify (set_error ("Failed to rename conversation: "
                                +:+ or_else (detail errorData) "Unknown error"))
         end)
        (fun message => modify (set_error ("Error renaming conversation: " +:+ message)))
  end.

(** [deleteConversation(conversationId)] *)
Definition deleteConversation (conversationId : string) (fetched : Fetched unit) : M unit :=
  try_catch
    (response ← fetch {| method := "DELETE";
                         url := "/api/v1/conversations/" +:+ conversationId;
                         body := no_body |} fetched;
     match response with
     | ok_response _ =>
         modify (fun st =>
                   set_conversations
                     (List.filter (fun c => negb (String.eqb (Conversation.id c) conversationId))
                                  (conversations st)) st);;
         st ← get;
         if bool_decide (currentConversationId st = Some conversationId) then
           modify (set_currentConversationId None);;
           modify (set_conversationHistory [])
         else mret tt
     | error_response json =>
         errorData ← await json;
         modify (set_error ("Failed to delete conversation: "
                            +:+ or_else (detail errorData) "Unknown error"))
     end)
    (fun message => modify (set_error ("Error deleting conversation: " +:+ message))).

(** *** The computed list of tags offered for selection *)

(** An entry of [availableTagsForSelection]: [{ item }] or [{ item, score }]. *)
Record TagResult (Score : Type) := { item : string; score : option Score }.
Arguments item {Score} _.
Arguments score {Score} _.

(** What every plain object inherits from [Object.prototype]: functions,
    and under [__proto__] the prototype itself. *)
Definition Object_prototype_members : list string :=
  [ "constructor"; "hasOwnProperty"; "isPrototypeOf"; "propertyIsEnumerable";
    "toLocaleString"; "toString"; "valueOf"; "__defineGetter__"; "__defineSetter__";
    "__lookupGetter__"; "__lookupSetter__"; "__proto__" ].

(** [tagCounts.value[tag] || 0], as the number the subtraction of the
    comparator makes of it.  [tagCounts.value] is a plain object: a count
    it holds under the name of the tag is read, and replaced with [0] when
    falsy; without one the read goes to [Object.prototype], whose members
    are truthy and are no numbers ([NaN] in the subtraction); any other
    name reads [undefined], hence [0]. *)
Definition count (tagCounts : gmap string float) (tag : string) : float :=
  match tagCounts !! tag with
  | Some n => if truthy_number n then n else 0%float
  | None => if Array_includes Object_prototype_members tag then nan else 0%float
  end.

Section Computed.

(** What the component takes from outside: the collation of
    [String.prototype.localeCompare], and Fuse.js (its constructor with the
    options of the component, and [search] with [includeScore]). *)
Context {Score : Type}.
Variable localeCompare : string -> string -> Z.
Variable new_Fuse : list string -> Completion Fuse.t.
Variable Fuse_search : Fuse.t -> string -> Completion (list (string * Score)).

(** The comparator handed to [sort], with its answer as [sort] reads it:
    [countDiff !== 0] also holds of [NaN], which [sort] then takes for [0]. *)
Definition compareTags (tagCounts : gmap string float) (a b : string) : Z :=
  let countDiff := (count tagCounts b - count tagCounts a)%float in
  if negb (countDiff =? 0)%float then sign_of_number countDiff else localeCompare a b.

(** [availableTags.value.filter(tag => !selectedTags.value.includes(tag))] *)
Definition unselectedTags (st : State) : list string :=
  List.filter (fun tag => negb (Array_includes (selectedTags st) tag)) (availableTags st).

(** The [catch] branch: plain substring matching. *)
Definition simple_matching (st : State) : list (TagResult Score) :=
  let query := toLowerCase (tagSearchQuery st) in
  map (fun tag => {| item := tag; score := None |})
      (List.filter (fun tag => includes (toLowerCase tag) query) (unselectedTags st)).

(** [fuse.search(...)] and the mapping of its results, inside the [try]. *)
Definition fuzzy_search (st : State) (instance : Fuse.t)
  : list (TagResult Score) * option Fuse.t :=
  match Fuse_search instance (tagSearchQuery st) with
  | Normal searchResults =>
      (map (fun result => {| item := fst result; score := Some (snd result) |}) searchResults,
       Some instance)
  | Throw _ => (simple_matching st, Some instance)
  end.

(** The guard [!fuse || !fuse.list || fuse.list.length !== unselectedTags.length]. *)
Definition must_initialize (st : State) : bool :=
  match fuse st with
  | None => true
  | Some instance =>
      match Fuse.list instance with
      | None => true
      | Some l => negb (length l =? length (unselectedTags st))%nat
      end
  end.

(** [availableTagsForSelection]: the value computed, and the [fuse]
    variable as the evaluation leaves it. *)
Definition availableTagsForSelection (st : State)
  : list (TagResult Score) * option Fuse.t :=
  if negb (truthy (trim (tagSearchQuery st))) then
    (map (fun tag => {| item := tag; score := None |})
         (Array_sort (compareTags (tagCounts st)) (unselectedTags st)),
     fuse st)
  else if must_initialize st then
    match new_Fuse (unselectedTags st) with
    | Normal instance => fuzzy_search st instance
    | Throw _ => (simple_matching st, fuse st)
    end
  else
    match fuse st with
    | Some instance => fuzzy_search st instance
    | None => (simple_matching st, None)
    end.

(** An evaluation of the computed list: the state with the [fuse]
    variable as the evaluation leaves it. *)
Definition evaluated (st : State) : State :=
  set_fuse (snd (availableTagsForSelection st)) st.

(** The count of a tag as the specification has it: the number held for
    the tag in [tagCounts], and 0 for a tag without one. *)
Definition recorded_count (tagCounts : gmap string float) (tag : string) : float :=
  default 0%float (tagCounts !! tag).

(** The order of the specification on the tags: a larger count first, and
    for equal counts the order of [localeCompare]. *)
Definition specified_order (tagCounts : gmap string float) (a b : string) : Prop :=
  (recorded_count tagCounts b <? recorded_count tagCounts a)%float = true
  \/ ((recorded_count tagCounts a =? recorded_count tagCounts b)%float = true
      /\ (localeCompare a b <= 0)%Z).

(** Fuse.js as documented: an instance searches the collection it was
    built from, and every result is an item of that collection. *)
Definition Fuse_contract : Prop :=
  (forall l instance, new_Fuse l = Normal instance -> Fuse.collection instance = l)
  /\ (forall instance pattern searchResults result,
        Fuse_search instance pattern = Normal searchResults ->
        In result searchResults -> In (fst result) (Fuse.collection instance)).

End Computed.

(** A collation used in the examples: the order of the code units. *)
Definition code_unit_compare (a b : string) : Z :=
  match String.compare a b with
  | Lt => (-1)%Z
  | Eq => 0%Z
  | Gt => 1%Z
  end.

(** A stand-in for Fuse.js used in the examples: it keeps the collection
    in [list] and finds the items that contain the pattern, with score 0. *)
Definition substring_Fuse (l : list string) : Completion Fuse.t :=
  Normal {| Fuse.collection := l; Fuse.list := Some l |}.

Definition substring_search (instance : Fuse.t) (pattern : string)
  : Completion (list (string * Z)) :=
  Normal (map (fun tag => (tag, 0%Z))
              (List.filter (fun tag => includes (toLowerCase tag) (toLowerCase pattern))
                           (Fuse.collection instance))).

(** States used in the examples below. *)
Definition tagged : State :=
  set_availableTags ["house"; "legal"; "insurance"; "important"]
    (set_tagCounts {[ "house" := 1%float; "important" := 2%float; "insurance" := 1%float ]}
       (set_selectedTags ["legal"] setup)).

Definition two_messages : list Message :=
  [ {| role := "user"; content := "What is RAG?" |};
    {| role := "assistant"; content := "Retrieval-augmented generation." |} ].

Definition asking : State :=
  set_queryText "And HNSW?" (set_conversationHistory two_messages setup).

(** The request of [submitQuery]: the query as typed, the history as it
    was before the user message was pushed. *)
Definition chat_request_of (st : State) : Request :=
  {| method := "POST"; url := "/api/v1/chat/";
     body := chat_body
       {| ChatRequest.query := queryText st;
          ChatRequest.history := conversationHistory st;
          ChatRequest.tags := selectedTags st;
          ChatRequest.include_untagged := includeUntagged st;
          ChatRequest.model :=
            if truthy (selectedModel st) then Some (selectedModel st) else None;
          ChatRequest.conversation_id :=
            if truthy_opt (currentConversationId st)
            then currentConversationId st else None |} |}.

(** The calls that are a request to the chat endpoint. *)
Definition is_chat_post (c : Call) : bool :=
  match c with
  | Fetch request => String.eqb (url request) "/api/v1/chat/"
  | refreshSidebarConversations => false
  end.

(** *** The other handlers of the component *)

Definition set_tagDropdownOpen (v : bool) (st : State) : State :=
  {| availableTags := availableTags st; tagCounts := tagCounts st; selectedTags :=
     selectedTags st; includeUntagged := includeUntagged st; tagSearchQuery :=
     tagSearchQuery st; tagDropdownOpen := v; fuse := fuse st; models := models st;
     selectedModel := selectedModel st; queryText := queryText st; isLoading :=
     isLoading st; error := error st; results := results st; conversationHistory :=
     conversationHistory st; lastSources := lastSources st; conversations :=
     conversations st; currentConversationId := currentConversationId st;
     isLoadingConversations := isLoadingConversations st |}.

(** [addTag(tag)] *)
Definition addTag (tag : string) (st : State) : State :=
  if negb (Array_includes (selectedTags st) tag) then
    set_tagSearchQuery "" (set_selectedTags (push (selectedTags st) tag) st)
  else st.

(** [array.indexOf(x)] on an array of strings; [None] is -1. *)
Definition Array_indexOf (l : list string) (x : string) : option nat :=
  fst <$> list_find (fun y => y = x) l.

(** [removeTag(tag)]: [splice(index, 1)] at the index found. *)
Definition removeTag (tag : string) (st : State) : State :=
  match Array_indexOf (selectedTags st) tag with
  | Some index => set_selectedTags (delete index (selectedTags st)) st
  | None => st
  end.

(** [onTagSearch(event)]: [newValue] is the value of the input. *)
Definition onTagSearch (newValue : string) (st : State) : State :=
  set_tagSearchQuery newValue st.

(** [toggleTagDropdown()], as far as the state goes. *)
Definition toggleTagDropdown (st : State) : State :=
  set_tagDropdownOpen (negb (tagDropdownOpen st)) st.

(** [startNewConversation()] *)
Definition startNewConversation (tagsFetched : Fetched TagsData.t) : M unit :=
  modify (set_currentConversationId None);;
  modify (set_conversationHistory []);;
  fetchTags tagsFetched.

(** [loadConversation(conversationId)] *)
Definition loadConversation (conversationId : string)
    (fetched : Fetched Conversation.t) (tagsFetched : Fetched TagsData.t) : M unit :=
  selectConversation conversationId fetched tagsFetched.

(** The reply of [GET /api/v1/conversations/]. *)
Module ConversationsData.
Record t := { conversations : option (list Conversation.t) }.
End ConversationsData.

(** [fetchConversations()], run to its end. *)
Definition fetchConversations (fetched : Fetched ConversationsData.t) : M unit :=
  modify (set_isLoadingConversations true);;
  modify (set_error "");;
  try_finally
    (try_catch
       (response ← fetch {| method := "GET"; url := "/api/v1/conversations/";
                            body := no_body |} fetched;
        match response with
        | ok_response json =>
            data ← await json;
            modify (set_conversations (default [] (ConversationsData.conversations data)))
        | error_response _ =>
            modify (set_error "Failed to fetch conversations. Please try again.")
        end)
       (fun message => modify (set_error ("Error fetching conversations: " +:+ message))))
    (modify (set_isLoadingConversations false)).

(** [updateConversationTagPreferences(conversationId)], run to its end:
    both outcomes are only written to the console. *)
Definition updateConversationTagPreferences (conversationId : string)
    (fetched : Fetched unit) : M unit :=
  try_catch
    (st ← get;
     response ← fetch {| method := "PUT";
                         url := "/api/v1/conversations/" +:+ conversationId;
                         body := preferences_body (selectedTags st) (includeUntagged st) |}
                      fetched;
     mret tt)
    (fun _ => mret tt).

(** [handleEnterKey(event)]: [shiftKey] is [event.shiftKey]. *)
Definition handleEnterKey (shiftKey : bool) (sidebar : bool) (chat : Fetched ChatData.t) : M unit :=
  st ← get;
  if negb shiftKey && truthy (trim (queryText st)) then submitQuery sidebar chat
  else mret tt.

(** [confirmDeleteConversation(conversation)]: [confirmed] is what
    [confirm] returns. *)
Definition confirmDeleteConversation (conversation : Conversation.t) (confirmed : bool)
    (fetched : Fetched unit) : M unit :=
  if confirmed then deleteConversation (Conversation.id conversation) fetched
  else mret tt.

(** *** The watchers

    Each watcher writes the new value of its ref to [localStorage]; the two
    on the tag preferences also ask for a debounced update of the current
    conversation, returned here as the id to update. *)

(** [watch(selectedTags, ...)]; [JSON_stringify] is the runtime's
    serialiser, at the type of the tags. *)
Definition watch_selectedTags (JSON_stringify : list string -> string)
    (newValue : list string) (st : State) (localStorage : gmap string string)
  : gmap string string * option string :=
  (<[STORAGE_KEY_TAGS := JSON_stringify newValue]> localStorage,
   if truthy_opt (currentConversationId st) then currentConversationId st else None).

(** [watch(includeUntagged, ...)]: [newValue.toString()] is stored. *)
Definition watch_includeUntagged (newValue : bool) (st : State)
    (localStorage : gmap string string) : gmap string string * option string :=
  (<[STORAGE_KEY_INCLUDE_UNTAGGED := if newValue then "true" else "false"]> localStorage,
   if truthy_opt (currentConversationId st) then currentConversationId st else None).

(** [watch(selectedModel, ...)]: an empty value is not stored. *)
Definition watch_selectedModel (newValue : string) (localStorage : gmap string string)
  : gmap string string :=
  if truthy newValue then <[STORAGE_KEY_MODEL := newValue]> localStorage else localStorage.

(** The calls of a submission that succeeds, after the POST. *)
Definition calls_after_reply (sidebar : bool) (data : ChatData.t) (st : State) : list Call :=
  (match ChatData.conversation_id data with
   | Some conversation_id =>
       if truthy conversation_id then
         [Fetch {| method := "PUT";
                   url := "/api/v1/conversations/" +:+ conversation_id;
                   body := preferences_body (selectedTags st) (includeUntagged st) |}]
       else []
   | None => []
   end)
  ++ (if sidebar then [refreshSidebarConversations] else [])
  ++ [Fetch {| method := "GET"; url := "/api/v1/tags/"; body := no_body |}].

(** *** The debounce of the preference update

    Time is counted in milliseconds.  The timers of the browser are the
    map of the pending timeouts by handle (handles are positive and are
    not given twice); a timeout holds the instant it is due at and the
    conversation that its callback, [updateConversationTagPreferences],
    updates. *)
Record Timers := {
  clock : nat;
  next_handle : nat;
  timeouts : gmap nat (nat * string);
  tagUpdateTimeout : option nat
}.

(** No timer was ever set: [let tagUpdateTimeout = null]. *)
Definition no_timers : Timers :=
  {| clock := 0; next_handle := 1; timeouts := ∅; tagUpdateTimeout := None |}.

(** [clearTimeout(handle)]: a handle that is not pending is ignored. *)
Definition clearTimeout (handle : nat) (t : Timers) : Timers :=
  {| clock := clock t; next_handle := next_handle t;
     timeouts := delete handle (timeouts t);
     tagUpdateTimeout := tagUpdateTimeout t |}.

(** [setTimeout(() => updateConversationTagPreferences(conversationId), delay)]:
    the handle returned, and the timers with the new timeout. *)
Definition setTimeout (conversationId : string) (delay : nat) (t : Timers) : nat * Timers :=
  (next_handle t,
   {| clock := clock t; next_handle := S (next_handle t);
      timeouts := <[next_handle t := ((clock t + delay)%nat, conversationId)]> (timeouts t);
      tagUpdateTimeout := tagUpdateTimeout t |}).

(** [debouncedUpdateConversationTagPreferences(conversationId)] *)
Definition debouncedUpdateConversationTagPreferences (conversationId : string) (t : Timers)
  : Timers :=
  let cleared :=
    match tagUpdateTimeout t with
    | Some handle => if (0 <? handle)%nat then clearTimeout handle t else t
    | None => t
    end in
  let scheduled := setTimeout conversationId 500 cleared in
  {| clock := clock (snd scheduled); next_handle := next_handle (snd scheduled);
     timeouts := timeouts (snd scheduled);
     tagUpdateTimeout := Some (fst scheduled) |}.

(** The order in which due timeouts run: by due instant, then by handle. *)
Definition timeout_order (a b : nat * (nat * string)) : Z :=
  if negb (fst (snd a) =? fst (snd b))%nat
  then (Z.of_nat (fst (snd a)) - Z.of_nat (fst (snd b)))%Z
  else (Z.of_nat (fst a) - Z.of_nat (fst b))%Z.

(** [ms] milliseconds pass: the timeouts due by then run and are gone.
    The result lists the conversations whose update was started. *)
Definition elapse (ms : nat) (t : Timers) : list string * Timers :=
  let now := (clock t + ms)%nat in
  let due := filter (fun entry : nat * (nat * string) => (fst (snd entry) <= now)%nat)
                    (timeouts t) in
  (map (fun entry : nat * (nat * string) => snd (snd entry))
       (Array_sort timeout_order (map_to_list due)),
   {| clock := now; next_handle := next_handle t;
      timeouts := filter (fun entry : nat * (nat * string) => (now < fst (snd entry))%nat)
                         (timeouts t);
      tagUpdateTimeout := tagUpdateTimeout t |}).

(** What happens to the debounce: a watcher asks for an update of a
    conversation, or time passes. *)
Inductive Tick : Type :=
| changed (conversationId : string)
| elapsed (ms : nat).

(** The updates started during a sequence of ticks, and the timers left. *)
Fixpoint ticks (l : list Tick) (t : Timers) : list string * Timers :=
  match l with
  | [] => ([], t)
  | changed conversationId :: rest =>
      ticks rest (debouncedUpdateConversationTagPreferences conversationId t)
  | elapsed ms :: rest =>
      let now := elapse ms t in
      let later := ticks rest (snd now) in
      (fst now ++ fst later, snd later)
  end.

(** A burst: a first change, then changes each coming some time after the
    one before. *)
Definition burst (first : string) (more : list (nat * string)) : list Tick :=
  changed first :: flat_map (fun c => [elapsed (fst c); changed (snd c)]) more.

(** Handles are positive, and a pending timeout is the one remembered in
    [tagUpdateTimeout]. *)
Definition one_timeout (t : Timers) : Prop :=
  (forall handle, tagUpdateTimeout t = Some handle -> (0 < handle)%nat)
  /\ (0 < next_handle t)%nat
  /\ (forall handle entry, timeouts t !! handle = Some entry ->
        tagUpdateTimeout t = Some handle).

(** Right after a change: one timeout, for that conversation, due in
    500 ms. *)
Definition just_changed (conversationId : string) (t : Timers) : Prop :=
  one_timeout t
  /\ exists handle, timeouts t = {[ handle := ((clock t + 500)%nat, conversationId) ]}.

(** *** The mounted component as a whole *)

(** The options of the model [select]: the default model, then the
    models of each provider. *)
Definition model_options (st : State) : list string :=
  "" :: map value (List.filter (fun m => startsWith (value m) "ollama") (models st))
     ++ map value (List.filter (fun m => startsWith (value m) "anthropic") (models st))
     ++ map value (List.filter (fun m => startsWith (value m) "openai") (models st)).

(** [v-model="selectedModel"]: the user picks the option at [index]. *)
Definition chooseModel (index : nat) (st : State) : State :=
  match model_options st !! index with
  | Some chosen => set_selectedModel chosen st
  | None => st
  end.

(** [handleClickOutside(event)]; [outside] tells that the dropdown is in
    the page and does not contain the target of the click. *)
Definition handleClickOutside (outside : bool) (st : State) : State :=
  if negb (tagDropdownOpen st) then st
  else if outside then set_tagDropdownOpen false st else st.

(** [handleTagDropdownBlur(event)], when its timeout runs; [focusLeft]
    tells that the focus is not inside the tag selection any more. *)
Definition handleTagDropdownBlur (focusLeft : bool) (st : State) : State :=
  if negb (tagDropdownOpen st) then st
  else if focusLeft then set_tagDropdownOpen false st else st.

(** What happens to the mounted component: the user acts on the
    template, the page sends an event the component listens to, or a
    request started earlier comes back.  Each carries what the user, the
    browser and the network answer while its handler runs.  The evaluations
    of the list offered for selection touch [fuse] only, which no handler
    reads; [createCollection], kept for compatibility, is bound to nothing
    in the template.  Neither is an event. *)
Inductive Event : Type :=
| model_chosen (index : nat)
| dropdown_toggled
| clicked_outside (outside : bool)
| dropdown_blurred (focusLeft : bool)
| tag_search_typed (newValue : string)
| include_untagged_checked (newValue : bool)
| tag_added (tag : string)
| tag_removed (tag : string)
| query_typed (newValue : string)
| enter_pressed (shiftKey sidebar : bool) (chat : Fetched ChatData.t)
| submit_clicked (sidebar : bool) (chat : Fetched ChatData.t)
| conversation_loaded (conversationId : string) (fetched : Fetched Conversation.t)
                      (tagsFetched : Fetched TagsData.t)
| new_conversation_started (tagsFetched : Fetched TagsData.t)
| tags_refreshed (tagsFetched : Fetched TagsData.t)
| conversations_fetched (fetched : Fetched ConversationsData.t)
| preferences_updated (conversationId : string) (fetched : Fetched unit)
| conversation_renamed (conversation : Conversation.t) (prompted : option string)
                       (fetched : Fetched Conversation.t)
| conversation_deleted (conversation : Conversation.t) (confirmed : bool)
                       (fetched : Fetched unit).

(** The handler of each event, run to its end. *)
Definition handle (event : Event) (st : State) : State :=
  match event with
  | model_chosen index => chooseModel index st
  | dropdown_toggled => toggleTagDropdown st
  | clicked_outside outside => handleClickOutside outside st
  | dropdown_blurred focusLeft => handleTagDropdownBlur focusLeft st
  | tag_search_typed newValue => onTagSearch newValue st
  | include_untagged_checked newValue => set_includeUntagged newValue st
  | tag_added tag => addTag tag st
  | tag_removed tag => removeTag tag st
  | query_typed newValue => set_queryText newValue st
  | enter_pressed shiftKey sidebar chat => fst (run (handleEnterKey shiftKey sidebar chat) st)
  | submit_clicked sidebar chat => fst (run (submitQuery sidebar chat) st)
  | conversation_loaded conversationId fetched tagsFetched =>
      fst (run (loadConversation conversationId fetched tagsFetched) st)
  | new_conversation_started tagsFetched => fst (run (startNewConversation tagsFetched) st)
  | tags_refreshed tagsFetched => fst (run (fetchTags tagsFetched) st)
  | conversations_fetched fetched => fst (run (fetchConversations fetched) st)
  | preferences_updated conversationId fetched =>
      fst (run (updateConversationTagPreferences conversationId fetched) st)
  | conversation_renamed conversation prompted fetched =>
      fst (run (renameConversation conversation prompted fetched) st)
  | conversation_deleted conversation confirmed fetched =>
      fst (run (confirmDeleteConversation conversation confirmed fetched) st)
  end.

(** The state after a sequence of events. *)
Definition after (events : list Event) (st : State) : State :=
  fold_left (fun st event => handle event st) events st.

(** A computation keeps a property of the state, from any log. *)
Definition preserves {A} (P : State -> Prop) (m : M A) : Prop :=
  forall st log, P st -> P (snd (fst (m st log))).

(** The models and the selected model are those of [st0]. *)
Definition same_model (st0 st : State) : Prop :=
  models st = models st0 /\ selectedModel st = selectedModel st0.

(** The default model, or one of [availableModels]. *)
Definition is_available (model : string) : Prop :=
  model = "" \/ In model (map value availableModels).

(** The event loads no conversation with a model other than these. *)
Definition loads_an_available_model (event : Event) : Prop :=
  match event with
  | conversation_loaded _ (Normal (ok_response (Normal conversation))) _ =>
      match Conversation.model conversation with
      | Some model => is_available model
      | None => True
      end
  | _ => True
  end.

(** A conversation kept by the server with a model that is not offered. *)
Definition conversation_of_another_model : Conversation.t :=
  {| Conversation.id := "c1"; Conversation.title := "Vector indexes";
     Conversation.messages := two_messages; Conversation.tags := None;
     Conversation.include_untagged := None; Conversation.model := Some "openai:gpt-5";
     Conversation.created_at := "2025-06-01T10:00:00";
     Conversation.updated_at := "2025-06-01T10:05:00" |}.

(** A reply of [GET /api/v1/tags/] without tags. *)
Definition no_tags : Fetched TagsData.t :=
  Normal (ok_response (Normal {| TagsData.tags := None; TagsData.tag_counts := None |})).

(** A conversation kept with one of the models offered. *)
Definition conversation_of_opus : Conversation.t :=
  {| Conversation.id := "c2"; Conversation.title := "Summaries";
     Conversation.messages := []; Conversation.tags := Some ["legal"];
     Conversation.include_untagged := Some false;
     Conversation.model := Some "anthropic:claude-3-opus-20240229";
     Conversation.created_at := "2025-06-02T09:00:00";
     Conversation.updated_at := "2025-06-02T09:30:00" |}.

(** The user picks a model, loads a conversation and asks a question to
    which the server does not answer. *)
Definition a_session : list Event :=
  [ model_chosen 2;
    conversation_loaded "c2" (Normal (ok_response (Normal conversation_of_opus))) no_tags;
    query_typed "And HNSW?";
    submit_clicked false (Throw "Failed to fetch") ].

(** *** States of the examples on the list offered

    A tag named as a member of [Object.prototype], without a count of its
    own, beside a counted tag. *)
Definition constructor_tagged : State :=
  set_availableTags ["constructor"; "invoice"]
    (set_tagCounts {[ "invoice" := 3%float ]} setup).

(** On [tagged]: "ho" is searched for, the tag found is selected, another
    tag is removed and "ho" is searched for again; the list is evaluated
    after each step but the last. *)
Definition searched_again : State :=
  let evaluated := evaluated code_unit_compare substring_Fuse substring_search in
  let searched := evaluated (onTagSearch "ho" tagged) in
  let added := evaluated (addTag "house" searched) in
  let removed := evaluated (removeTag "legal" added) in
  onTagSearch "ho" removed.

End ModelQuery.

(** ** The Python client of the README ([chat_websocket]) *)

Module Client.

Record Message := { role : string; content : string }.

(** A source of a [complete] message. *)
Record Source := { id : string; text : string }.

(** The [content] of a [complete] message. *)
Record ChatContent := {
  answer : string;
  sources : list Source;
  history : list Message
}.

(** The messages of the server, by their [type]. *)
Inductive ServerMessage : Type :=
| start (content : string)
| token (content : string)
| complete (content : ChatContent)
| error (content : string).

(** The frame the client sends first. *)
Record ChatFrame := {
  frame_type : string;
  collection_name : string;
  query : string;
  frame_history : list Message;
  model : option string
}.

(** The local variable [full_response] and what was printed, one entry
    per [print]. *)
Record Locals := { full_response : string; stdout : list string }.

(** The call has returned a value ([None] is Python's), or is waiting in
    [websocket.recv()]. *)
Inductive Outcome : Type :=
| Returned (result : option ChatContent)
| Receiving.

Definition newline : string := String (ascii_of_nat 10) "".

(** The lines printed for the sources: [f"{i+1}. {source['text']} (ID: {source['id']})"]. *)
Definition source_lines (l : list Source) : list string :=
  imap (fun i source =>
          pretty (i + 1)%nat +:+ ". " +:+ text source +:+ " (ID: " +:+ id source +:+ ")"
          +:+ newline) l.

(** The [while True] loop over the messages that arrive. *)
Fixpoint receive (incoming : list ServerMessage) (locals : Locals) : Outcome * Locals :=
  match incoming with
  | [] => (Receiving, locals)
  | token content :: rest =>
      receive rest {| full_response := full_response locals +:+ content;
                      stdout := stdout locals ++ [content] |}
  | complete content :: _ =>
      (Returned (Some content),
       {| full_response := full_response locals;
          stdout := stdout locals
                    ++ [newline +:+ newline +:+ "Sources:" +:+ newline]
                    ++ source_lines (sources content) |})
  | error content :: _ =>
      (Returned None,
       {| full_response := full_response locals;
          stdout := stdout locals ++ [newline +:+ "Error: " +:+ content +:+ newline] |})
  | start _ :: rest => receive rest locals
  end.

(** [chat_websocket(collection_name, query, history, model)]: the frame
    sent, then the loop on what the server sends. *)
Definition chat_websocket (collection_name query : string)
    (history : option (list Message)) (model : option string)
    (incoming : list ServerMessage) : ChatFrame * (Outcome * Locals) :=
  ({| frame_type := "chat"; collection_name := collection_name; query := query;
      frame_history := default [] history; model := model |},
   receive incoming {| full_response := ""; stdout := [] |}).

(** The messages on which the loop returns. *)
Definition closes (message : ServerMessage) : bool :=
  match message with
  | complete _ | error _ => true
  | start _ | token _ => false
  end.

(** What the client returns on such a message. *)
Definition returned_on (message : ServerMessage) : option ChatContent :=
  match message with
  | complete content => Some content
  | _ => None
  end.

(** The [content] of the [token] messages, concatenated in order. *)
Fixpoint tokens (messages : list ServerMessage) : string :=
  match messages with
  | [] => ""
  | token content :: rest => content +:+ tokens rest
  | _ :: rest => tokens rest
  end.

(** The [content] of the [token] messages, one entry per message. *)
Fixpoint token_contents (messages : list ServerMessage) : list string :=
  match messages with
  | [] => []
  | token content :: rest => content :: token_contents rest
  | _ :: rest => token_contents rest
  end.

(** What is printed on the message that ends the exchange. *)
Definition closing_lines (message : ServerMessage) : list string :=
  match message with
  | complete content =>
      (newline +:+ newline +:+ "Sources:" +:+ newline) :: source_lines (sources content)
  | error content => [newline +:+ "Error: " +:+ content +:+ newline]
  | _ => []
  end.

(** Strings put one after the other. *)
Definition joined (l : list string) : string := fold_right String.append "" l.

End Client.

(** ** The chat component, collection-based version *)

Module CollectionQuery.

Import ModelQuery (Model, value, label, availableModels, Message, role, content, Source).
Module ChatData := ModelQuery.ChatData.

(** The refs of [setup()]. *)
Record State := {
  collections : list string;
  selectedCollection : string;
  models : list Model;
  selectedModel : string;
  queryText : string;
  isLoading : bool;
  error : string;
  results : option ChatData.t;
  conversationHistory : list Message;
  lastSources : list Source
}.

Definition set_collections (v : list string) (st : State) : State :=
  {| collections := v; selectedCollection := selectedCollection st; models := models st;
     selectedModel := selectedModel st; queryText := queryText st; isLoading :=
     isLoading st; error := error st; results := results st; conversationHistory :=
     conversationHistory st; lastSources := lastSources st |}.

Definition set_selectedCollection (v : string) (st : State) : State :=
  {| collections := collections st; selectedCollection := v; models := models st;
     selectedModel := selectedModel st; queryText := queryText st; isLoading :=
     isLoading st; error := error st; results := results st; conversationHistory :=
     conversationHistory st; lastSources := lastSources st |}.

Definition set_selectedModel (v : string) (st : State) : State :=
  {| collections := collections st; selectedCollection := selectedCollection st; models
     := models st; selectedModel := v; queryText := queryText st; isLoading := isLoading
     st; error := error st; results := results st; conversationHistory :=
     conversationHistory st; lastSources := lastSources st |}.

Definition set_queryText (v : string) (st : State) : State :=
  {| collections := collections st; selectedCollection := selectedCollection st; models
     := models st; selectedModel := selectedModel st; queryText := v; isLoading :=
     isLoading st; error := error st; results := results st; conversationHistory :=
     conversationHistory st; lastSources := lastSources st |}.

Definition set_isLoading (v : bool) (st : State) : State :=
  {| collections := collections st; selectedCollection := selectedCollection st; models
     := models st; selectedModel := selectedModel st; queryText := queryText st;
     isLoading := v; error := error st; results := results st; conversationHistory :=
     conversationHistory st; lastSources := lastSources st |}.

Definition set_error (v : string) (st : State) : State :=
  {| collections := collections st; selectedCollection := selectedCollection st; models
     := models st; selectedModel := selectedModel st; queryText := queryText st;
     isLoading := isLoading st; error := v; results := results st; conversationHistory
     := conversationHistory st; lastSources := lastSources st |}.

Definition set_results (v : option ChatData.t) (st : State) : State :=
  {| collections := collections st; selectedCollection := selectedCollection st; models
     := models st; selectedModel := selectedModel st; queryText := queryText st;
     isLoading := isLoading st; error := error st; results := v; conversationHistory :=
     conversationHistory st; lastSources := lastSources st |}.

Definition set_conversationHistory (v : list Message) (st : State) : State :=
  {| collections := collections st; selectedCollection := selectedCollection st; models
     := models st; selectedModel := selectedModel st; queryText := queryText st;
     isLoading := isLoading st; error := error st; results := results st;
     conversationHistory := v; lastSources := lastSources st |}.

Definition set_lastSources (v : list Source) (st : State) : State :=
  {| collections := collections st; selectedCollection := selectedCollection st; models
     := models st; selectedModel := selectedModel st; queryText := queryText st;
     isLoading := isLoading st; error := error st; results := results st;
     conversationHistory := conversationHistory st; lastSources := v |}.

(** The state right after [setup()]. *)
Definition setup : State :=
  {| collections := []; selectedCollection := ""; models := availableModels;
     selectedModel := ""; queryText := ""; isLoading := false; error := "";
     results := None; conversationHistory := []; lastSources := [] |}.

Definition STORAGE_KEY_COLLECTION : string := "ragu_selected_collection".
Definition STORAGE_KEY_MODEL : string := "ragu_selected_model".

(** The [requestData] of [submitQuery]; [model] is added only when set. *)
Record ChatRequest := {
  collection_name : string;
  query : string;
  history : list Message;
  model : option string
}.

(** The JSON bodies the component sends. *)
Inductive Body : Type :=
| no_body
| chat_body (requestData : ChatRequest)
| collection_body (name description : string).

(** A [fetch] of the component. *)
Inductive Call : Type :=
| Fetch (method url : string) (body : Body).

(** The reply of [GET /api/v1/collections/]. *)
Record CollectionsData := { data_collections : option (list string) }.

Abbreviation Handler := (Eff.M State Call).

(** [canSubmit]: a collection is selected and the query is not blank. *)
Definition canSubmit (st : State) : bool :=
  truthy (selectedCollection st) && (0 <? String.length (trim (queryText st)))%nat.

(** [fetchCollections()]: with collections in the reply, the saved
    collection is selected when it is one of them, the first one
    otherwise. *)
Definition fetchCollections (localStorage : gmap string string)
    (fetched : Fetched CollectionsData) : Handler unit :=
  Eff.try_catch
    (response ← Eff.fetch (Fetch "GET" "/api/v1/collections/" no_body) fetched;
     match response with
     | ok_response json =>
         data ← Eff.await json;
         Eff.modify (set_collections (default [] (data_collections data)));;
         match data_collections data with
         | Some (first :: rest) =>
             let savedCollection := localStorage !! STORAGE_KEY_COLLECTION in
             match savedCollection with
             | Some saved =>
                 if truthy saved && Array_includes (first :: rest) saved
                 then Eff.modify (set_selectedCollection saved)
                 else Eff.modify (set_selectedCollection first)
             | None => Eff.modify (set_selectedCollection first)
             end
         | _ => mret tt
         end
     | error_response _ =>
         Eff.modify (set_error "Failed to fetch collections. Please try again.")
     end)
    (fun message => Eff.modify (set_error ("Error fetching collections: " +:+ message))).

(** [onMounted] *)
Definition onMounted (localStorage : gmap string string)
    (fetched : Fetched CollectionsData) : Handler unit :=
  fetchCollections localStorage fetched;;
  st ← Eff.get;
  match localStorage !! STORAGE_KEY_MODEL with
  | Some saved =>
      if truthy saved then
        let modelExists := existsb (fun model => String.eqb (value model) saved) (models st) in
        if modelExists then Eff.modify (set_selectedModel saved) else mret tt
      else mret tt
  | None => mret tt
  end.

(** [watch(selectedCollection, ...)]: an empty value is not stored. *)
Definition watch_selectedCollection (newValue : string) (localStorage : gmap string string)
  : gmap string string :=
  if truthy newValue then <[STORAGE_KEY_COLLECTION := newValue]> localStorage
  else localStorage.

(** [createCollection()] *)
Definition createCollection (prompted : option string) (now : string)
    (localStorage : gmap string string)
    (created : Fetched unit) (refetched : Fetched CollectionsData) : Handler unit :=
  match prompted with
  | None => mret tt
  | Some collectionName =>
      if negb (truthy collectionName) then mret tt else
      Eff.try_catch
        (response ← Eff.fetch
                      (Fetch "POST" "/api/v1/collections/"
                             (collection_body collectionName
                                              ("Collection created on " +:+ now)))
                      created;
         match response with
         | ok_response _ =>
             fetchCollections localStorage refetched;;
             Eff.modify (set_selectedCollection collectionName)
         | error_response json =>
             errorData ← Eff.await json;
             Eff.modify (set_error ("Failed to create collection: "
                                    +:+ or_else (detail errorData) "Unknown error"))
         end)
        (fun message =>
           Eff.modify (set_error ("Error creating collection: " +:+ message)))
  end.

(** [submitQuery()] *)
Definition submitQuery (chat : Fetched ChatData.t) : Handler unit :=
  st ← Eff.get;
  if negb (canSubmit st) then mret tt else
  Eff.modify (set_isLoading true);;
  Eff.modify (set_error "");;
  Eff.modify (fun st => set_conversationHistory
                          (push (conversationHistory st)
                                {| role := "user"; content := queryText st |}) st);;
  Eff.try_finally
    (Eff.try_catch
       (st ← Eff.get;
        let requestData :=
          {| collection_name := selectedCollection st;
             query := queryText st;
             history := conversationHistory st;
             model := if truthy (selectedModel st) then Some (selectedModel st) else None |} in
        let currentQuery := queryText st in
        Eff.modify (set_queryText "");;
        response ← Eff.fetch (Fetch "POST" "/api/v1/chat/" (chat_body requestData)) chat;
        match response with
        | ok_response json =>
            data ← Eff.await json;
            Eff.modify (set_results (Some data));;
            Eff.modify (set_conversationHistory (ChatData.history data));;
            Eff.modify (set_lastSources (ChatData.sources data))
        | error_response json =>
            Eff.modify (fun st => set_conversationHistory (pop (conversationHistory st)) st);;
            Eff.modify (set_queryText currentQuery);;
            errorData ← Eff.await json;
            Eff.modify (set_error (or_else (detail errorData)
                                           "Failed to process query. Please try again."))
        end)
       (fun message =>
          Eff.modify (fun st => set_conversationHistory (pop (conversationHistory st)) st);;
          Eff.modify (set_error ("Error submitting query: " +:+ message))))
    (Eff.modify (set_isLoading false)).

(** [handleEnterKey(event)] *)
Definition handleEnterKey (shiftKey : bool) (chat : Fetched ChatData.t) : Handler unit :=
  st ← Eff.get;
  if negb shiftKey && truthy (trim (queryText st)) then submitQuery chat else mret tt.

(** The request of the collection-based [submitQuery]: the history it
    sends already holds the message of the user. *)
Definition chat_call_of (st : State) : Call :=
  Fetch "POST" "/api/v1/chat/"
    (chat_body
       {| collection_name := selectedCollection st;
          query := queryText st;
          history := conversationHistory st
                     ++ [ {| ModelQuery.role := "user";
                             ModelQuery.content := queryText st |} ];
          model := if truthy (selectedModel st) then Some (selectedModel st) else None |}).

End CollectionQuery.

(** ** Tab persistence ([setActiveTab] of the page, and its mock test) *)

Module TabPersistence.

(** [element.classList.add(c)] and [element.classList.remove(c)] *)
Definition classList_add (c : string) (classList : gset string) : gset string :=
  classList ∪ {[c]}.
Definition classList_remove (c : string) (classList : gset string) : gset string :=
  classList ∖ {[c]}.

(** The page: [localStorage] and the class lists of the four elements. *)
Record Page := {
  localStorage : gmap string string;
  chatMenuItem : gset string;
  filesMenuItem : gset string;
  chatInterface : gset string;
  fileManagement : gset string
}.

(** [setActiveTab(tabName)] *)
Definition setActiveTab (tabName : string) (page : Page) : Page :=
  let stored := <["activeTab" := tabName]> (localStorage page) in
  if String.eqb tabName "chat" then
    {| localStorage := stored;
       chatMenuItem := classList_add "active" (chatMenuItem page);
       filesMenuItem := classList_remove "active" (filesMenuItem page);
       chatInterface := classList_add "active" (chatInterface page);
       fileManagement := classList_remove "active" (fileManagement page) |}
  else if String.eqb tabName "files" then
    {| localStorage := stored;
       chatMenuItem := classList_remove "active" (chatMenuItem page);
       filesMenuItem := classList_add "active" (filesMenuItem page);
       chatInterface := classList_remove "active" (chatInterface page);
       fileManagement := classList_add "active" (fileManagement page) |}
  else
    {| localStorage := stored;
       chatMenuItem := chatMenuItem page;
       filesMenuItem := filesMenuItem page;
       chatInterface := chatInterface page;
       fileManagement := fileManagement page |}.

(** The two click handlers. *)
Definition clickChat (page : Page) : Page := setActiveTab "chat" page.
Definition clickFiles (page : Page) : Page := setActiveTab "files" page.

(** The code run when the page loads. *)
Definition onPageLoad (page : Page) : Page :=
  let activeTab := localStorage page !! "activeTab" in
  if bool_decide (activeTab = Some "files") then setActiveTab "files" page
  else setActiveTab "chat" page.

(** A reload: the storage stays, the elements are those of the served
    document, whatever their classes. *)
Definition reload (page document : Page) : Page :=
  {| localStorage := localStorage page;
     chatMenuItem := chatMenuItem document;
     filesMenuItem := filesMenuItem document;
     chatInterface := chatInterface document;
     fileManagement := fileManagement document |}.

(** The tab shown: the one whose menu item and panel carry [active]
    while those of the other tab do not. *)
Definition shows_chat (page : Page) : Prop :=
  ("active" ∈ chatMenuItem page) /\ ("active" ∈ chatInterface page)
  /\ ("active" ∉ filesMenuItem page) /\ ("active" ∉ fileManagement page).

Definition shows_files (page : Page) : Prop :=
  ("active" ∈ filesMenuItem page) /\ ("active" ∈ fileManagement page)
  /\ ("active" ∉ chatMenuItem page) /\ ("active" ∉ chatInterface page).

(** *** The mock test ([test_tab_persistence.js]) *)

(** The ids of the mocked elements. *)
Inductive ElementId : Type :=
| chat_menu_item
| files_menu_item
| chat_interface
| file_management.

(** A recorded call of a mocked [classList]. *)
Inductive ClassCall : Type :=
| add (c : string)
| remove (c : string).

(** The mocks: the [store] of [mockLocalStorage], and the calls the
    [jest.fn()] of the elements have recorded, in the order made. *)
Record Mock := {
  store : gmap string string;
  calls : list (ElementId * ClassCall)
}.

(** [mockLocalStorage.getItem(key)]: [this.store[key] || null] *)
Definition mock_getItem (key : string) (mock : Mock) : option string :=
  match store mock !! key with
  | Some v => if truthy v then Some v else None
  | None => None
  end.

(** The stand-in for [setActiveTab] in [testTabSwitching]. *)
Definition mock_setActiveTab (tabName : string) (mock : Mock) : Mock :=
  let stored := <["activeTab" := tabName]> (store mock) in
  if String.eqb tabName "chat" then
    {| store := stored;
       calls := calls mock ++ [ (chat_menu_item, add "active");
                                (files_menu_item, remove "active");
                                (chat_interface, add "active");
                                (file_management, remove "active") ] |}
  else if String.eqb tabName "files" then
    {| store := stored;
       calls := calls mock ++ [ (files_menu_item, add "active");
                                (chat_menu_item, remove "active");
                                (file_management, add "active");
                                (chat_interface, remove "active") ] |}
  else {| store := stored; calls := calls mock |}.

(** The page load as [testPageLoad] simulates it. *)
Definition simulated_page_load (mock : Mock) : Mock :=
  let activeTab := mock_getItem "activeTab" mock in
  if bool_decide (activeTab = Some "files") then
    {| store := store mock;
       calls := calls mock ++ [ (files_menu_item, add "active");
                                (chat_menu_item, remove "active");
                                (file_management, add "active");
                                (chat_interface, remove "active") ] |}
  else
    {| store := store mock;
       calls := calls mock ++ [ (chat_menu_item, add "active");
                                (files_menu_item, remove "active");
                                (chat_interface, add "active");
                                (file_management, remove "active") ] |}.

(** A recorded call, made on the elements of a page. *)
Definition perform (call : ElementId * ClassCall) (page : Page) : Page :=
  let change := match snd call with
                | add c => classList_add c
                | remove c => classList_remove c
                end in
  match fst call with
  | chat_menu_item =>
      {| localStorage := localStorage page; chatMenuItem := change (chatMenuItem page);
         filesMenuItem := filesMenuItem page; chatInterface := chatInterface page;
         fileManagement := fileManagement page |}
  | files_menu_item =>
      {| localStorage := localStorage page; chatMenuItem := chatMenuItem page;
         filesMenuItem := change (filesMenuItem page); chatInterface := chatInterface page;
         fileManagement := fileManagement page |}
  | chat_interface =>
      {| localStorage := localStorage page; chatMenuItem := chatMenuItem page;
         filesMenuItem := filesMenuItem page; chatInterface := change (chatInterface page);
         fileManagement := fileManagement page |}
  | file_management =>
      {| localStorage := localStorage page; chatMenuItem := chatMenuItem page;
         filesMenuItem := filesMenuItem page; chatInterface := chatInterface page;
         fileManagement := change (fileManagement page) |}
  end.

(** The recorded calls, made in order on the elements of a page. *)
Definition replay (recorded : list (ElementId * ClassCall)) (page : Page) : Page :=
  fold_left (fun p call => perform call p) recorded page.

(** Two pages with the same class lists. *)
Definition same_classes (p q : Page) : Prop :=
  chatMenuItem p = chatMenuItem q /\ filesMenuItem p = filesMenuItem q
  /\ chatInterface p = chatInterface q /\ fileManagement p = fileManagement q.

End TabPersistence.

(** * Properties *)

(** ** Facts about the runtime functions *)

Lemma pop_push {A} (l : list A) (x : A) : pop (push l x) = l.
Proof. unfold pop, push. apply removelast_last. Qed.

Lemma append_cons (c : ascii) (p s : string) :
  String c p +:+ s = String c (p +:+ s).
Proof. reflexivity. Qed.

Lemma append_empty (s : string) : "" +:+ s = s.
Proof. reflexivity. Qed.

Lemma substring_from_length (p s : string) :
  substring_from (String.length p) (p +:+ s) = s.
Proof.
  induction p as [|c p IH]; [reflexivity|].
  rewrite append_cons. simpl. exact IH.
Qed.

Lemma length_append (p s : string) :
  String.length (p +:+ s) = (String.length p + String.length s)%nat.
Proof.
  induction p as [|c p IH]; [reflexivity|].
  rewrite append_cons. simpl. f_equal. exact IH.
Qed.

Lemma substring_from_split (n : nat) (s : string) :
  (n <= String.length s)%nat ->
  exists p, s = p +:+ substring_from n s /\ String.length p = n.
Proof.
  revert s. induction n as [|n IH]; intros s Hn.
  - exists "". split; reflexivity.
  - destruct s as [|c s]; simpl in Hn; [lia|].
    destruct (IH s) as [p [Hp Hl]]; [lia|].
    exists (String c p). rewrite append_cons. simpl.
    split; [f_equal; exact Hp | f_equal; exact Hl].
Qed.

(** [endsWith] holds exactly of the strings that are some prefix followed
    by the search string. *)
Lemma endsWith_spec (s searchString : string) :
  endsWith s searchString = true <-> exists p, s = p +:+ searchString.
Proof.
  unfold endsWith. split.
  - destruct (Nat.ltb_spec (String.length s) (String.length searchString)) as [Hlt|Hge];
      [discriminate|].
    intros Heq. apply String.eqb_eq in Heq.
    destruct (substring_from_split (String.length s - String.length searchString) s)
      as [p [Hp _]]; [lia|].
    exists p. rewrite Heq in Hp. exact Hp.
  - intros [p ->]. rewrite length_append.
    destruct (Nat.ltb_spec (String.length p + String.length searchString)
                (String.length searchString)) as [Hlt|Hge]; [lia|].
    replace (String.length p + String.length searchString - String.length searchString)%nat
      with (String.length p) by lia.
    rewrite substring_from_length. apply String.eqb_refl.
Qed.

Lemma append_assoc (a b c : string) : (a +:+ b) +:+ c = a +:+ (b +:+ c).
Proof.
  induction a as [|x a IH]; [reflexivity|].
  rewrite !append_cons. f_equal. exact IH.
Qed.

Lemma append_empty_r (a : string) : a +:+ "" = a.
Proof.
  induction a as [|x a IH]; [reflexivity|].
  rewrite append_cons. f_equal. exact IH.
Qed.

(** ** Lists *)

Lemma filter_sublist {A} (f : A -> bool) (l : list A) : sublist (List.filter f l) l.
Proof.
  induction l as [|x l IH]; simpl; [constructor|].
  destruct (f x); [apply sublist_skip | apply sublist_cons]; exact IH.
Qed.

Lemma filter_split_Permutation {A} (f : A -> bool) (l : list A) :
  Permutation l (List.filter f l ++ List.filter (fun x => negb (f x)) l).
Proof.
  induction l as [|x l IH]; simpl; [constructor|].
  destruct (f x); simpl.
  - constructor. exact IH.
  - apply Permutation_cons_app. exact IH.
Qed.

Lemma filter_Forall {A} (f : A -> bool) (l : list A) :
  Forall (fun x => f x = true) (List.filter f l).
Proof.
  apply List.Forall_forall. intros x Hx. apply filter_In in Hx. tauto.
Qed.

(** ** [Promise.all] *)

Lemma first_rejection_None {A} (promises : list (nat * Completion A)) :
  first_rejection promises = None
  <-> Forall (fun p => exists v, snd p = Normal v) promises.
Proof.
  induction promises as [|[t [v|m]] rest IH]; simpl.
  - split; [constructor | reflexivity].
  - rewrite IH. split.
    + intros H. constructor; [exists v; reflexivity | exact H].
    + intros H. inversion H; assumption.
  - split.
    + destruct (first_rejection rest) as [[t' m']|]; [destruct (t' <? t)%nat|]; discriminate.
    + intros H. inversion H as [|? ? [v Hv] _]. discriminate.
Qed.

Lemma fulfilled_values_forallb {A} (P : A -> bool) (promises : list (nat * Completion A)) :
  Forall (fun p => exists v, snd p = Normal v) promises ->
  forallb P (fulfilled_values promises) = true
  <-> Forall (fun p => exists v, snd p = Normal v /\ P v = true) promises.
Proof.
  induction 1 as [|[t c] rest [v Hv] Hrest IH]; simpl.
  - split; [constructor | reflexivity].
  - simpl in Hv. subst c. simpl. rewrite andb_true_iff, IH. split.
    + intros [HP Hall]. constructor; [exists v; split; [reflexivity | exact HP] | exact Hall].
    + intros H. inversion H as [|? ? [v' [Hv' HP]] Hall]. simpl in Hv'.
      injection Hv' as <-. split; assumption.
Qed.

Lemma fulfilled_values_length {A} (promises : list (nat * Completion A)) :
  Forall (fun p => exists v, snd p = Normal v) promises ->
  length (fulfilled_values promises) = length promises.
Proof.
  induction 1 as [|[t c] rest [v Hv] Hrest IH]; simpl; [reflexivity|].
  simpl in Hv. subst c. simpl. f_equal. exact IH.
Qed.

(** [Promise.all] fulfils, with values that all pass a test, exactly when
    every promise fulfils with a value that passes it. *)
Lemma Promise_all_forallb {A} (P : A -> bool) (promises : list (nat * Completion A)) :
  (exists vs, Promise_all promises = Normal vs /\ forallb P vs = true)
  <-> Forall (fun p => exists v, snd p = Normal v /\ P v = true) promises.
Proof.
  unfold Promise_all. split.
  - intros [vs [Hall HP]].
    destruct (first_rejection promises) as [[t m]|] eqn:Hrej; [discriminate|].
    injection Hall as <-. apply first_rejection_None in Hrej.
    apply fulfilled_values_forallb; assumption.
  - intros H.
    assert (Hn : Forall (fun p => exists v, snd p = Normal v) promises).
    { eapply Forall_impl; [exact H|]. intros p [v [Hv _]]. exists v. exact Hv. }
    exists (fulfilled_values promises).
    pose proof Hn as Hrej. apply first_rejection_None in Hrej. rewrite Hrej.
    split; [reflexivity|]. apply fulfilled_values_forallb; assumption.
Qed.

(** ** [Array.prototype.sort] *)

Lemma sort_insert_Permutation {A} (compareFn : A -> A -> Z) (x : A) (l : list A) :
  Permutation (x :: l) (sort_insert compareFn x l).
Proof.
  induction l as [|y l IH]; simpl; [reflexivity|].
  destruct (compareFn x y <=? 0)%Z; [reflexivity|].
  rewrite <- IH. apply perm_swap.
Qed.

Lemma Array_sort_Permutation {A} (compareFn : A -> A -> Z) (l : list A) :
  Permutation l (Array_sort compareFn l).
Proof.
  induction l as [|x l IH]; simpl; [reflexivity|].
  rewrite <- sort_insert_Permutation. constructor. exact IH.
Qed.

Section SortOrder.
Context {A : Type} (compareFn : A -> A -> Z) (R : A -> A -> Prop).
Hypothesis R_not_after : forall x y, (compareFn x y <= 0)%Z -> R x y.
Hypothesis R_after : forall x y, (0 < compareFn x y)%Z -> R y x.
Hypothesis R_trans : forall x y z, R x y -> R y z -> R x z.

Lemma sort_insert_StronglySorted (x : A) (l : list A) :
  StronglySorted R l -> StronglySorted R (sort_insert compareFn x l).
Proof.
  induction 1 as [|y l Hsorted IH Hy]; simpl.
  - constructor; constructor.
  - destruct (Z.leb_spec (compareFn x y) 0) as [Hle|Hgt].
    + constructor; [constructor; assumption|].
      constructor; [apply R_not_after; exact Hle|].
      eapply Forall_impl; [exact Hy|].
      intros z Hz. eapply R_trans; [apply R_not_after; exact Hle | exact Hz].
    + constructor; [exact IH|].
      eapply Permutation_Forall; [apply sort_insert_Permutation|].
      constructor; [apply R_after; exact Hgt | exact Hy].
Qed.

Lemma Array_sort_StronglySorted (l : list A) : StronglySorted R (Array_sort compareFn l).
Proof.
  induction l as [|x l IH]; simpl; [constructor|].
  apply sort_insert_StronglySorted. exact IH.
Qed.

End SortOrder.

(** ** The PDF upload component *)

Section PdfUploadFacts.
Import PdfUpload.

Lemma isPdf_qualifies (file : File) : isPdf file = true <-> qualifies file.
Proof.
  unfold isPdf, qualifies. rewrite orb_true_iff, String.eqb_eq, endsWith_spec.
  reflexivity.
Qed.

Example handleFiles_mixed :
  files (handleFiles
           [ {| name := "a.PDF"; type := "" |};
             {| name := "notes.txt"; type := "text/plain" |};
             {| name := "scan"; type := "application/pdf" |} ]
           {| files := [ {| name := "old.pdf"; type := "application/pdf" |} ];
              isDragging := false; isUploading := false; uploadStatus := None;
              collections := []; selectedCollection := ""; tags := "" |})
  = [ {| name := "old.pdf"; type := "application/pdf" |};
      {| name := "a.PDF"; type := "" |};
      {| name := "scan"; type := "application/pdf" |} ].
Proof. reflexivity. Qed.

(** C10. [handleFiles] splits the files it is given into those that
    qualify as PDF (MIME type [application/pdf], or lower-cased name ending
    in [.pdf]) and the rest; the qualifying ones are appended to the
    selected files in the order they came in and the status is reset; when
    none qualifies the selected files stay as they are and the status is
    the failure 'Only PDF files are allowed.' *)
Theorem handleFiles_appends_exactly_the_pdfs (newFiles : list File) (st : State) :
  exists pdfFiles rejected,
    sublist pdfFiles newFiles
    /\ Permutation newFiles (pdfFiles ++ rejected)
    /\ Forall qualifies pdfFiles
    /\ Forall (fun file => ~ qualifies file) rejected
    /\ (pdfFiles <> [] ->
        files (handleFiles newFiles st) = files st ++ pdfFiles
        /\ uploadStatus (handleFiles newFiles st) = None)
    /\ (pdfFiles = [] ->
        files (handleFiles newFiles st) = files st
        /\ uploadStatus (handleFiles newFiles st)
           = Some {| success := false;
                     message := "Only PDF files are allowed.";
                     details := None |}).
Proof.
  exists (List.filter isPdf newFiles), (List.filter (fun x => negb (isPdf x)) newFiles).
  split; [apply filter_sublist|].
  split; [apply filter_split_Permutation|].
  split.
  { apply List.Forall_forall. intros f Hf. apply filter_In in Hf.
    apply isPdf_qualifies. tauto. }
  split.
  { apply List.Forall_forall. intros f Hf Hq. apply filter_In in Hf.
    apply isPdf_qualifies in Hq. destruct Hf as [_ Hf]. rewrite Hq in Hf. discriminate. }
  unfold handleFiles.
  destruct (List.filter isPdf newFiles) as [|f fs]; simpl.
  - split; [intros H; contradiction H; reflexivity | intros _; split; reflexivity].
  - split; [intros _; split; reflexivity | intros H; discriminate].
Qed.

(** What one promise of [uploadFiles] needs for an entry marked as a
    success: a fetch that resolved, an ok status, a body that parsed. *)
Lemma upload_one_success (file : File) (fetched : Fetched UploadReply) :
  (exists result, upload_one file fetched = Normal result /\ result_success result = true)
  <-> exists reply, fetched = Normal (ok_response (Normal reply)).
Proof.
  split.
  - intros [result [Hup Hs]].
    destruct fetched as [[[reply|m]|[err|m]]|m]; simpl in Hup; try discriminate.
    + exists reply. reflexivity.
    + injection Hup as <-. simpl in Hs. discriminate.
  - intros [reply ->]. simpl. eexists. split; reflexivity.
Qed.

Lemma upload_promises_all_successful (network : nat -> nat * Fetched UploadReply) (st : State) :
  Forall (fun p => exists v, snd p = Normal v /\ result_success v = true)
         (imap (fun i file => (fst (network i), upload_one file (snd (network i))))
               (files st))
  <-> every_upload_completes network st.
Proof.
  unfold every_upload_completes. rewrite Forall_lookup. split.
  - intros H i Hi.
    destruct (lookup_lt_is_Some_2 (files st) i Hi) as [file Hfile].
    apply (upload_one_success file).
    apply (H i (fst (network i), upload_one file (snd (network i)))).
    rewrite list_lookup_imap, Hfile. reflexivity.
  - intros H i p Hp. rewrite list_lookup_imap in Hp.
    destruct (files st !! i) as [file|] eqn:Hfile; [|discriminate].
    injection Hp as <-. simpl. apply upload_one_success.
    apply H. eapply lookup_lt_Some. exact Hfile.
Qed.

Example uploadFiles_unreadable_body :
  uploadStatus (fst (uploadFiles ok_with_unreadable_body one_pdf_selected))
  = Some {| success := false;
            message := "Error uploading files: Unexpected end of JSON input";
            details := None |}
  /\ files (fst (uploadFiles ok_with_unreadable_body one_pdf_selected))
     = files one_pdf_selected.
Proof. split; reflexivity. Qed.

(** C6, as stated, fails: with one file selected and a 200 response whose
    body does not parse, every response is ok and yet the status shown is
    a failure. *)
Lemma uploadFiles_ok_responses_without_success :
  ~ (status_successful (fst (uploadFiles ok_with_unreadable_body one_pdf_selected))
     <-> every_response_ok ok_with_unreadable_body one_pdf_selected).
Proof.
  intros [_ H].
  assert (Hok : every_response_ok ok_with_unreadable_body one_pdf_selected).
  { intros i response _ Hr. injection Hr as <-. reflexivity. }
  destruct (H Hok) as [status [Hst Hs]].
  injection Hst as <-. discriminate.
Qed.

(** C6, amended.  With no file selected, or no collection, [uploadFiles]
    issues no request, leaves the selected files alone and shows a failure
    with a message.  Otherwise it issues one POST to
    [/api/v1/documents/upload] per selected file, in order; the status
    shown is a success exactly when every upload runs to its end (the
    fetch resolves, the response is ok and its body parses), the selected
    files are emptied in that case and kept in every other. *)
Theorem uploadFiles_all_or_nothing (network : nat -> nat * Fetched UploadReply) (st : State) :
  (files st = [] \/ selectedCollection st = "" ->
     snd (uploadFiles network st) = []
     /\ files (fst (uploadFiles network st)) = files st
     /\ exists explanation,
          uploadStatus (fst (uploadFiles network st))
          = Some {| success := false; message := explanation; details := None |})
  /\ (files st <> [] /\ selectedCollection st <> "" ->
     snd (uploadFiles network st) = map (fun file => upload_request file st) (files st)
     /\ length (snd (uploadFiles network st)) = length (files st)
     /\ Forall (fun request => method request = "POST"
                               /\ url request = "/api/v1/documents/upload")
               (snd (uploadFiles network st))
     /\ (status_successful (fst (uploadFiles network st))
         <-> every_upload_completes network st)
     /\ (every_upload_completes network st -> files (fst (uploadFiles network st)) = [])
     /\ (~ every_upload_completes network st ->
         files (fst (uploadFiles network st)) = files st)).
Proof.
  unfold uploadFiles. split.
  - intros [Hf|Hc].
    + destruct (length (files st) =? 0)%nat eqn:E;
        [|rewrite Hf in E; discriminate].
      simpl. split; [reflexivity|]. split; [reflexivity|]. eexists. reflexivity.
    + destruct (length (files st) =? 0)%nat.
      * simpl. split; [reflexivity|]. split; [reflexivity|]. eexists. reflexivity.
      * rewrite Hc. simpl. split; [reflexivity|]. split; [reflexivity|]. eexists. reflexivity.
  - intros [Hf Hc].
    destruct (Nat.eqb_spec (length (files st)) 0) as [Hlen|_].
    { destruct (files st); [contradiction Hf; reflexivity | discriminate]. }
    assert (Ht : truthy (selectedCollection st) = true).
    { unfold truthy. destruct (String.eqb_spec (selectedCollection st) ""); [contradiction|reflexivity]. }
    rewrite Ht. cbn [negb fst snd].
    split; [reflexivity|]. split; [apply length_map|].
    split.
    { apply List.Forall_forall. intros r Hr. apply in_map_iff in Hr.
      destruct Hr as [file [<- _]]. split; reflexivity. }
    pose proof (Promise_all_forallb result_success
                  (imap (fun i file => (fst (network i), upload_one file (snd (network i))))
                        (files st))) as Hall.
    rewrite upload_promises_all_successful in Hall.
    destruct (Promise_all _) as [results|m].
    + destruct (forallb result_success results) eqn:Hs.
      * assert (Hc' : every_upload_completes network st).
        { apply Hall. exists results. split; [reflexivity | exact Hs]. }
        split; [|split].
        -- split; [intros _; exact Hc' | intros _; eexists; split; reflexivity].
        -- intros _. reflexivity.
        -- intros Hn. contradiction.
      * assert (Hc' : ~ every_upload_completes network st).
        { intros Hc'. apply Hall in Hc'. destruct Hc' as [vs [Hvs Hvs']].
          injection Hvs as <-. rewrite Hs in Hvs'. discriminate. }
        split; [|split].
        -- split; [intros [status [Hst Hsu]]; injection Hst as <-; discriminate
                  | intros Hn; contradiction].
        -- intros Hn. contradiction.
        -- intros _. reflexivity.
    + assert (Hc' : ~ every_upload_completes network st).
      { intros Hc'. apply Hall in Hc'. destruct Hc' as [vs [Hvs _]]. discriminate. }
      split; [|split].
      -- split; [intros [status [Hst Hsu]]; injection Hst as <-; discriminate
                | intros Hn; contradiction].
      -- intros Hn. contradiction.
      -- intros _. reflexivity.
Qed.

End PdfUploadFacts.

(** ** The chat component *)

Section ModelQueryFacts.
Import ModelQuery.

(** Unfolds a handler down to the state it leaves and the calls it logs. *)
Ltac run_handler :=
  unfold run, fetchTags, fetchTags_start, fetchConversations_start,
    updateConversationTagPreferences_start, fetch, try_catch, try_finally,
    await, call, modify, get, mbind, M_bind, bind, mret, M_ret, ret;
  cbn -[canSubmit trim list_find].

Lemma submitQuery_blank (sidebar : bool) (chat : Fetched ChatData.t) (st : State) :
  canSubmit st = false -> run (submitQuery sidebar chat) st = (st, []).
Proof.
  intros Hblank. unfold submitQuery. run_handler. rewrite Hblank. reflexivity.
Qed.

Lemma conversations_url_is_not_chat (conversationId : string) :
  String.eqb ("/api/v1/conversations/" +:+ conversationId) "/api/v1/chat/" = false.
Proof. reflexivity. Qed.

Lemma submitQuery_chat_posts (sidebar : bool) (chat : Fetched ChatData.t) (st : State) :
  length (List.filter is_chat_post (snd (run (submitQuery sidebar chat) st)))
  = if canSubmit st then 1%nat else 0%nat.
Proof.
  destruct (canSubmit st) eqn:Hsubmit.
  - unfold submitQuery. run_handler. rewrite Hsubmit. cbn -[canSubmit trim].
    destruct chat as [[[data|m]|[errorData|m]]|m]; cbn; try reflexivity.
    destruct (ChatData.conversation_id data) as [cid|]; cbn.
    + destruct (truthy cid); cbn.
      * destruct sidebar; cbn; rewrite ?conversations_url_is_not_chat; reflexivity.
      * destruct sidebar; reflexivity.
    + destruct sidebar; reflexivity.
  - rewrite submitQuery_blank by exact Hsubmit. reflexivity.
Qed.

(** When the POST does not end in a reply that parses, the handler has
    made one call and no other. *)
Lemma submitQuery_failure_calls (sidebar : bool) (chat : Fetched ChatData.t) (st : State) :
  canSubmit st = true ->
  (forall data, chat <> Normal (ok_response (Normal data))) ->
  snd (run (submitQuery sidebar chat) st) = [Fetch (chat_request_of st)].
Proof.
  intros Hsubmit Hfail. unfold submitQuery, chat_request_of. run_handler.
  rewrite Hsubmit. cbn -[canSubmit trim].
  unfold slice_0_m1. fold (pop (push (conversationHistory st)
                                     {| role := "user"; content := queryText st |})).
  rewrite pop_push.
  destruct chat as [[[data|m]|[errorData|m]]|m]; cbn; try reflexivity.
  exfalso. exact (Hfail data eq_refl).
Qed.

(** C7. One invocation of [submitQuery] issues at most one request to
    [/api/v1/chat/]: exactly one when the query is not blank, none
    otherwise; and when that request fails (the fetch rejects, the status
    is not ok, or the body does not parse) it is the only call made, so
    nothing is sent again. *)
Theorem submitQuery_at_most_one_chat_request
    (sidebar : bool) (chat : Fetched ChatData.t) (st : State) :
  let calls := snd (run (submitQuery sidebar chat) st) in
  (length (List.filter is_chat_post calls) <= 1)%nat
  /\ length (List.filter is_chat_post calls) = (if canSubmit st then 1%nat else 0%nat)
  /\ ((forall data, chat <> Normal (ok_response (Normal data))) ->
      canSubmit st = true ->
      calls = [Fetch (chat_request_of st)]).
Proof.
  cbv zeta. rewrite submitQuery_chat_posts.
  split; [destruct (canSubmit st); lia|].
  split; [reflexivity|].
  intros Hfail Hsubmit. apply submitQuery_failure_calls; assumption.
Qed.

(** With a query that is not blank, a failure whose error body parses, a
    fetch that rejects, and an ok response whose body does not parse all
    leave the history and the query text as they were before the
    submission. *)
Lemma submitQuery_restores_on_error (sidebar : bool) (st : State) :
  canSubmit st = true ->
  (forall message,
     let st' := fst (run (submitQuery sidebar (Throw message)) st) in
     conversationHistory st' = conversationHistory st
     /\ queryText st' = queryText st
     /\ error st' = "Error submitting query: " +:+ message)
  /\ (forall errorData,
        let st' := fst (run (submitQuery sidebar
                               (Normal (error_response (Normal errorData)))) st) in
        conversationHistory st' = conversationHistory st
        /\ queryText st' = queryText st
        /\ error st' = or_else (detail errorData)
                               "Failed to process query. Please try again.")
  /\ (forall message,
        let st' := fst (run (submitQuery sidebar
                               (Normal (ok_response (Throw message)))) st) in
        conversationHistory st' = conversationHistory st
        /\ queryText st' = queryText st
        /\ error st' = "Error submitting query: " +:+ message).
Proof.
  intros Hsubmit.
  split; [|split]; intros x; unfold submitQuery; run_handler;
    rewrite Hsubmit; cbn -[canSubmit trim]; rewrite pop_push; repeat split.
Qed.

(** A status that is not ok with a body that is not JSON: the user
    message is popped in the branch of the status, [response.json()]
    rejects, and the [catch] block pops once more. *)
Lemma submitQuery_pops_twice (sidebar : bool) (message : string) (st : State) :
  canSubmit st = true ->
  let st' := fst (run (submitQuery sidebar (Normal (error_response (Throw message)))) st) in
  conversationHistory st' = pop (conversationHistory st)
  /\ queryText st' = queryText st
  /\ error st' = "Error submitting query: " +:+ message.
Proof.
  intros Hsubmit. unfold submitQuery. run_handler.
  rewrite Hsubmit. cbn -[canSubmit trim]. rewrite pop_push. repeat split.
Qed.

(** C1, at the input where the code departs from it.  Two messages are in
    the history and a query is typed; the server answers 500 with a plain
    text body.  The handler ends with only the first message left: the
    user message it had added is removed, and so is the assistant's answer
    that was there before the submission. *)
Theorem submitQuery_unreadable_error_body_loses_a_message :
  let st' := fst (run (submitQuery false
                         (Normal (error_response
                                    (Throw "Unexpected token I in JSON at position 0"))))
                      asking) in
  conversationHistory asking
  = [ {| role := "user"; content := "What is RAG?" |};
      {| role := "assistant"; content := "Retrieval-augmented generation." |} ]
  /\ conversationHistory st' = [ {| role := "user"; content := "What is RAG?" |} ]
  /\ conversationHistory st' <> conversationHistory asking
  /\ queryText st' = queryText asking
  /\ error st' = "Error submitting query: Unexpected token I in JSON at position 0".
Proof.
  cbv zeta. split; [reflexivity|]. split; [reflexivity|].
  split; [discriminate|]. split; reflexivity.
Qed.

(** C2. When [GET /api/v1/conversations/{id}] answers ok with a
    conversation, [selectConversation] leaves the requested id as the
    current conversation, the conversation's messages as the history, its
    tags as the selected tags (the empty list when it has none), its
    [include_untagged] as [includeUntagged] ([true] when the property is
    undefined), and its model as the selected model when it has one; the
    selected model is kept otherwise.  This holds whatever the refresh of
    the tags in the middle of the handler meets. *)
Theorem selectConversation_loads_the_conversation
    (conversationId : string) (conversation : Conversation.t)
    (tagsFetched : Fetched TagsData.t) (st : State) :
  let st' := fst (run (selectConversation conversationId
                         (Normal (ok_response (Normal conversation))) tagsFetched) st) in
  currentConversationId st' = Some conversationId
  /\ conversationHistory st' = Conversation.messages conversation
  /\ selectedTags st' = default [] (Conversation.tags conversation)
  /\ includeUntagged st' = default true (Conversation.include_untagged conversation)
  /\ selectedModel st'
     = match Conversation.model conversation with
       | Some model => if truthy model then model else selectedModel st
       | None => selectedModel st
       end.
Proof.
  unfold selectConversation. run_handler.
  destruct tagsFetched as [[[data|m]|[errorData|m]]|m]; cbn;
    destruct (Conversation.tags conversation) as [tags|]; cbn;
    destruct (Conversation.include_untagged conversation) as [include_untagged|]; cbn;
    destruct (Conversation.model conversation) as [model|]; cbn;
    try (destruct (truthy model); cbn);
    repeat split; reflexivity.
Qed.

(** C4. On an ok response, [deleteConversation] leaves the conversations
    whose id is not the deleted one, all of them and in their order: the
    list before is the list after plus entries that carry the deleted id.
    The current conversation and the history are cleared when the deleted
    id is the current one and are untouched otherwise.  On a response that
    is not ok, and when the fetch rejects, the list, the current
    conversation and the history are untouched. *)
Theorem deleteConversation_removes_only_that_conversation
    (conversationId : string) (st : State) :
  (forall json,
     let st' := fst (run (deleteConversation conversationId (Normal (ok_response json))) st) in
     (exists removed,
        Permutation (conversations st) (conversations st' ++ removed)
        /\ Forall (fun c => Conversation.id c = conversationId) removed)
     /\ Forall (fun c => Conversation.id c <> conversationId) (conversations st')
     /\ sublist (conversations st') (conversations st)
     /\ (currentConversationId st = Some conversationId ->
         currentConversationId st' = None /\ conversationHistory st' = [])
     /\ (currentConversationId st <> Some conversationId ->
         currentConversationId st' = currentConversationId st
         /\ conversationHistory st' = conversationHistory st))
  /\ (forall json,
        let st' := fst (run (deleteConversation conversationId (Normal (error_response json))) st) in
        conversations st' = conversations st
        /\ currentConversationId st' = currentConversationId st
        /\ conversationHistory st' = conversationHistory st)
  /\ (forall message,
        let st' := fst (run (deleteConversation conversationId (Throw message)) st) in
        conversations st' = conversations st
        /\ currentConversationId st' = currentConversationId st
        /\ conversationHistory st' = conversationHistory st).
Proof.
  split.
  - intros json. unfold deleteConversation. run_handler.
    set (keep := fun c => negb (String.eqb (Conversation.id c) conversationId)).
    assert (Hshape :
      (exists removed,
         Permutation (conversations st) (List.filter keep (conversations st) ++ removed)
         /\ Forall (fun c => Conversation.id c = conversationId) removed)
      /\ Forall (fun c => Conversation.id c <> conversationId)
                (List.filter keep (conversations st))
      /\ sublist (List.filter keep (conversations st)) (conversations st)).
    { split; [|split].
      - exists (List.filter (fun c => negb (keep c)) (conversations st)).
        split; [apply filter_split_Permutation|].
        eapply Forall_impl; [apply filter_Forall|].
        intros c Hc. unfold keep in Hc. rewrite negb_involutive in Hc.
        apply String.eqb_eq. exact Hc.
      - eapply Forall_impl; [apply filter_Forall|].
        intros c Hc. unfold keep in Hc. apply negb_true_iff in Hc.
        apply String.eqb_neq. exact Hc.
      - apply filter_sublist. }
    destruct Hshape as [H1 [H2 H3]].
    case_bool_decide as Hcur; cbn.
    + split; [exact H1|]. split; [exact H2|]. split; [exact H3|].
      split; [intros _; split; reflexivity | intros Hne; contradiction].
    + split; [exact H1|]. split; [exact H2|]. split; [exact H3|].
      split; [intros Heq; contradiction | intros _; split; reflexivity].
  - split.
    + intros [errorData|m]; unfold deleteConversation; run_handler; repeat split.
    + intros m. unfold deleteConversation. run_handler. repeat split.
Qed.

Lemma trim_empty_of_falsy (t : string) : truthy t = false -> trim t = "".
Proof.
  unfold truthy. intros H. apply negb_false_iff, String.eqb_eq in H. subst t. reflexivity.
Qed.

(** The guard of [renameConversation] lets through exactly the titles that
    are not blank. *)
Lemma rename_guard (newTitle : string) :
  negb (truthy newTitle) || String.eqb (trim newTitle) "" = true <-> trim newTitle = "".
Proof.
  rewrite orb_true_iff, negb_true_iff, String.eqb_eq. split.
  - intros [H|H]; [apply trim_empty_of_falsy; exact H | exact H].
  - intros H. right. exact H.
Qed.

(** C5. When [prompt] is cancelled or the title entered is empty or
    blank, [renameConversation] sends nothing and leaves the state as it
    is.  Otherwise it sends one PUT to [/api/v1/conversations/{id}] with
    the trimmed title; the list keeps its length and every entry with
    another id; and on an ok response with the updated conversation, the
    first entry with the id of the renamed conversation is replaced by it
    (the list is unchanged when no entry has that id). *)
Theorem renameConversation_replaces_only_the_renamed
    (conversation : Conversation.t) (prompted : option string)
    (fetched : Fetched Conversation.t) (st : State) :
  let st' := fst (run (renameConversation conversation prompted fetched) st) in
  let calls := snd (run (renameConversation conversation prompted fetched) st) in
  (prompted = None \/ (exists t, prompted = Some t /\ trim t = "") ->
   st' = st /\ calls = [])
  /\ (forall newTitle, prompted = Some newTitle -> trim newTitle <> "" ->
      calls = [ Fetch {| method := "PUT";
                         url := "/api/v1/conversations/" +:+ Conversation.id conversation;
                         body := title_body (trim newTitle) |} ]
      /\ length (conversations st') = length (conversations st)
      /\ (forall j c, conversations st !! j = Some c ->
                      Conversation.id c <> Conversation.id conversation ->
                      conversations st' !! j = Some c)
      /\ (forall updatedConversation,
            fetched = Normal (ok_response (Normal updatedConversation)) ->
            (forall index c,
               conversations st !! index = Some c ->
               Conversation.id c = Conversation.id conversation ->
               (forall j c', (j < index)%nat -> conversations st !! j = Some c' ->
                             Conversation.id c' <> Conversation.id conversation) ->
               conversations st' = <[index := updatedConversation]> (conversations st))
            /\ (Forall (fun c => Conversation.id c <> Conversation.id conversation)
                       (conversations st) ->
                conversations st' = conversations st))).
Proof.
  cbv zeta. split.
  - intros [->|[t [-> Ht]]]; [split; reflexivity|].
    unfold renameConversation. apply rename_guard in Ht. rewrite Ht. split; reflexivity.
  - intros newTitle -> Hne.
    unfold renameConversation.
    destruct (negb (truthy newTitle) || String.eqb (trim newTitle) "") eqn:Hguard.
    { apply rename_guard in Hguard. contradiction. }
    destruct fetched as [[[updated|m]|[errorData|m]]|m]; run_handler;
      try (split; [reflexivity|]; split; [reflexivity|];
           split; [intros j c Hj _; exact Hj|];
           intros u Hu; discriminate).
    destruct (list_find (fun c => Conversation.id c = Conversation.id conversation)
                        (conversations st)) as [[index found]|] eqn:Hfind; cbn.
    + apply list_find_Some in Hfind. destruct Hfind as [Hlookup [Hid Hfirst]].
      split; [reflexivity|]. split; [apply length_insert|].
      split.
      { intros j c Hj Hc. rewrite list_lookup_insert_ne; [exact Hj|].
        intros <-. rewrite Hlookup in Hj. injection Hj as <-. contradiction. }
      intros u Hu. injection Hu as <-. split.
      * intros i c Hi Hc Hbefore.
        assert (i = index) as ->; [|reflexivity].
        destruct (Nat.lt_trichotomy i index) as [Hlt|[Heq|Hgt]]; [|exact Heq|].
        -- exfalso. exact (Hfirst i c Hi Hlt Hc).
        -- exfalso. exact (Hbefore index found Hgt Hlookup Hid).
      * intros Hnone. exfalso.
        rewrite Forall_lookup in Hnone. exact (Hnone index found Hlookup Hid).
    + apply list_find_None in Hfind.
      split; [reflexivity|]. split; [reflexivity|].
      split; [intros j c Hj _; exact Hj|].
      intros u Hu. split; [|intros _; reflexivity].
      intros i c Hi Hc _. exfalso.
      rewrite Forall_lookup in Hfind. exact (Hfind i c Hi Hc).
Qed.

Lemma existsb_model (saved : string) (l : list Model) :
  existsb (fun model => String.eqb (value model) saved) l = true
  <-> In saved (map value l).
Proof.
  rewrite existsb_exists, in_map_iff. split.
  - intros [model [Hin Heq]]. apply String.eqb_eq in Heq. exists model. split; assumption.
  - intros [model [Heq Hin]]. exists model. split; [exact Hin | apply String.eqb_eq; exact Heq].
Qed.

(** What [onMounted] leaves in [selectedModel], from any state. *)
Lemma onMounted_selectedModel
    (JSON_parse : string -> Completion (list string)) (localStorage : gmap string string)
    (tagsFetched : Fetched TagsData.t) (st : State) :
  selectedModel (fst (run (onMounted JSON_parse localStorage tagsFetched) st))
  = match localStorage !! STORAGE_KEY_MODEL with
    | Some saved =>
        if truthy saved && existsb (fun model => String.eqb (value model) saved) (models st)
        then saved else selectedModel st
    | None => selectedModel st
    end.
Proof.
  unfold onMounted. run_handler.
  destruct tagsFetched as [[[data|m]|[errorData|m]]|m]; cbn;
    destruct (localStorage !! STORAGE_KEY_MODEL) as [savedModel|]; cbn;
    try (destruct (truthy savedModel); cbn;
         try (destruct (existsb _ (models st)); cbn));
    destruct (localStorage !! STORAGE_KEY_TAGS) as [savedTags|]; cbn;
    try (destruct (truthy savedTags); cbn;
         try (destruct (JSON_parse savedTags); cbn));
    destruct (localStorage !! STORAGE_KEY_INCLUDE_UNTAGGED); cbn;
    reflexivity.
Qed.

(** Mounted from the state of [setup], the component ends [onMounted]
    with a model saved under [ragu_selected_model] applied when it is the
    value of an available model, and with the empty string for any other
    saved value, or none. *)
Lemma onMounted_applies_an_available_model
    (JSON_parse : string -> Completion (list string)) (localStorage : gmap string string)
    (tagsFetched : Fetched TagsData.t) :
  let st' := fst (run (onMounted JSON_parse localStorage tagsFetched) setup) in
  (selectedModel st' = "" \/ In (selectedModel st') (map value availableModels))
  /\ (forall saved, localStorage !! "ragu_selected_model" = Some saved ->
        In saved (map value availableModels) -> selectedModel st' = saved)
  /\ (forall saved, localStorage !! "ragu_selected_model" = Some saved ->
        ~ In saved (map value availableModels) -> selectedModel st' = "")
  /\ (localStorage !! "ragu_selected_model" = None -> selectedModel st' = "").
Proof.
  cbv zeta. rewrite onMounted_selectedModel.
  change (localStorage !! STORAGE_KEY_MODEL) with (localStorage !! "ragu_selected_model").
  change (models setup) with availableModels.
  change (selectedModel setup) with "".
  destruct (localStorage !! "ragu_selected_model") as [saved|].
  - destruct (existsb (fun model => String.eqb (value model) saved) availableModels) eqn:Hex.
    + pose proof (proj1 (existsb_model saved availableModels) Hex) as Hin.
      assert (Ht : truthy saved = true).
      { destruct saved; [|reflexivity]. exfalso. simpl in Hin.
        repeat (destruct Hin as [Hin|Hin]; [discriminate|]). exact Hin. }
      rewrite Ht. cbn. split; [right; exact Hin|].
      split; [intros s Hs _; injection Hs as <-; reflexivity|].
      split; [intros s Hs Hn; injection Hs as <-; contradiction | intros H; discriminate].
    + rewrite andb_false_r. split; [left; reflexivity|].
      split.
      { intros s Hs Hin. injection Hs as <-. apply existsb_model in Hin.
        rewrite Hin in Hex. discriminate. }
      split; [intros s Hs _; reflexivity | intros H; discriminate].
  - split; [left; reflexivity|].
    split; [intros s Hs; discriminate|].
    split; [intros s Hs; discriminate | intros _; reflexivity].
Qed.


(** *** What the handlers keep *)

Lemma preserves_ret {A} (P : State -> Prop) (a : A) : preserves P (mret a).
Proof. intros st log H. exact H. Qed.

Lemma preserves_bind {A B} (P : State -> Prop) (m : M A) (k : A -> M B) :
  preserves P m -> (forall a, preserves P (k a)) -> preserves P (mbind k m).
Proof.
  intros Hm Hk st log H. specialize (Hm st log H).
  unfold mbind, M_bind, bind.
  destruct (m st log) as [[[a|e] st'] log']; cbn in Hm |- *; [|exact Hm].
  apply Hk. exact Hm.
Qed.

Lemma preserves_get (P : State -> Prop) : preserves P get.
Proof. intros st log H. exact H. Qed.

Lemma preserves_modify (P : State -> Prop) (f : State -> State) :
  (forall st, P st -> P (f st)) -> preserves P (modify f).
Proof. intros Hf st log H. apply Hf. exact H. Qed.

Lemma preserves_call (P : State -> Prop) (c : Call) : preserves P (call c).
Proof. intros st log H. exact H. Qed.

Lemma preserves_await {A} (P : State -> Prop) (p : Completion A) : preserves P (await p).
Proof. intros st log H. exact H. Qed.

Lemma preserves_fetch {A} (P : State -> Prop) (request : Request) (fetched : Fetched A) :
  preserves P (fetch request fetched).
Proof.
  unfold fetch. apply preserves_bind; [apply preserves_call|].
  intros _. apply preserves_await.
Qed.

Lemma preserves_try_catch {A} (P : State -> Prop) (body : M A) (handler : string -> M A) :
  preserves P body -> (forall message, preserves P (handler message)) ->
  preserves P (try_catch body handler).
Proof.
  intros Hbody Hhandler st log H. specialize (Hbody st log H).
  unfold try_catch.
  destruct (body st log) as [[[a|e] st'] log']; cbn in Hbody |- *; [exact Hbody|].
  apply Hhandler. exact Hbody.
Qed.

Lemma preserves_try_finally {A} (P : State -> Prop) (body : M A) (cleanup : M unit) :
  preserves P body -> preserves P cleanup -> preserves P (try_finally body cleanup).
Proof.
  intros Hbody Hcleanup st log H. specialize (Hbody st log H).
  unfold try_finally.
  destruct (body st log) as [[completion st'] log']. cbn in Hbody.
  specialize (Hcleanup st' log' Hbody).
  destruct (cleanup st' log') as [[[u|e] st''] log'']; exact Hcleanup.
Qed.

Lemma preserves_run {A} (P : State -> Prop) (m : M A) (st : State) :
  preserves P m -> P st -> P (fst (run m st)).
Proof.
  intros Hm H. specialize (Hm st [] H). unfold run.
  destruct (m st []) as [[completion st'] log']. exact Hm.
Qed.

(** Walks through a handler that assigns neither [models] nor
    [selectedModel]. *)
Ltac keeps_model :=
  repeat first
    [ apply preserves_ret
    | apply preserves_get
    | apply preserves_call
    | apply preserves_await
    | apply preserves_fetch
    | apply preserves_modify; intros ? ?; assumption
    | apply preserves_bind; [|intros ?]
    | apply preserves_try_catch; [|intros ?]
    | apply preserves_try_finally
    | progress cbv zeta
    | match goal with
      | |- preserves _ (match ?x with _ => _ end) => destruct x
      end ].

Lemma fetchTags_same_model (st0 : State) (fetched : Fetched TagsData.t) :
  preserves (same_model st0) (fetchTags fetched).
Proof. unfold fetchTags. keeps_model. Qed.

Lemma submitQuery_same_model (st0 : State) (sidebar : bool) (chat : Fetched ChatData.t) :
  preserves (same_model st0) (submitQuery sidebar chat).
Proof.
  unfold submitQuery, updateConversationTagPreferences_start, fetchTags_start. keeps_model.
Qed.

Lemma onMounted_models (l : list Model)
    (JSON_parse : string -> Completion (list string)) (localStorage : gmap string string)
    (tagsFetched : Fetched TagsData.t) :
  preserves (fun st => models st = l) (onMounted JSON_parse localStorage tagsFetched).
Proof. unfold onMounted, fetchConversations_start. keeps_model. Qed.

Lemma deleteConversation_same_model (st0 : State) (conversationId : string)
    (fetched : Fetched unit) :
  preserves (same_model st0) (deleteConversation conversationId fetched).
Proof. unfold deleteConversation. keeps_model. Qed.

(** [selectConversation] assigns [selectedModel] in one place: the model
    of the conversation loaded, when there is one. *)
Lemma selectConversation_model (conversationId : string) (fetched : Fetched Conversation.t)
    (tagsFetched : Fetched TagsData.t) (st : State) :
  let st' := fst (run (selectConversation conversationId fetched tagsFetched) st) in
  models st' = models st
  /\ (selectedModel st' = selectedModel st
      \/ exists conversation,
           fetched = Normal (ok_response (Normal conversation))
           /\ Conversation.model conversation = Some (selectedModel st')).
Proof.
  cbv zeta. unfold selectConversation.
  destruct fetched as [[[conversation|m]|[errorData|m]]|m]; run_handler;
    try (split; [reflexivity | left; reflexivity]).
  destruct tagsFetched as [[[data|m]|[errorData|m]]|m]; cbn;
    destruct (Conversation.tags conversation); cbn;
    destruct (Conversation.include_untagged conversation); cbn;
    destruct (Conversation.model conversation) as [model|] eqn:Hmodel; cbn;
    try (split; [reflexivity | left; reflexivity]);
    (destruct (truthy model); cbn;
     [ split; [reflexivity | right; exists conversation; split; [reflexivity | exact Hmodel]]
     | split; [reflexivity | left; reflexivity] ]).
Qed.

(** The options of the [select] are the default and values of [models]. *)
Lemma model_options_available (st : State) (chosen : string) :
  In chosen (model_options st) -> chosen = "" \/ In chosen (map value (models st)).
Proof.
  unfold model_options. intros [Hdefault|Hin]; [left; symmetry; exact Hdefault|].
  right. rewrite !in_app_iff, !in_map_iff in Hin. apply in_map_iff.
  destruct Hin as [[m [Hv Hm]]|[[m [Hv Hm]]|[m [Hv Hm]]]];
    apply filter_In in Hm; exists m; tauto.
Qed.

(** An event leaves [models] alone, and [selectedModel] too unless the
    user picks an option of the [select] or a conversation that carries a
    model is loaded. *)
Lemma handle_selectedModel (event : Event) (st : State) :
  models (handle event st) = models st
  /\ (selectedModel (handle event st) = selectedModel st
      \/ In (selectedModel (handle event st)) (model_options st)
      \/ exists conversationId conversation tagsFetched,
           event = conversation_loaded conversationId
                     (Normal (ok_response (Normal conversation))) tagsFetched
           /\ Conversation.model conversation = Some (selectedModel (handle event st))).
Proof.
  assert (Hsame : forall st', same_model st st' ->
            models st' = models st
            /\ (selectedModel st' = selectedModel st
                \/ In (selectedModel st') (model_options st)
                \/ exists conversationId conversation tagsFetched,
                     event = conversation_loaded conversationId
                               (Normal (ok_response (Normal conversation))) tagsFetched
                     /\ Conversation.model conversation = Some (selectedModel st'))).
  { intros st' [Hm Hs]. split; [exact Hm | left; exact Hs]. }
  assert (Hst : same_model st st) by (split; reflexivity).
  destruct event; cbn [handle].
  - unfold chooseModel.
    destruct (model_options st !! index) as [chosen|] eqn:Hchosen; [|apply Hsame, Hst].
    split; [reflexivity|]. right. left.
    change (In chosen (model_options st)).
    apply list_elem_of_In. eapply list_elem_of_lookup_2. exact Hchosen.
  - apply Hsame. split; reflexivity.
  - apply Hsame. unfold handleClickOutside.
    destruct (negb (tagDropdownOpen st)); [exact Hst|]. destruct outside; split; reflexivity.
  - apply Hsame. unfold handleTagDropdownBlur.
    destruct (negb (tagDropdownOpen st)); [exact Hst|]. destruct focusLeft; split; reflexivity.
  - apply Hsame. split; reflexivity.
  - apply Hsame. split; reflexivity.
  - apply Hsame. unfold addTag.
    destruct (negb (Array_includes (selectedTags st) tag)); split; reflexivity.
  - apply Hsame. unfold removeTag.
    destruct (Array_indexOf (selectedTags st) tag); split; reflexivity.
  - apply Hsame. split; reflexivity.
  - apply Hsame. apply preserves_run; [|exact Hst]. unfold handleEnterKey.
    apply preserves_bind; [apply preserves_get|]. intros st1.
    destruct (negb shiftKey && truthy (trim (queryText st1)));
      [apply submitQuery_same_model | apply preserves_ret].
  - apply Hsame. apply preserves_run; [apply submitQuery_same_model | exact Hst].
  - unfold loadConversation.
    destruct (selectConversation_model conversationId fetched tagsFetched st)
      as [Hm [Hs|[conversation [-> Hmodel]]]].
    + split; [exact Hm | left; exact Hs].
    + split; [exact Hm|]. right. right.
      exists conversationId, conversation, tagsFetched. split; [reflexivity | exact Hmodel].
  - apply Hsame. apply preserves_run; [|exact Hst]. unfold startNewConversation.
    keeps_model.
  - apply Hsame. apply preserves_run; [apply fetchTags_same_model | exact Hst].
  - apply Hsame. apply preserves_run; [|exact Hst]. unfold fetchConversations. keeps_model.
  - apply Hsame. apply preserves_run; [|exact Hst].
    unfold updateConversationTagPreferences. keeps_model.
  - apply Hsame. apply preserves_run; [|exact Hst]. unfold renameConversation.
    destruct prompted as [newTitle|]; [|apply preserves_ret].
    destruct (negb (truthy newTitle) || String.eqb (trim newTitle) ""); keeps_model.
  - apply Hsame. apply preserves_run; [|exact Hst]. unfold confirmDeleteConversation.
    destruct confirmed; [apply deleteConversation_same_model | apply preserves_ret].
Qed.

(** C9. Mounted from the state of [setup], the component applies a model
    saved under [ragu_selected_model] when it is the value of an available
    model, and keeps the empty string for any other saved value, or none.
    From then on, through whatever the user, the page and the network do,
    the selected model is the empty string or the value of one of
    [availableModels], as long as no conversation is loaded that carries
    another model. *)
Theorem selectedModel_stays_available
    (JSON_parse : string -> Completion (list string)) (localStorage : gmap string string)
    (tagsFetched : Fetched TagsData.t) (events : list Event) :
  Forall loads_an_available_model events ->
  let mounted := fst (run (onMounted JSON_parse localStorage tagsFetched) setup) in
  let st := after events mounted in
  (selectedModel st = "" \/ In (selectedModel st) (map value availableModels))
  /\ (forall saved, localStorage !! "ragu_selected_model" = Some saved ->
        In saved (map value availableModels) -> selectedModel mounted = saved)
  /\ (forall saved, localStorage !! "ragu_selected_model" = Some saved ->
        ~ In saved (map value availableModels) -> selectedModel mounted = "")
  /\ (localStorage !! "ragu_selected_model" = None -> selectedModel mounted = "").
Proof.
  intros Hevents. cbv zeta.
  pose proof (onMounted_applies_an_available_model JSON_parse localStorage tagsFetched)
    as [Hmounted Hsaved].
  cbv zeta in Hmounted, Hsaved. split; [|exact Hsaved]. clear Hsaved.
  assert (Hmodels :
    models (fst (run (onMounted JSON_parse localStorage tagsFetched) setup)) = availableModels).
  { apply preserves_run; [apply onMounted_models | reflexivity]. }
  revert Hmounted Hmodels.
  generalize (fst (run (onMounted JSON_parse localStorage tagsFetched) setup)).
  induction Hevents as [|event events Hevent _ IH]; intros st Hst Hmodels; [exact Hst|].
  cbn [after fold_left]. apply IH.
  - destruct (handle_selectedModel event st) as [_ [Hs|[Hin|Hloaded]]].
    + rewrite Hs. exact Hst.
    + apply model_options_available in Hin. rewrite Hmodels in Hin. exact Hin.
    + destruct Hloaded as [conversationId [conversation [tags [-> Hmodel]]]].
      cbn in Hevent. rewrite Hmodel in Hevent. exact Hevent.
  - destruct (handle_selectedModel event st) as [Hm _]. rewrite Hm. exact Hmodels.
Qed.

Lemma selectedModel_stays_available_witness :
  let mounted :=
    fst (run (onMounted (fun _ => Normal []) {[ "ragu_selected_model" := "openai:gpt-4o" ]}
                        no_tags) setup) in
  let st := after a_session mounted in
  (selectedModel st = "" \/ In (selectedModel st) (map value availableModels))
  /\ (forall saved,
        ({[ "ragu_selected_model" := "openai:gpt-4o" ]} : gmap string string)
          !! "ragu_selected_model" = Some saved ->
        In saved (map value availableModels) -> selectedModel mounted = saved)
  /\ (forall saved,
        ({[ "ragu_selected_model" := "openai:gpt-4o" ]} : gmap string string)
          !! "ragu_selected_model" = Some saved ->
        ~ In saved (map value availableModels) -> selectedModel mounted = "")
  /\ (({[ "ragu_selected_model" := "openai:gpt-4o" ]} : gmap string string)
        !! "ragu_selected_model" = None -> selectedModel mounted = "").
Proof.
  apply (selectedModel_stays_available
           (fun _ => Normal []) {[ "ragu_selected_model" := "openai:gpt-4o" ]} no_tags
           a_session).
  unfold a_session. constructor; [exact I|].
  constructor; [cbn; right; do 5 right; left; reflexivity|].
  constructor; [exact I|]. constructor; [exact I|]. constructor.
Defined.

(** After the mount with nothing saved, a conversation that the server
    keeps with the model [openai:gpt-5] is loaded: the selected model is
    that model, which is neither the empty string nor an available one. *)
Lemma selectConversation_installs_another_model :
  let mounted := fst (run (onMounted (fun _ => Normal []) ∅ no_tags) setup) in
  let st :=
    after [conversation_loaded "c1" (Normal (ok_response (Normal conversation_of_another_model)))
             no_tags] mounted in
  selectedModel st = "openai:gpt-5"
  /\ ~ (selectedModel st = "" \/ In (selectedModel st) (map value availableModels)).
Proof.
  cbv zeta.
  assert (Hst :
    selectedModel
      (after [conversation_loaded "c1"
                (Normal (ok_response (Normal conversation_of_another_model))) no_tags]
             (fst (run (onMounted (fun _ => Normal []) ∅ no_tags) setup)))
    = "openai:gpt-5").
  { vm_compute. reflexivity. }
  rewrite Hst. split; [reflexivity|].
  intros [Hempty|Hin]; [discriminate|].
  cbn in Hin. repeat (destruct Hin as [Hin|Hin]; [discriminate|]). exact Hin.
Qed.

End ModelQueryFacts.

Section ComputedFacts.
Import ModelQuery.
Context {Score : Type}.
Variable localeCompare : string -> string -> Z.
Variable new_Fuse : list string -> Completion Fuse.t.
Variable Fuse_search : Fuse.t -> string -> Completion (list (string * Score)).

Lemma Array_includes_In (l : list string) (x : string) :
  Array_includes l x = true <-> In x l.
Proof.
  unfold Array_includes. rewrite existsb_exists. split.
  - intros [y [Hin Heq]]. apply String.eqb_eq in Heq. subst y. exact Hin.
  - intros Hin. exists x. split; [exact Hin | apply String.eqb_refl].
Qed.

Lemma unselectedTags_In (st : State) (tag : string) :
  In tag (unselectedTags st) <-> In tag (availableTags st) /\ ~ In tag (selectedTags st).
Proof.
  unfold unselectedTags. rewrite filter_In, negb_true_iff.
  pose proof (Array_includes_In (selectedTags st) tag) as Hinc.
  destruct (Array_includes (selectedTags st) tag).
  - split; [intros [_ H]; discriminate | intros [_ H]; exfalso; apply H, Hinc; reflexivity].
  - split; [intros [H _]; split; [exact H|] | intros [H _]; split; [exact H | reflexivity]].
    intros Hin. apply Hinc in Hin. discriminate.
Qed.

(** The filter of the code keeps what the claim calls the unselected
    available tags. *)
Lemma unselectedTags_filter (st : State) :
  unselectedTags st = filter (fun tag => tag ∉ selectedTags st) (availableTags st).
Proof.
  unfold unselectedTags. induction (availableTags st) as [|tag l IH]; [reflexivity|].
  simpl. rewrite filter_cons.
  destruct (Array_includes (selectedTags st) tag) eqn:Hinc; simpl.
  - apply Array_includes_In in Hinc. apply list_elem_of_In in Hinc.
    case_decide; [contradiction | exact IH].
  - case_decide as Hn; [f_equal; exact IH|].
    exfalso. apply list_elem_of_In, Array_includes_In in Hn.
    rewrite Hn in Hinc. discriminate.
Qed.

Lemma simple_matching_unselected (st : State) (tag : string) :
  In tag (map item (simple_matching (Score := Score) st)) -> In tag (unselectedTags st).
Proof.
  unfold simple_matching. rewrite map_map. simpl. rewrite map_id.
  intros Hin. apply filter_In in Hin. tauto.
Qed.

Lemma fuzzy_search_unselected (st : State) (instance : Fuse.t) (tag : string) :
  Fuse_contract new_Fuse Fuse_search ->
  Fuse.collection instance = unselectedTags st ->
  In tag (map item (fst (fuzzy_search Fuse_search st instance))) ->
  In tag (unselectedTags st).
Proof.
  intros [_ Hsearch] Hcollection. unfold fuzzy_search.
  destruct (Fuse_search instance (tagSearchQuery st)) as [searchResults|m] eqn:Hs; cbn [fst].
  - rewrite map_map. simpl. intros Hin. apply in_map_iff in Hin.
    destruct Hin as [result [<- Hin]]. rewrite <- Hcollection.
    eapply Hsearch; eassumption.
  - apply simple_matching_unselected.
Qed.

(** With a blank search text Fuse.js is not used and [fuse] is left
    alone: the tags offered are the available tags that are not selected,
    each as often as it is available, whatever the counts and the
    comparator make of their order. *)
Lemma availableTagsForSelection_blank (st : State) :
  trim (tagSearchQuery st) = "" ->
  let offer := availableTagsForSelection localeCompare new_Fuse Fuse_search st in
  snd offer = fuse st
  /\ Permutation (map item (fst offer))
                 (filter (fun tag => tag ∉ selectedTags st) (availableTags st)).
Proof.
  intros Hb. cbv zeta. unfold availableTagsForSelection. rewrite Hb.
  change (negb (truthy "")) with true. cbv iota. cbn [fst snd].
  split; [reflexivity|].
  rewrite map_map. cbn [item]. rewrite map_id.
  rewrite <- unselectedTags_filter. symmetry. apply Array_sort_Permutation.
Qed.

(** A search that does not reuse the instance kept in [fuse] (the text is
    blank, or the guard has a new instance built) offers unselected
    available tags only. *)
Lemma availableTagsForSelection_without_reuse (st : State) (tag : string) :
  Fuse_contract new_Fuse Fuse_search ->
  negb (truthy (trim (tagSearchQuery st))) || must_initialize st = true ->
  In tag (map item (fst (availableTagsForSelection localeCompare new_Fuse Fuse_search st))) ->
  In tag (availableTags st) /\ ~ In tag (selectedTags st).
Proof.
  intros Hfuse Hfresh Hin. apply unselectedTags_In. revert Hin.
  unfold availableTagsForSelection.
  destruct (negb (truthy (trim (tagSearchQuery st)))) eqn:Hq.
  - cbn [fst]. rewrite map_map. cbn [item]. rewrite map_id. intros Hin.
    eapply Permutation_in; [symmetry; apply Array_sort_Permutation | exact Hin].
  - cbn in Hfresh. rewrite Hfresh.
    destruct (new_Fuse (unselectedTags st)) as [instance|m] eqn:Hnew.
    + apply fuzzy_search_unselected; [exact Hfuse|].
      destruct Hfuse as [Hbuilt _]. apply Hbuilt. exact Hnew.
    + cbn [fst]. apply simple_matching_unselected.
Qed.

End ComputedFacts.

Section ComputedExamples.
Import ModelQuery.

Lemma substring_Fuse_contract : Fuse_contract substring_Fuse substring_search.
Proof.
  split.
  - intros l instance H. injection H as <-. reflexivity.
  - intros instance pattern searchResults result H Hin. injection H as <-.
    apply in_map_iff in Hin. destruct Hin as [tag [<- Hin]].
    apply filter_In in Hin. simpl. tauto.
Qed.

Example availableTagsForSelection_by_count :
  map item (fst (availableTagsForSelection code_unit_compare substring_Fuse substring_search
                   tagged))
  = ["important"; "house"; "insurance"].
Proof. vm_compute. reflexivity. Qed.

Example availableTagsForSelection_search :
  fst (availableTagsForSelection code_unit_compare substring_Fuse substring_search
         (set_tagSearchQuery "IN" tagged))
  = [ {| item := "insurance"; score := Some 0%Z |} ].
Proof. vm_compute. reflexivity. Qed.

(** C8. The list offered for selection breaks the claim in two places.
    With a blank search text, a tag named as a member of
    [Object.prototype] and without a count of its own ([constructor],
    beside [invoice] counted 3) reads the inherited member for its count:
    every comparison with it answers [NaN], which [sort] takes for equal,
    and [constructor] is offered before [invoice], against the order by
    count, whatever [localeCompare] answers.  With a search text, the guard on the
    instance kept in [fuse] compares lengths only: after a search for
    "ho", the selection of [house] and the removal of [legal], as many tags
    are unselected as before, the instance built from the earlier ones is
    searched again, and the selected tag [house] is offered. *)
Theorem availableTagsForSelection_misorders_and_offers_a_selected_tag :
  (trim (tagSearchQuery constructor_tagged) = ""
   /\ forall localeCompare : string -> string -> Z,
        let offered :=
          map item (fst (availableTagsForSelection localeCompare substring_Fuse
                           substring_search constructor_tagged)) in
        offered = ["constructor"; "invoice"]
        /\ ~ StronglySorted (specified_order localeCompare (tagCounts constructor_tagged))
                            offered)
  /\ (let offered :=
        map item (fst (availableTagsForSelection code_unit_compare substring_Fuse
                         substring_search searched_again)) in
      selectedTags searched_again = ["house"]
      /\ offered = ["house"]).
Proof.
  split.
  - split; [reflexivity|]. intros localeCompare. cbv zeta.
    assert (Hoffered :
      map item (fst (availableTagsForSelection localeCompare substring_Fuse
                       substring_search constructor_tagged))
      = ["constructor"; "invoice"]).
    { vm_compute. reflexivity. }
    rewrite Hoffered. split; [reflexivity|].
    intros Hsorted. apply StronglySorted_inv in Hsorted. destruct Hsorted as [_ Hfirst].
    apply Forall_inv in Hfirst. destruct Hfirst as [Hlarger|[Hequal _]].
    + vm_compute in Hlarger. discriminate.
    + vm_compute in Hequal. discriminate.
  - cbv zeta. split; vm_compute; reflexivity.
Qed.

End ComputedExamples.

(** ** The README's WebSocket client *)

Section ClientFacts.
Import Client.

(** Messages that do not close the exchange are consumed one by one: the
    loop is still receiving after them, with their tokens accumulated. *)
Lemma receive_open (before : list ServerMessage) (locals : Locals) :
  Forall (fun message => closes message = false) before ->
  fst (receive before locals) = Receiving
  /\ full_response (snd (receive before locals)) = full_response locals +:+ tokens before.
Proof.
  intros Hopen. revert locals.
  induction Hopen as [|message before Hm _ IH]; intros locals; simpl.
  - split; [reflexivity | symmetry; apply append_empty_r].
  - destruct message as [c|c|c|c]; try discriminate.
    + apply IH.
    + destruct (IH {| full_response := full_response locals +:+ c;
                      stdout := stdout locals ++ [c] |}) as [H1 H2].
      split; [exact H1|]. rewrite H2. simpl. apply append_assoc.
Qed.

Lemma receive_app (before rest : list ServerMessage) (locals : Locals) :
  Forall (fun message => closes message = false) before ->
  receive (before ++ rest) locals = receive rest (snd (receive before locals)).
Proof.
  intros Hopen. revert locals.
  induction Hopen as [|message before Hm _ IH]; intros locals; simpl; [reflexivity|].
  destruct message as [c|c|c|c]; try discriminate; apply IH.
Qed.

Example chat_websocket_stream :
  let content := {| answer := "RAG is retrieval"; sources := [ {| id := "d1"; text := "snippet" |} ];
                    history := [] |} in
  snd (chat_websocket "my_docs" "Explain RAG" None None
         [ start "Generating response..."; token "RAG "; token "is retrieval";
           complete content; token "late" ])
  = (Returned (Some content),
     {| full_response := "RAG is retrieval";
        stdout := [ "RAG "; "is retrieval";
                    newline +:+ newline +:+ "Sources:" +:+ newline;
                    "1. snippet (ID: d1)" +:+ newline ] |}).
Proof. reflexivity. Qed.

(** C3. Whatever the server sends, the client consumes the messages in
    order up to the first one of type [complete] or [error]: on it the
    call returns (the message's [content] for [complete], [None] for
    [error]), with [full_response] holding the contents of the [token]
    messages before it, concatenated in their order of arrival; what comes
    after that message is not read. *)
Theorem chat_websocket_returns_on_first_closing_message
    (collection_name query : string) (history : option (list Message))
    (model : option string) (before after : list ServerMessage) (message : ServerMessage) :
  Forall (fun m => closes m = false) before ->
  closes message = true ->
  fst (snd (chat_websocket collection_name query history model
              (before ++ message :: after)))
  = Returned (returned_on message)
  /\ full_response (snd (snd (chat_websocket collection_name query history model
                                (before ++ message :: after))))
     = tokens before.
Proof.
  intros Hopen Hclose. unfold chat_websocket. cbn [snd].
  rewrite (receive_app before (message :: after) _ Hopen).
  destruct (receive_open before {| full_response := ""; stdout := [] |} Hopen) as [_ Hacc].
  simpl in Hacc.
  destruct message as [c|c|c|c]; try discriminate; simpl;
    (split; [reflexivity | exact Hacc]).
Qed.

Lemma chat_websocket_returns_on_first_closing_message_witness :
  fst (snd (chat_websocket "my_docs" "q" None None
              ([start "s"; token "a"; token "b"] ++ error "boom" :: [token "c"])))
  = Returned None
  /\ full_response (snd (snd (chat_websocket "my_docs" "q" None None
                                ([start "s"; token "a"; token "b"] ++ error "boom" :: [token "c"]))))
     = "ab".
Proof.
  apply (chat_websocket_returns_on_first_closing_message
           "my_docs" "q" None None [start "s"; token "a"; token "b"] [token "c"] (error "boom")).
  - repeat constructor.
  - reflexivity.
Defined.

(** Until such a message arrives the call has not returned: it waits in
    [recv], with the tokens received so far accumulated. *)
Lemma chat_websocket_receiving
    (collection_name query : string) (history : option (list Message))
    (model : option string) (incoming : list ServerMessage) :
  Forall (fun m => closes m = false) incoming ->
  fst (snd (chat_websocket collection_name query history model incoming)) = Receiving
  /\ full_response (snd (snd (chat_websocket collection_name query history model incoming)))
     = tokens incoming.
Proof.
  intros Hopen. unfold chat_websocket. cbn [snd].
  destruct (receive_open incoming {| full_response := ""; stdout := [] |} Hopen) as [H1 H2].
  split; [exact H1 | exact H2].
Qed.

End ClientFacts.

(** * Further properties *)

(** ** The PDF upload component: the other handlers *)

Section PdfUploadHandlers.
Import PdfUpload.

Ltac run_eff :=
  unfold Eff.run, Eff.fetch, Eff.try_catch, Eff.try_finally, Eff.await, Eff.call,
    Eff.modify, Eff.get, mbind, Eff.M_bind, Eff.bind, mret, Eff.M_ret, Eff.ret;
  cbn.

Lemma filter_index_none {A} (k target : nat) (l : list A) :
  (target < k)%nat ->
  map snd (List.filter (fun entry => negb (fst entry =? target)%nat)
                       (imap (fun i x => ((k + i)%nat, x)) l))
  = l.
Proof.
  revert k. induction l as [|x l IH]; intros k Hlt; [reflexivity|].
  rewrite imap_cons. cbn [List.filter fst].
  destruct (Nat.eqb_spec (k + 0) target) as [Heq|_]; [lia|].
  cbn [negb map snd]. f_equal.
  rewrite <- (IH (S k)) at 2 by lia.
  do 2 f_equal. apply imap_ext. intros i y _. cbn. f_equal. lia.
Qed.

Lemma filter_index_delete {A} (k index : nat) (l : list A) :
  map snd (List.filter (fun entry => negb (fst entry =? k + index)%nat)
                       (imap (fun i x => ((k + i)%nat, x)) l))
  = delete index l.
Proof.
  revert k index. induction l as [|x l IH]; intros k index; [reflexivity|].
  rewrite imap_cons. cbn [List.filter fst].
  destruct index as [|index].
  - rewrite Nat.add_0_r, Nat.eqb_refl.
    change (delete 0 (x :: l)) with l. cbn [negb].
    rewrite <- (filter_index_none (S k) k l) at 2 by lia.
    do 2 f_equal. apply imap_ext. intros i y _. cbn. f_equal. lia.
  - destruct (Nat.eqb_spec (k + 0) (k + S index)) as [Heq|_]; [lia|].
    change (delete (S index) (x :: l)) with (x :: delete index l).
    cbn [negb map snd]. f_equal.
    rewrite <- (IH (S k) index).
    replace (k + S index)%nat with (S k + index)%nat by lia.
    do 2 f_equal. apply imap_ext. intros i y _. cbn. f_equal. lia.
Qed.

(** X1. [removeFile(index)] takes out the file at that position and no
    other: the files before it stay, the files after it move up by one;
    an index past the end changes nothing; no other cell of the state is
    touched. *)
Theorem removeFile_deletes_at_index (index : nat) (st : State) :
  files (removeFile index st) = take index (files st) ++ drop (S index) (files st)
  /\ ((index < length (files st))%nat ->
      S (length (files (removeFile index st))) = length (files st))
  /\ ((length (files st) <= index)%nat -> removeFile index st = st)
  /\ uploadStatus (removeFile index st) = uploadStatus st
  /\ selectedCollection (removeFile index st) = selectedCollection st.
Proof.
  assert (Hfiles : files (removeFile index st) = delete index (files st)).
  { unfold removeFile. cbn. apply (filter_index_delete 0 index). }
  split; [rewrite Hfiles; apply delete_take_drop|].
  split.
  { intros Hlt. rewrite Hfiles, length_delete; [lia|].
    apply lookup_lt_is_Some_2. exact Hlt. }
  split; [|split; reflexivity].
  intros Hge. destruct st as [fs d u s c sel t]. unfold removeFile, setFiles. cbn in *.
  f_equal. rewrite (filter_index_delete 0 index), delete_take_drop.
  rewrite take_ge, drop_ge by lia. apply app_nil_r.
Qed.

Lemma handleFiles_files (newFiles : list File) (st : State) :
  files (handleFiles newFiles st) = files st
  \/ files (handleFiles newFiles st) = files st ++ List.filter isPdf newFiles.
Proof.
  unfold handleFiles. destruct (length (List.filter isPdf newFiles) =? 0)%nat.
  - left. reflexivity.
  - right. reflexivity.
Qed.

(** The guards of [uploadFiles] and what passes them. *)
Lemma uploadFiles_shape (network : nat -> nat * Fetched UploadReply) (st : State) :
  (snd (uploadFiles network st) = []
   /\ files (fst (uploadFiles network st)) = files st
   /\ isUploading (fst (uploadFiles network st)) = isUploading st)
  \/ (snd (uploadFiles network st) = map (fun file => upload_request file st) (files st)
      /\ (files (fst (uploadFiles network st)) = []
          \/ files (fst (uploadFiles network st)) = files st)
      /\ isUploading (fst (uploadFiles network st)) = false).
Proof.
  unfold uploadFiles.
  destruct (length (files st) =? 0)%nat; [left; repeat split|].
  destruct (negb (truthy (selectedCollection st))); [left; repeat split|].
  right. cbn [fst snd]. split; [reflexivity|].
  destruct (Promise_all _) as [results|m]; cbn.
  - destruct (forallb result_success results); cbn; split; auto.
  - split; auto.
Qed.

Lemma fetchCollections_frame (fetched : Fetched CollectionsData) (st : State) :
  files (fst (Eff.run (fetchCollections fetched) st)) = files st
  /\ isUploading (fst (Eff.run (fetchCollections fetched) st)) = isUploading st
  /\ uploadStatus (fst (Eff.run (fetchCollections fetched) st)) = uploadStatus st.
Proof.
  unfold fetchCollections. run_eff.
  destruct fetched as [[[[[[|first rest]|]]|m]|[e|m]]|m]; cbn; repeat split.
Qed.

Lemma createCollection_frame (prompted : option string) (now : string)
    (created : Fetched unit) (refetched : Fetched CollectionsData) (st : State) :
  files (fst (Eff.run (createCollection prompted now created refetched) st)) = files st
  /\ isUploading (fst (Eff.run (createCollection prompted now created refetched) st))
     = isUploading st.
Proof.
  unfold createCollection.
  destruct prompted as [collectionName|]; [|split; reflexivity].
  destruct (negb (truthy collectionName)); [split; reflexivity|].
  unfold fetchCollections. run_eff.
  destruct created as [[[[]|m]|[e|m]]|m]; cbn; try (split; reflexivity);
    destruct refetched as [[[[[[|first rest]|]]|m']|[e'|m']]|m']; cbn; split; reflexivity.
Qed.

Lemma handle_keeps_pdfs (event : Event) (st : State) :
  Forall qualifies (files st) -> Forall qualifies (files (handle event st)).
Proof.
  intros Hpdf. destruct event; cbn [handle].
  - exact Hpdf.
  - exact Hpdf.
  - unfold handleDragOver. destruct (negb (isDragging st)); exact Hpdf.
  - unfold handleDrop.
    destruct (handleFiles_files droppedFiles (setIsDragging false st)) as [->| ->];
      cbn; [exact Hpdf|].
    apply Forall_app. split; [exact Hpdf|].
    eapply Forall_impl; [apply filter_Forall|]. intros f. apply isPdf_qualifies.
  - unfold handleFileInputChange.
    destruct (handleFiles_files selectedFiles st) as [->| ->]; [exact Hpdf|].
    apply Forall_app. split; [exact Hpdf|].
    eapply Forall_impl; [apply filter_Forall|]. intros f. apply isPdf_qualifies.
  - unfold removeFile. cbn. rewrite (filter_index_delete 0 index), delete_take_drop.
    apply Forall_app. split; [apply Forall_take | apply Forall_drop]; exact Hpdf.
  - exact Hpdf.
  - exact Hpdf.
  - destruct (uploadFiles_shape network st) as [[_ [-> _]]|[_ [[-> | ->] _]]];
      [exact Hpdf | constructor | exact Hpdf].
  - destruct (fetchCollections_frame fetched st) as [-> _]. exact Hpdf.
  - destruct (createCollection_frame prompted now created refetched st) as [-> _].
    exact Hpdf.
Qed.

Lemma handle_keeps_idle (event : Event) (st : State) :
  isUploading st = false -> isUploading (handle event st) = false.
Proof.
  intros Hidle. destruct event; cbn [handle].
  - exact Hidle.
  - exact Hidle.
  - unfold handleDragOver. destruct (negb (isDragging st)); exact Hidle.
  - unfold handleDrop, handleFiles.
    destruct (length _ =? 0)%nat; exact Hidle.
  - unfold handleFileInputChange, handleFiles.
    destruct (length _ =? 0)%nat; exact Hidle.
  - exact Hidle.
  - exact Hidle.
  - exact Hidle.
  - destruct (uploadFiles_shape network st) as [[_ [_ ->]]|[_ [_ ->]]];
      [exact Hidle | reflexivity].
  - destruct (fetchCollections_frame fetched st) as [_ [-> _]]. exact Hidle.
  - destruct (createCollection_frame prompted now created refetched st) as [_ ->].
    exact Hidle.
Qed.

Lemma after_invariant (P : State -> Prop) :
  P initial -> (forall event st, P st -> P (handle event st)) ->
  forall events, P (after events).
Proof.
  intros Hinit Hstep events. unfold after.
  induction events as [|event events IH] using rev_ind; [exact Hinit|].
  rewrite fold_left_app. cbn. apply Hstep. exact IH.
Qed.

(** X2. Whatever the user drops, picks and removes, and whatever the
    network answers, every selected file is a PDF by its type or its name;
    so every upload request carries such a file, one of the selected. *)
Theorem only_pdfs_are_selected_and_uploaded
    (events : list Event) (network : nat -> nat * Fetched UploadReply) :
  Forall qualifies (files (after events))
  /\ (forall request,
        In request (snd (uploadFiles network (after events))) ->
        exists file,
          uploaded_file request = Some file
          /\ In file (files (after events))
          /\ qualifies file).
Proof.
  assert (Hpdf : Forall qualifies (files (after events))).
  { apply (after_invariant (fun st => Forall qualifies (files st)));
      [constructor | apply handle_keeps_pdfs]. }
  split; [exact Hpdf|].
  intros request Hin.
  destruct (uploadFiles_shape network (after events)) as [[Hnone _]|[Hsent _]].
  - rewrite Hnone in Hin. contradiction.
  - rewrite Hsent in Hin. apply in_map_iff in Hin. destruct Hin as [file [<- Hfile]].
    exists file. split; [reflexivity|]. split; [exact Hfile|].
    rewrite List.Forall_forall in Hpdf. apply Hpdf. exact Hfile.
Qed.

(** X3. Between two events the component is never left in the uploading
    state: [uploadFiles] resets [isUploading] on every path it can take
    once it has set it (all uploads done, some failed, a fetch rejected, a
    body that does not parse). *)
Theorem uploading_flag_is_reset (events : list Event) :
  isUploading (after events) = false.
Proof.
  apply (after_invariant (fun st => isUploading st = false));
    [reflexivity | apply handle_keeps_idle].
Qed.

Lemma fulfilled_values_lookup {A} (promises : list (nat * Completion A)) :
  Forall (fun p => exists v, snd p = Normal v) promises ->
  forall i p, promises !! i = Some p ->
    exists v, snd p = Normal v /\ fulfilled_values promises !! i = Some v.
Proof.
  induction 1 as [|[t c] rest [v Hv] _ IH]; intros i p Hp; [discriminate|].
  cbn in Hv. subst c. destruct i as [|i]; cbn in Hp |- *.
  - injection Hp as <-. exists v. split; reflexivity.
  - apply IH. exact Hp.
Qed.

Lemma upload_promises_parse (network : nat -> nat * Fetched UploadReply) (st : State) :
  Forall (fun p => exists v, snd p = Normal v)
         (imap (fun i file => (fst (network i), upload_one file (snd (network i))))
               (files st))
  <-> every_body_parses network st.
Proof.
  unfold every_body_parses. rewrite Forall_lookup. split.
  - intros H i Hi.
    destruct (lookup_lt_is_Some_2 (files st) i Hi) as [file Hfile].
    destruct (H i (fst (network i), upload_one file (snd (network i)))) as [v Hv].
    { rewrite list_lookup_imap, Hfile. reflexivity. }
    cbn in Hv. destruct (snd (network i)) as [[[reply|m]|[e|m]]|m]; try discriminate.
    + left. exists reply. reflexivity.
    + right. exists e. reflexivity.
  - intros H i p Hp. rewrite list_lookup_imap in Hp.
    destruct (files st !! i) as [file|] eqn:Hfile; [|discriminate].
    injection Hp as <-. cbn.
    destruct (H i) as [[reply ->]|[e ->]]; [eapply lookup_lt_Some; exact Hfile| |];
      cbn; eexists; reflexivity.
Qed.

(** X4. When files and a collection are selected and every upload gets
    a response whose body parses, the status lists one result per selected
    file, in the order of the files, each under the name of its file and
    marked as a success exactly when its response was ok; the overall
    success is the conjunction of these marks.  When some upload does not
    get that far, there are no details and the message reports an error
    of the uploading. *)
Theorem uploadFiles_details_per_file
    (network : nat -> nat * Fetched UploadReply) (st : State) :
  files st <> [] -> selectedCollection st <> "" ->
  (every_body_parses network st ->
   exists status results,
     uploadStatus (fst (uploadFiles network st)) = Some status
     /\ details status = Some results
     /\ success status = forallb result_success results
     /\ length results = length (files st)
     /\ forall i file, files st !! i = Some file ->
          exists result,
            results !! i = Some result
            /\ fileName result = name file
            /\ (result_success result = true
                <-> exists reply, snd (network i) = Normal (ok_response (Normal reply))))
  /\ (~ every_body_parses network st ->
      exists message,
        uploadStatus (fst (uploadFiles network st))
        = Some {| success := false;
                  message := "Error uploading files: " +:+ message;
                  details := None |}).
Proof.
  intros Hfiles Hcollection. unfold uploadFiles.
  destruct (Nat.eqb_spec (length (files st)) 0) as [Hlen|_].
  { destruct (files st); [contradiction Hfiles; reflexivity | discriminate]. }
  assert (Ht : truthy (selectedCollection st) = true).
  { unfold truthy. destruct (String.eqb_spec (selectedCollection st) ""); [contradiction|reflexivity]. }
  rewrite Ht. cbn [negb fst].
  set (promises := imap (fun i file => (fst (network i), upload_one file (snd (network i))))
                        (files st)).
  pose proof (upload_promises_parse network st) as Hparse. fold promises in Hparse.
  unfold Promise_all.
  destruct (first_rejection promises) as [[t m]|] eqn:Hrej.
  - split.
    + intros Hall. apply Hparse, first_rejection_None in Hall.
      rewrite Hall in Hrej. discriminate.
    + intros _. exists m. reflexivity.
  - apply first_rejection_None in Hrej. split; [|intros Hn; exfalso; apply Hn, Hparse, Hrej].
    intros _.
    assert (Hlookup : forall i file, files st !! i = Some file ->
              exists result,
                fulfilled_values promises !! i = Some result
                /\ fileName result = name file
                /\ (result_success result = true
                    <-> exists reply, snd (network i) = Normal (ok_response (Normal reply)))).
    { intros i file Hfile.
      destruct (fulfilled_values_lookup promises Hrej i
                  (fst (network i), upload_one file (snd (network i)))) as [v [Hv Hi]].
      { unfold promises. rewrite list_lookup_imap, Hfile. reflexivity. }
      exists v. split; [exact Hi|]. cbn in Hv.
      destruct (snd (network i)) as [[[reply|m]|[e|m]]|m]; try discriminate;
        injection Hv as <-; cbn; (split; [reflexivity|]).
      - split; [intros _; exists reply; reflexivity | reflexivity].
      - split; [discriminate | intros [reply Hr]; discriminate]. }
    assert (Hlen : length (fulfilled_values promises) = length (files st)).
    { rewrite fulfilled_values_length by exact Hrej. unfold promises. apply length_imap. }
    destruct (forallb result_success (fulfilled_values promises)) eqn:Hs; cbn;
      eexists; eexists; (split; [reflexivity|]); cbn;
      (split; [reflexivity|]); (split; [symmetry; exact Hs|]);
      (split; [exact Hlen | exact Hlookup]).
Qed.

Lemma uploadFiles_details_per_file_witness :
  exists status results,
    uploadStatus (fst (uploadFiles every_upload_accepted one_pdf_selected)) = Some status
    /\ details status = Some results
    /\ success status = forallb result_success results
    /\ length results = length (files one_pdf_selected)
    /\ forall i file, files one_pdf_selected !! i = Some file ->
         exists result,
           results !! i = Some result
           /\ fileName result = name file
           /\ (result_success result = true
               <-> exists reply,
                     snd (every_upload_accepted i) = Normal (ok_response (Normal reply))).
Proof.
  destruct (uploadFiles_details_per_file every_upload_accepted one_pdf_selected)
    as [Hdetails _].
  - discriminate.
  - discriminate.
  - apply Hdetails. intros i _. left. eexists. reflexivity.
Defined.

(** X5. [fetchCollections] issues one GET.  A reply with collections
    makes them the list and selects the first one, whatever was selected;
    a reply without any empties the list and keeps the selection as it
    was; a failure of any kind (fetch rejected, status not ok, body not
    JSON) leaves the whole state as it was. *)
Theorem fetchCollections_selects_the_first
    (fetched : Fetched CollectionsData) (st : State) :
  let st' := fst (Eff.run (fetchCollections fetched) st) in
  snd (Eff.run (fetchCollections fetched) st) = [Fetch "GET" "/api/v1/collections/" []]
  /\ (forall first rest,
        fetched = Normal (ok_response (Normal {| data_collections := Some (first :: rest) |})) ->
        collections st' = first :: rest /\ selectedCollection st' = first)
  /\ (forall data,
        fetched = Normal (ok_response (Normal data)) ->
        data_collections data = None \/ data_collections data = Some [] ->
        collections st' = [] /\ selectedCollection st' = selectedCollection st)
  /\ ((forall data, fetched <> Normal (ok_response (Normal data))) -> st' = st).
Proof.
  cbv zeta. unfold fetchCollections. run_eff.
  destruct fetched as [[[[[[|first rest]|]]|m]|[e|m]]|m]; cbn;
    (split; [reflexivity|]);
    (split; [intros f r H; try discriminate; injection H as <- <-; split; reflexivity|]);
    (split; [intros d H Hd; try discriminate; injection H as <-;
             destruct Hd as [Hd|Hd]; try discriminate; split; reflexivity|]);
    intros Hfail; try reflexivity; exfalso; eapply Hfail; reflexivity.
Qed.

(** X6. [createCollection] does nothing when the prompt is cancelled or
    left empty; a blank name is not refused.  On an ok response the new
    name is the selected collection, whatever the reload of the list gives
    (the reload selects the first collection, the handler then selects the
    new name), after one POST and one GET; every upload started next is
    sent to that collection.  On another status the state is as before and
    the failure is shown in an alert. *)
Theorem createCollection_selects_the_new_collection
    (prompted : option string) (now : string)
    (created : Fetched unit) (refetched : Fetched CollectionsData) (st : State) :
  let st' := fst (Eff.run (createCollection prompted now created refetched) st) in
  let calls := snd (Eff.run (createCollection prompted now created refetched) st) in
  (prompted = None \/ prompted = Some "" -> st' = st /\ calls = [])
  /\ (forall collectionName json,
        prompted = Some collectionName -> collectionName <> "" ->
        created = Normal (ok_response json) ->
        selectedCollection st' = collectionName
        /\ calls = [ Fetch "POST" "/api/v1/collections/"
                       [("name", collectionName);
                        ("description", "Collection created on " +:+ now)];
                     Fetch "GET" "/api/v1/collections/" [] ]
        /\ forall network request,
             In request (snd (uploadFiles network st')) ->
             In ("collection_name", form_text collectionName) (body request))
  /\ (forall collectionName errorBody,
        prompted = Some collectionName -> collectionName <> "" ->
        created = Normal (error_response (Normal errorBody)) ->
        st' = st
        /\ calls = [ Fetch "POST" "/api/v1/collections/"
                       [("name", collectionName);
                        ("description", "Collection created on " +:+ now)];
                     Alert ("Failed to create collection: "
                            +:+ or_else (detail errorBody) "Unknown error") ]).
Proof.
  cbv zeta. split; [|split].
  - intros [->| ->]; split; reflexivity.
  - intros collectionName json -> Hname ->.
    assert (Ht : truthy collectionName = true).
    { unfold truthy. destruct (String.eqb_spec collectionName ""); [contradiction|reflexivity]. }
    set (st' := fst (Eff.run (createCollection (Some collectionName) now
                                (Normal (ok_response json)) refetched) st)).
    assert (Hsel : selectedCollection st' = collectionName
                   /\ snd (Eff.run (createCollection (Some collectionName) now
                                      (Normal (ok_response json)) refetched) st)
                      = [ Fetch "POST" "/api/v1/collections/"
                            [("name", collectionName);
                             ("description", "Collection created on " +:+ now)];
                          Fetch "GET" "/api/v1/collections/" [] ]).
    { unfold st', createCollection, fetchCollections. rewrite Ht. run_eff.
      destruct refetched as [[[[[[|first rest]|]]|m']|[e'|m']]|m']; cbn; split; reflexivity. }
    destruct Hsel as [Hsel Hcalls]. split; [exact Hsel|]. split; [exact Hcalls|].
    intros network request Hin.
    destruct (uploadFiles_shape network st') as [[Hnone _]|[Hsent _]].
    + rewrite Hnone in Hin. contradiction.
    + rewrite Hsent in Hin. apply in_map_iff in Hin. destruct Hin as [file [<- _]].
      cbn. rewrite Hsel. right. left. reflexivity.
  - intros collectionName errorBody -> Hname ->.
    assert (Ht : truthy collectionName = true).
    { unfold truthy. destruct (String.eqb_spec collectionName ""); [contradiction|reflexivity]. }
    unfold createCollection. rewrite Ht. run_eff. split; reflexivity.
Qed.

End PdfUploadHandlers.

(** ** The chat component: the other handlers *)

Section ModelQueryHandlers.
Import ModelQuery.

Ltac run_mq :=
  unfold run, fetchTags, fetchTags_start, fetchConversations_start,
    updateConversationTagPreferences_start, fetch, try_catch, try_finally,
    await, call, modify, get, mbind, M_bind, bind, mret, M_ret, ret;
  cbn -[canSubmit trim list_find].

Lemma Array_indexOf_first (l1 l2 : list string) (x : string) :
  ~ In x l1 -> Array_indexOf (l1 ++ x :: l2) x = Some (length l1).
Proof.
  intros Hnot. unfold Array_indexOf.
  assert (Hfind : list_find (fun y => y = x) (l1 ++ x :: l2) = Some (length l1, x)).
  { apply list_find_Some. split; [|split; [reflexivity|]].
    - rewrite lookup_app_r, Nat.sub_diag by lia. reflexivity.
    - intros j y Hj Hlt ->. apply Hnot, list_elem_of_In.
      rewrite lookup_app_l in Hj by exact Hlt.
      eapply list_elem_of_lookup_2. exact Hj. }
  rewrite Hfind. reflexivity.
Qed.

Lemma Array_indexOf_absent (l : list string) (x : string) :
  ~ In x l -> Array_indexOf l x = None.
Proof.
  intros Hnot. unfold Array_indexOf.
  assert (Hfind : list_find (fun y => y = x) l = None).
  { apply list_find_None. apply List.Forall_forall. intros y Hy ->. contradiction. }
  rewrite Hfind. reflexivity.
Qed.

Lemma In_first_occurrence (l : list string) (x : string) :
  In x l -> exists l1 l2, l = l1 ++ x :: l2 /\ ~ In x l1.
Proof.
  induction l as [|y l IH]; [contradiction|].
  intros Hin. destruct (decide (y = x)) as [->|Hne].
  - exists [], l. split; [reflexivity | intros []].
  - destruct Hin as [Heq|Hin]; [contradiction|].
    destruct (IH Hin) as [l1 [l2 [-> Hnot]]].
    exists (y :: l1), l2. split; [reflexivity|].
    intros [Heq|Hin1]; [contradiction | exact (Hnot Hin1)].
Qed.

(** X7. [removeTag] takes out one occurrence of the tag, the first, and
    nothing else; [removeTag] of a tag that is not selected and [addTag] of
    a tag that is selected leave the whole state as it is (the search text
    is cleared only when a tag is really added). *)
Theorem removeTag_removes_the_first_occurrence (tag : string) (st : State) :
  (forall l1 l2, selectedTags st = l1 ++ tag :: l2 -> ~ In tag l1 ->
     selectedTags (removeTag tag st) = l1 ++ l2)
  /\ (~ In tag (selectedTags st) -> removeTag tag st = st)
  /\ (In tag (selectedTags st) -> addTag tag st = st)
  /\ (~ In tag (selectedTags st) ->
      selectedTags (addTag tag st) = selectedTags st ++ [tag]
      /\ tagSearchQuery (addTag tag st) = "").
Proof.
  split; [|split; [|split]].
  - intros l1 l2 Hsel Hnot. unfold removeTag.
    rewrite Hsel, (Array_indexOf_first l1 l2 tag Hnot). cbn -[delete].
    apply delete_middle.
  - intros Hnot. unfold removeTag. rewrite (Array_indexOf_absent _ _ Hnot). reflexivity.
  - intros Hin. unfold addTag. apply Array_includes_In in Hin. rewrite Hin. reflexivity.
  - intros Hnot. unfold addTag.
    destruct (Array_includes (selectedTags st) tag) eqn:Hinc.
    + apply Array_includes_In in Hinc. contradiction.
    + split; reflexivity.
Qed.

(** X8. On a selection without duplicates, [addTag] and [removeTag] keep
    it without duplicates; after [addTag] the tag is selected, after
    [removeTag] it is not; and removing a tag right after adding it gives
    back the selection as it was. *)
Theorem tag_selection_stays_duplicate_free (tag : string) (st : State) :
  NoDup (selectedTags st) ->
  NoDup (selectedTags (addTag tag st))
  /\ NoDup (selectedTags (removeTag tag st))
  /\ In tag (selectedTags (addTag tag st))
  /\ ~ In tag (selectedTags (removeTag tag st))
  /\ (~ In tag (selectedTags st) ->
      selectedTags (removeTag tag (addTag tag st)) = selectedTags st).
Proof.
  intros Hnodup.
  assert (Hremove : forall l, NoDup l ->
            forall st0, selectedTags st0 = l ->
            NoDup (selectedTags (removeTag tag st0))
            /\ ~ In tag (selectedTags (removeTag tag st0))).
  { intros l Hl st0 Hsel. destruct (decide (tag ∈ l)) as [Hin|Hnot];
      [apply list_elem_of_In in Hin | rewrite list_elem_of_In in Hnot].
    - destruct (In_first_occurrence l tag Hin) as [l1 [l2 [-> Hl1]]].
      unfold removeTag. rewrite Hsel, (Array_indexOf_first l1 l2 tag Hl1).
      cbn -[delete]. rewrite delete_middle.
      apply NoDup_app in Hl. destruct Hl as [H1 [H12 H2]].
      apply NoDup_cons in H2. destruct H2 as [Htag H2].
      split.
      + apply NoDup_app. split; [exact H1|]. split; [|exact H2].
        intros x Hx1 Hx2. apply (H12 x Hx1). right. exact Hx2.
      + intros Hin'. apply in_app_or in Hin'. destruct Hin' as [Hin'|Hin'].
        * exact (Hl1 Hin').
        * apply Htag, list_elem_of_In. exact Hin'.
    - unfold removeTag. rewrite Hsel, (Array_indexOf_absent _ _ Hnot), Hsel.
      split; assumption. }
  split; [|split; [|split; [|split]]].
  - unfold addTag. destruct (Array_includes (selectedTags st) tag) eqn:Hinc; [exact Hnodup|].
    cbn. unfold push. apply NoDup_app. split; [exact Hnodup|]. split.
    + intros x Hx Hx'. apply list_elem_of_singleton in Hx'. subst x.
      apply list_elem_of_In, Array_includes_In in Hx. rewrite Hx in Hinc. discriminate.
    + apply NoDup_singleton.
  - apply (Hremove (selectedTags st) Hnodup st eq_refl).
  - unfold addTag. destruct (Array_includes (selectedTags st) tag) eqn:Hinc.
    + apply Array_includes_In. exact Hinc.
    + cbn. unfold push. apply in_or_app. right. left. reflexivity.
  - apply (Hremove (selectedTags st) Hnodup st eq_refl).
  - intros Hnot. unfold addTag.
    destruct (Array_includes (selectedTags st) tag) eqn:Hinc.
    + apply Array_includes_In in Hinc. contradiction.
    + unfold removeTag. cbn -[Array_indexOf delete]. unfold push.
      rewrite (Array_indexOf_first (selectedTags st) [] tag Hnot).
      cbn -[delete]. rewrite delete_middle. apply app_nil_r.
Qed.

Lemma tag_selection_stays_duplicate_free_witness :
  NoDup (selectedTags (addTag "house" tagged))
  /\ NoDup (selectedTags (removeTag "house" tagged))
  /\ In "house" (selectedTags (addTag "house" tagged))
  /\ ~ In "house" (selectedTags (removeTag "house" tagged))
  /\ (~ In "house" (selectedTags tagged) ->
      selectedTags (removeTag "house" (addTag "house" tagged)) = selectedTags tagged).
Proof.
  apply (tag_selection_stays_duplicate_free "house" tagged).
  cbn. apply NoDup_singleton.
Defined.

(** X9. Right after [addTag] of a tag that was not selected, the list
    offered for selection is computed without Fuse.js (the search text has
    just been cleared) and [fuse] is left alone; it holds the available
    tags that were unselected before, without the tag added. *)
Theorem addTag_takes_the_tag_off_the_offer {Score : Type}
    (localeCompare : string -> string -> Z)
    (new_Fuse : list string -> Completion Fuse.t)
    (Fuse_search : Fuse.t -> string -> Completion (list (string * Score)))
    (tag : string) (st : State) :
  ~ In tag (selectedTags st) ->
  let offer := availableTagsForSelection localeCompare new_Fuse Fuse_search (addTag tag st) in
  snd offer = fuse st
  /\ ~ In tag (map item (fst offer))
  /\ (forall other,
        In other (map item (fst offer))
        <-> In other (availableTags st) /\ ~ In other (selectedTags st) /\ other <> tag).
Proof.
  intros Hnot. cbv zeta.
  assert (Hadd : addTag tag st
                 = set_tagSearchQuery "" (set_selectedTags (selectedTags st ++ [tag]) st)).
  { unfold addTag. destruct (Array_includes (selectedTags st) tag) eqn:Hinc; [|reflexivity].
    apply Array_includes_In in Hinc. contradiction. }
  rewrite Hadd.
  set (st' := set_tagSearchQuery "" (set_selectedTags (selectedTags st ++ [tag]) st)).
  assert (Hoffer : availableTagsForSelection localeCompare new_Fuse Fuse_search st'
                   = (map (fun t => {| item := t; score := None |})
                          (Array_sort (compareTags localeCompare (tagCounts st'))
                                      (unselectedTags st')),
                      fuse st)).
  { reflexivity. }
  rewrite Hoffer. cbn [fst snd]. rewrite map_map. cbn [item]. rewrite map_id.
  assert (Hin : forall other,
            In other (Array_sort (compareTags localeCompare (tagCounts st'))
                                 (unselectedTags st'))
            <-> In other (availableTags st) /\ ~ In other (selectedTags st) /\ other <> tag).
  { intros other. split.
    - intros H. eapply Permutation_in in H; [|symmetry; apply Array_sort_Permutation].
      apply unselectedTags_In in H. cbn in H. destruct H as [Hav Hsel].
      split; [exact Hav|]. split.
      + intros Hs. apply Hsel, in_or_app. left. exact Hs.
      + intros ->. apply Hsel, in_or_app. right. left. reflexivity.
    - intros [Hav [Hsel Hne]].
      eapply Permutation_in; [apply Array_sort_Permutation|].
      apply unselectedTags_In. cbn. split; [exact Hav|].
      intros Hs. apply in_app_or in Hs. destruct Hs as [Hs|[Hs|[]]];
        [exact (Hsel Hs) | exact (Hne (eq_sym Hs))]. }
  split; [reflexivity|]. split; [|exact Hin].
  intros H. apply Hin in H. destruct H as [_ [_ Hne]]. exact (Hne eq_refl).
Qed.

Lemma addTag_takes_the_tag_off_the_offer_witness :
  let offer := availableTagsForSelection code_unit_compare substring_Fuse substring_search
                 (addTag "house" tagged) in
  snd offer = fuse tagged
  /\ ~ In "house" (map item (fst offer))
  /\ (forall other,
        In other (map item (fst offer))
        <-> In other (availableTags tagged) /\ ~ In other (selectedTags tagged)
            /\ other <> "house").
Proof.
  apply (addTag_takes_the_tag_off_the_offer
           code_unit_compare substring_Fuse substring_search "house" tagged).
  cbn. intros [H|[]]. discriminate.
Defined.

(** X10. A submission that the server answers with an ok reply leaves
    the server's history as the conversation (the message pushed before
    the request is replaced with it), the server's sources, an empty query
    text and no error; the conversation id of the reply, when it has one,
    becomes the current one, and the tag preferences selected at that
    moment are sent to that conversation; then the sidebar, when present,
    and the tags are refreshed. *)
Theorem submitQuery_takes_the_reply (sidebar : bool) (data : ChatData.t) (st : State) :
  canSubmit st = true ->
  let st' := fst (run (submitQuery sidebar (Normal (ok_response (Normal data)))) st) in
  conversationHistory st' = ChatData.history data
  /\ lastSources st' = ChatData.sources data
  /\ results st' = Some data
  /\ queryText st' = ""
  /\ error st' = ""
  /\ currentConversationId st'
     = (if truthy_opt (ChatData.conversation_id data)
        then ChatData.conversation_id data else currentConversationId st)
  /\ selectedTags st' = selectedTags st
  /\ snd (run (submitQuery sidebar (Normal (ok_response (Normal data)))) st)
     = Fetch (chat_request_of st) :: calls_after_reply sidebar data st.
Proof.
  intros Hsubmit. cbv zeta. unfold submitQuery, chat_request_of, calls_after_reply.
  run_mq. rewrite Hsubmit. cbn -[canSubmit trim].
  unfold slice_0_m1. fold (pop (push (conversationHistory st)
                                     {| role := "user"; content := queryText st |})).
  rewrite pop_push.
  destruct (ChatData.conversation_id data) as [cid|]; cbn;
    [destruct (truthy cid); cbn|]; destruct sidebar; cbn; repeat split.
Qed.

Lemma submitQuery_takes_the_reply_witness :
  let data := {| ChatData.history := two_messages; ChatData.sources := [];
                 ChatData.conversation_id := Some "c1" |} in
  let st' := fst (run (submitQuery true (Normal (ok_response (Normal data)))) asking) in
  conversationHistory st' = two_messages
  /\ lastSources st' = []
  /\ results st' = Some data
  /\ queryText st' = ""
  /\ error st' = ""
  /\ currentConversationId st' = Some "c1"
  /\ selectedTags st' = selectedTags asking
  /\ snd (run (submitQuery true (Normal (ok_response (Normal data)))) asking)
     = Fetch (chat_request_of asking) :: calls_after_reply true data asking.
Proof.
  apply (submitQuery_takes_the_reply true
           {| ChatData.history := two_messages; ChatData.sources := [];
              ChatData.conversation_id := Some "c1" |} asking).
  reflexivity.
Defined.

(** X11. Whatever the POST meets, a submission with a query that is not
    blank ends with [isLoading] cleared, and its first call is the POST
    with the query as typed and the history as it was before the
    submission: the user message is sent as [query], not in [history]. *)
Theorem submitQuery_sends_the_prior_history
    (sidebar : bool) (chat : Fetched ChatData.t) (st : State) :
  canSubmit st = true ->
  isLoading (fst (run (submitQuery sidebar chat) st)) = false
  /\ exists rest,
       snd (run (submitQuery sidebar chat) st) = Fetch (chat_request_of st) :: rest.
Proof.
  intros Hsubmit. unfold submitQuery, chat_request_of. run_mq.
  rewrite Hsubmit. cbn -[canSubmit trim].
  unfold slice_0_m1. fold (pop (push (conversationHistory st)
                                     {| role := "user"; content := queryText st |})).
  rewrite pop_push.
  destruct chat as [[[data|m]|[errorData|m]]|m]; cbn;
    try (split; [reflexivity | eexists; reflexivity]).
  destruct (ChatData.conversation_id data) as [cid|]; cbn;
    [destruct (truthy cid); cbn|]; destruct sidebar; cbn;
    (split; [reflexivity | eexists; reflexivity]).
Qed.

Lemma submitQuery_sends_the_prior_history_witness :
  isLoading (fst (run (submitQuery false (Throw "Failed to fetch")) asking)) = false
  /\ exists rest,
       snd (run (submitQuery false (Throw "Failed to fetch")) asking)
       = Fetch (chat_request_of asking) :: rest.
Proof.
  apply (submitQuery_sends_the_prior_history false (Throw "Failed to fetch") asking).
  reflexivity.
Defined.

(** X12. When the conversation cannot be loaded (the fetch rejects, the
    status is not ok, or the body does not parse), [selectConversation]
    leaves the current conversation, the history, the tag preferences and
    the model as they were, makes no other call than its GET (the tags are
    not refreshed), and reports the failure in [error]. *)
Theorem selectConversation_failure_keeps_the_conversation
    (conversationId : string) (fetched : Fetched Conversation.t)
    (tagsFetched : Fetched TagsData.t) (st : State) :
  (forall conversation, fetched <> Normal (ok_response (Normal conversation))) ->
  let st' := fst (run (selectConversation conversationId fetched tagsFetched) st) in
  currentConversationId st' = currentConversationId st
  /\ conversationHistory st' = conversationHistory st
  /\ selectedTags st' = selectedTags st
  /\ includeUntagged st' = includeUntagged st
  /\ selectedModel st' = selectedModel st
  /\ availableTags st' = availableTags st
  /\ snd (run (selectConversation conversationId fetched tagsFetched) st)
     = [Fetch {| method := "GET";
                 url := "/api/v1/conversations/" +:+ conversationId;
                 body := no_body |}]
  /\ exists reason,
       error st' = "Failed to load conversation: " +:+ reason
       \/ error st' = "Error loading conversation: " +:+ reason.
Proof.
  intros Hfail. cbv zeta. unfold selectConversation. run_mq.
  destruct fetched as [[[conversation|m]|[errorData|m]]|m]; cbn;
    try (exfalso; exact (Hfail conversation eq_refl));
    repeat (split; [reflexivity|]); eexists;
    first [left; reflexivity | right; reflexivity].
Qed.

Lemma selectConversation_failure_keeps_the_conversation_witness :
  let st' := fst (run (selectConversation "c1"
                         (Normal (error_response (Normal {| detail := Some "Not found" |})))
                         (Throw "unused")) asking) in
  currentConversationId st' = currentConversationId asking
  /\ conversationHistory st' = conversationHistory asking
  /\ selectedTags st' = selectedTags asking
  /\ includeUntagged st' = includeUntagged asking
  /\ selectedModel st' = selectedModel asking
  /\ availableTags st' = availableTags asking
  /\ snd (run (selectConversation "c1"
                 (Normal (error_response (Normal {| detail := Some "Not found" |})))
                 (Throw "unused")) asking)
     = [Fetch {| method := "GET"; url := "/api/v1/conversations/" +:+ "c1";
                 body := no_body |}]
  /\ exists reason,
       error st' = "Failed to load conversation: " +:+ reason
       \/ error st' = "Error loading conversation: " +:+ reason.
Proof.
  apply (selectConversation_failure_keeps_the_conversation "c1"
           (Normal (error_response (Normal {| detail := Some "Not found" |})))
           (Throw "unused") asking).
  intros conversation H. discriminate.
Defined.

(** X13. [startNewConversation] clears the current conversation and the
    history and nothing else of the conversation: started after a
    conversation has been loaded, it keeps that conversation's tags,
    [include_untagged] and model selected, whatever the two refreshes of
    the tags meet. *)
Theorem startNewConversation_keeps_the_preferences
    (conversationId : string) (conversation : Conversation.t)
    (tagsFetched tagsFetchedAgain : Fetched TagsData.t) (st : State) :
  let loaded := fst (run (selectConversation conversationId
                            (Normal (ok_response (Normal conversation))) tagsFetched) st) in
  let st' := fst (run (startNewConversation tagsFetchedAgain) loaded) in
  currentConversationId st' = None
  /\ conversationHistory st' = []
  /\ selectedTags st' = default [] (Conversation.tags conversation)
  /\ includeUntagged st' = default true (Conversation.include_untagged conversation)
  /\ selectedModel st' = selectedModel loaded
  /\ conversations st' = conversations st
  /\ snd (run (startNewConversation tagsFetchedAgain) loaded)
     = [Fetch {| method := "GET"; url := "/api/v1/tags/"; body := no_body |}].
Proof.
  cbv zeta. unfold startNewConversation, selectConversation. run_mq.
  destruct tagsFetched as [[[data|m]|[errorData|m]]|m]; cbn;
    destruct (Conversation.tags conversation) as [tags|]; cbn;
    destruct (Conversation.include_untagged conversation) as [include_untagged|]; cbn;
    destruct (Conversation.model conversation) as [model|]; cbn;
    try (destruct (truthy model); cbn);
    destruct tagsFetchedAgain as [[[data'|m']|[errorData'|m']]|m']; cbn;
    repeat split; reflexivity.
Qed.

(** X14. [fetchConversations] ends with [isLoadingConversations] cleared
    on every path.  An ok reply sets the list to the reply's conversations
    (the empty list when the reply has none) and leaves no error; any
    failure keeps the list and sets an error; the current conversation is
    never touched. *)
Theorem fetchConversations_replaces_or_keeps_the_list
    (fetched : Fetched ConversationsData.t) (st : State) :
  let st' := fst (run (fetchConversations fetched) st) in
  isLoadingConversations st' = false
  /\ currentConversationId st' = currentConversationId st
  /\ (forall data, fetched = Normal (ok_response (Normal data)) ->
        conversations st' = default [] (ConversationsData.conversations data)
        /\ error st' = "")
  /\ ((forall data, fetched <> Normal (ok_response (Normal data))) ->
        conversations st' = conversations st /\ error st' <> "").
Proof.
  cbv zeta. unfold fetchConversations. run_mq.
  destruct fetched as [[[data|m]|[errorData|m]]|m]; cbn;
    (split; [reflexivity|]); (split; [reflexivity|]);
    (split; [intros d Hd; try discriminate; injection Hd as <-; split; reflexivity|]);
    intros Hfail; try (exfalso; exact (Hfail data eq_refl));
    (split; [reflexivity | discriminate]).
Qed.

Lemma filter_idempotent {A} (f : A -> bool) (l : list A) :
  List.filter f (List.filter f l) = List.filter f l.
Proof.
  induction l as [|x l IH]; [reflexivity|].
  cbn. destruct (f x) eqn:Hf; cbn; [rewrite Hf, IH|]; auto.
Qed.

(** X15. Deleting the same conversation again changes the list no
    further; and once a conversation is deleted, an ok reply to a rename of
    it finds no entry to replace and leaves the list as the deletion left
    it. *)
Theorem deleteConversation_is_final
    (conversation : Conversation.t) (json json' : Completion unit)
    (newTitle : string) (updatedConversation : Conversation.t) (st : State) :
  let deleted := fst (run (deleteConversation (Conversation.id conversation)
                             (Normal (ok_response json))) st) in
  conversations (fst (run (deleteConversation (Conversation.id conversation)
                             (Normal (ok_response json'))) deleted))
  = conversations deleted
  /\ conversations (fst (run (renameConversation conversation (Some newTitle)
                                (Normal (ok_response (Normal updatedConversation))))
                             deleted))
     = conversations deleted
  /\ currentConversationId deleted <> Some (Conversation.id conversation).
Proof.
  cbv zeta.
  set (keep := fun c => negb (String.eqb (Conversation.id c) (Conversation.id conversation))).
  assert (Hdel : forall j st0,
            conversations (fst (run (deleteConversation (Conversation.id conversation)
                                       (Normal (ok_response j))) st0))
            = List.filter keep (conversations st0)).
  { intros j st0. unfold deleteConversation. run_mq. case_bool_decide; reflexivity. }
  split; [|split].
  - rewrite !Hdel. apply filter_idempotent.
  - unfold renameConversation.
    destruct (negb (truthy newTitle) || String.eqb (trim newTitle) ""); [reflexivity|].
    run_mq.
    assert (Hnone : list_find (fun c => Conversation.id c = Conversation.id conversation)
                      (conversations (fst (run (deleteConversation (Conversation.id conversation)
                                                  (Normal (ok_response json))) st)))
                    = None).
    { apply list_find_None. rewrite Hdel.
      eapply Forall_impl; [apply filter_Forall|].
      intros c Hc. unfold keep in Hc. apply negb_true_iff in Hc.
      apply String.eqb_neq. exact Hc. }
    unfold run in Hnone. unfold deleteConversation in Hnone |- *.
    revert Hnone. run_mq. intros Hnone.
    case_bool_decide; cbn -[list_find] in *; rewrite Hnone; reflexivity.
  - unfold deleteConversation. run_mq. case_bool_decide as Hcur; cbn; [discriminate | exact Hcur].
Qed.

(** X16. With the shift key down [handleEnterKey] does nothing; without
    it, it is [submitQuery] on every state: its own test of the query text
    lets through exactly what [canSubmit] lets through. *)
Theorem handleEnterKey_submits_unless_shift
    (sidebar : bool) (chat : Fetched ChatData.t) (st : State) :
  run (handleEnterKey true sidebar chat) st = (st, [])
  /\ run (handleEnterKey false sidebar chat) st = run (submitQuery sidebar chat) st.
Proof.
  split; [reflexivity|].
  unfold handleEnterKey, run, mbind, M_bind, bind, get. cbn -[submitQuery trim].
  destruct (truthy (trim (queryText st))) eqn:Ht; [reflexivity|].
  assert (Hblank : canSubmit st = false).
  { unfold canSubmit. unfold truthy in Ht. apply negb_false_iff, String.eqb_eq in Ht.
    rewrite Ht. reflexivity. }
  pose proof (submitQuery_blank sidebar chat st Hblank) as Hrun.
  unfold run in Hrun. destruct (submitQuery sidebar chat st []) as [[c st'] log].
  cbn. symmetry. exact Hrun.
Qed.

(** What [onMounted] leaves in the tag preferences and which calls it
    makes, from any state. *)
Lemma onMounted_preferences
    (JSON_parse : string -> Completion (list string)) (localStorage : gmap string string)
    (tagsFetched : Fetched TagsData.t) (st : State) :
  let st' := fst (run (onMounted JSON_parse localStorage tagsFetched) st) in
  includeUntagged st'
  = match localStorage !! STORAGE_KEY_INCLUDE_UNTAGGED with
    | Some saved => String.eqb saved "true"
    | None => includeUntagged st
    end
  /\ selectedTags st'
     = match localStorage !! STORAGE_KEY_TAGS with
       | Some saved =>
           if truthy saved then
             match JSON_parse saved with
             | Normal parsed => parsed
             | Throw _ => selectedTags st
             end
           else selectedTags st
       | None => selectedTags st
       end
  /\ snd (run (onMounted JSON_parse localStorage tagsFetched) st)
     = [ Fetch {| method := "GET"; url := "/api/v1/tags/"; body := no_body |};
         Fetch {| method := "GET"; url := "/api/v1/conversations/"; body := no_body |} ].
Proof.
  cbv zeta. unfold onMounted. run_mq.
  destruct tagsFetched as [[[data|m]|[errorData|m]]|m]; cbn;
    destruct (localStorage !! STORAGE_KEY_MODEL) as [savedModel|]; cbn;
    try (destruct (truthy savedModel); cbn;
         try (destruct (existsb _ (models st)); cbn));
    destruct (localStorage !! STORAGE_KEY_TAGS) as [savedTags|]; cbn;
    try (destruct (truthy savedTags); cbn;
         try (destruct (JSON_parse savedTags); cbn));
    destruct (localStorage !! STORAGE_KEY_INCLUDE_UNTAGGED); cbn;
    repeat split; reflexivity.
Qed.

(** X17. The preferences written by the watchers come back on the next
    mount: [includeUntagged] is restored to the value its watcher stored,
    and a model of the list is restored to the value its watcher stored.
    Choosing the default model (the empty value) is not stored, so the
    storage, and with it the model restored, stay as they were. *)
Theorem preferences_survive_a_reload
    (JSON_parse : string -> Completion (list string)) (localStorage : gmap string string)
    (tagsFetched : Fetched TagsData.t) (previous : State) (newModel : string) :
  In newModel (map value availableModels) ->
  (forall newValue,
     includeUntagged
       (fst (run (onMounted JSON_parse
                    (fst (watch_includeUntagged newValue previous localStorage))
                    tagsFetched) setup))
     = newValue)
  /\ selectedModel
       (fst (run (onMounted JSON_parse (watch_selectedModel newModel localStorage)
                    tagsFetched) setup))
     = newModel
  /\ watch_selectedModel "" localStorage = localStorage.
Proof.
  intros Hmodel. split; [|split].
  - intros newValue.
    destruct (onMounted_preferences JSON_parse
                (fst (watch_includeUntagged newValue previous localStorage))
                tagsFetched setup) as [-> _].
    unfold watch_includeUntagged. cbn [fst]. rewrite lookup_insert_eq.
    destruct newValue; reflexivity.
  - rewrite onMounted_selectedModel.
    assert (Ht : truthy newModel = true).
    { destruct newModel; [|reflexivity]. exfalso. cbn in Hmodel.
      repeat (destruct Hmodel as [Hmodel|Hmodel]; [discriminate|]). exact Hmodel. }
    unfold watch_selectedModel. rewrite Ht, lookup_insert_eq, Ht.
    change (models setup) with availableModels.
    apply existsb_model in Hmodel. rewrite Hmodel. reflexivity.
  - reflexivity.
Qed.

Lemma preferences_survive_a_reload_witness :
  (forall newValue,
     includeUntagged
       (fst (run (onMounted (fun _ => Throw "no parser")
                    (fst (watch_includeUntagged newValue asking ∅))
                    (Throw "offline")) setup))
     = newValue)
  /\ selectedModel
       (fst (run (onMounted (fun _ => Throw "no parser")
                    (watch_selectedModel "openai:gpt-4o" ∅)
                    (Throw "offline")) setup))
     = "openai:gpt-4o"
  /\ watch_selectedModel "" ∅ = ∅.
Proof.
  apply (preferences_survive_a_reload (fun _ => Throw "no parser") ∅ (Throw "offline")
           asking "openai:gpt-4o").
  cbn. tauto.
Defined.

(** X18. The tags saved by the watcher are restored when the runtime
    reads back what it wrote; a saved value that does not parse is passed
    over without stopping the mount: the selection stays as it was,
    [includeUntagged] is still restored, and the tags and the
    conversations are still requested. *)
Theorem onMounted_restores_or_skips_the_saved_tags
    (JSON_stringify : list string -> string)
    (JSON_parse : string -> Completion (list string)) (localStorage : gmap string string)
    (tagsFetched : Fetched TagsData.t) (previous st : State) :
  (forall newValue,
     JSON_stringify newValue <> "" ->
     JSON_parse (JSON_stringify newValue) = Normal newValue ->
     selectedTags
       (fst (run (onMounted JSON_parse
                    (fst (watch_selectedTags JSON_stringify newValue previous localStorage))
                    tagsFetched) st))
     = newValue)
  /\ (forall saved message,
        localStorage !! "ragu_selected_tags" = Some saved ->
        JSON_parse saved = Throw message ->
        let st' := fst (run (onMounted JSON_parse localStorage tagsFetched) st) in
        selectedTags st' = selectedTags st
        /\ includeUntagged st'
           = match localStorage !! "ragu_include_untagged" with
             | Some savedFlag => String.eqb savedFlag "true"
             | None => includeUntagged st
             end
        /\ snd (run (onMounted JSON_parse localStorage tagsFetched) st)
           = [ Fetch {| method := "GET"; url := "/api/v1/tags/"; body := no_body |};
               Fetch {| method := "GET"; url := "/api/v1/conversations/";
                        body := no_body |} ]).
Proof.
  split.
  - intros newValue Hne Hparse.
    destruct (onMounted_preferences JSON_parse
                (fst (watch_selectedTags JSON_stringify newValue previous localStorage))
                tagsFetched st) as [_ [-> _]].
    unfold watch_selectedTags. cbn [fst]. rewrite lookup_insert_eq.
    assert (Ht : truthy (JSON_stringify newValue) = true).
    { unfold truthy. destruct (String.eqb_spec (JSON_stringify newValue) "");
        [contradiction | reflexivity]. }
    rewrite Ht, Hparse. reflexivity.
  - intros saved message Hsaved Hparse. cbv zeta.
    destruct (onMounted_preferences JSON_parse localStorage tagsFetched st)
      as [Hflag [Htags Hcalls]].
    split; [|split; [exact Hflag | exact Hcalls]].
    rewrite Htags.
    change STORAGE_KEY_TAGS with "ragu_selected_tags". rewrite Hsaved, Hparse.
    destruct (truthy saved); reflexivity.
Qed.

(** X25. [fetchTags] replaces the tags and their counts by those of an ok
    reply (by none, when the reply has no such property) and does not
    touch [error]; on a failure it keeps the tags and the counts it had and
    sets [error]; it never throws, so a caller that awaits it goes on. *)
Theorem fetchTags_replaces_or_keeps_the_tags (fetched : Fetched TagsData.t) (st : State) :
  let st' := fst (run (fetchTags fetched) st) in
  (forall data, fetched = Normal (ok_response (Normal data)) ->
     availableTags st' = default [] (TagsData.tags data)
     /\ tagCounts st' = default ∅ (TagsData.tag_counts data)
     /\ error st' = error st)
  /\ ((forall data, fetched <> Normal (ok_response (Normal data))) ->
      availableTags st' = availableTags st
      /\ tagCounts st' = tagCounts st
      /\ error st' <> "")
  /\ fst (fst (fetchTags fetched st [])) = Normal tt
  /\ selectedTags st' = selectedTags st.
Proof.
  cbv zeta. run_mq.
  destruct fetched as [[[data|m]|[errorData|m]]|m]; cbn;
    (split; [intros d Hd; try discriminate; injection Hd as <-; repeat split|]);
    (split; [intros Hfail; try (exfalso; exact (Hfail data eq_refl));
             (split; [reflexivity|]); (split; [reflexivity | discriminate])|]);
    split; reflexivity.
Qed.

End ModelQueryHandlers.

(** ** The chat component: the debounce of the preference update *)

Section DebounceFacts.
Import ModelQuery.

Lemma one_timeout_debounced (conversationId : string) (t : Timers) :
  one_timeout t ->
  one_timeout (debouncedUpdateConversationTagPreferences conversationId t)
  /\ timeouts (debouncedUpdateConversationTagPreferences conversationId t)
     = {[ next_handle t := ((clock t + 500)%nat, conversationId) ]}
  /\ clock (debouncedUpdateConversationTagPreferences conversationId t) = clock t.
Proof.
  intros [Hpos [Hnext Hone]].
  assert (Hcleared :
    timeouts (match tagUpdateTimeout t with
              | Some handle => if (0 <? handle)%nat then clearTimeout handle t else t
              | None => t
              end) = ∅
    /\ next_handle (match tagUpdateTimeout t with
                    | Some handle => if (0 <? handle)%nat then clearTimeout handle t else t
                    | None => t
                    end) = next_handle t
    /\ clock (match tagUpdateTimeout t with
              | Some handle => if (0 <? handle)%nat then clearTimeout handle t else t
              | None => t
              end) = clock t).
  { destruct (tagUpdateTimeout t) as [handle|] eqn:Hh.
    - pose proof (Hpos handle eq_refl) as Hlt.
      apply Nat.ltb_lt in Hlt. rewrite Hlt. cbn. split; [|split; reflexivity].
      apply map_eq. intros k. rewrite lookup_empty.
      destruct (decide (handle = k)) as [->|Hne]; [apply lookup_delete_eq|].
      rewrite lookup_delete_ne by exact Hne.
      destruct (timeouts t !! k) as [entry|] eqn:Hk; [|reflexivity].
      apply Hone in Hk. congruence.
    - split; [|split; reflexivity].
      apply map_eq. intros k. rewrite lookup_empty.
      destruct (timeouts t !! k) as [entry|] eqn:Hk; [|reflexivity].
      apply Hone in Hk. discriminate. }
  destruct Hcleared as [Hempty [Hn Hc]].
  unfold debouncedUpdateConversationTagPreferences, setTimeout. cbn [fst snd timeouts clock
    next_handle tagUpdateTimeout].
  rewrite Hempty, Hn, Hc, insert_empty.
  split; [|split; reflexivity].
  split; [|split].
  - intros handle H. injection H as <-. exact Hnext.
  - cbn. lia.
  - intros handle entry H. cbn in H. apply lookup_singleton_Some in H. destruct H as [<- _]. reflexivity.
Qed.

Lemma one_timeout_elapse (ms : nat) (t : Timers) :
  one_timeout t -> one_timeout (snd (elapse ms t)).
Proof.
  intros [Hpos [Hnext Hone]]. unfold elapse. cbn [snd]. split; [exact Hpos|].
  split; [exact Hnext|].
  intros handle entry H. cbn [timeouts tagUpdateTimeout] in *.
  apply map_lookup_filter_Some in H. destruct H as [H _]. eapply Hone. exact H.
Qed.

Lemma one_timeout_ticks (l : list Tick) (t : Timers) :
  one_timeout t -> one_timeout (snd (ticks l t)).
Proof.
  revert t. induction l as [|[conversationId|ms] rest IH]; intros t Ht; cbn [ticks snd].
  - exact Ht.
  - apply IH. apply one_timeout_debounced. exact Ht.
  - apply IH. apply one_timeout_elapse. exact Ht.
Qed.

Lemma one_timeout_no_timers : one_timeout no_timers.
Proof.
  split; [discriminate|]. split; [cbn; lia|].
  intros handle entry H. cbn in H. rewrite lookup_empty in H. discriminate.
Qed.

(** X26. Whatever changes and delays follow one another, at most one
    update of the preferences is pending, the one whose handle
    [tagUpdateTimeout] remembers: every change clears the update pending
    before it sets its own. *)
Theorem debounce_keeps_one_update_pending (l : list Tick) :
  let t := snd (ticks l no_timers) in
  (size (timeouts t) <= 1)%nat
  /\ (forall handle entry, timeouts t !! handle = Some entry ->
        tagUpdateTimeout t = Some handle).
Proof.
  cbv zeta.
  destruct (one_timeout_ticks l no_timers one_timeout_no_timers) as [_ [_ Hone]].
  split; [|exact Hone].
  set (t := snd (ticks l no_timers)) in *.
  destruct (tagUpdateTimeout t) as [handle|] eqn:Hh.
  - destruct (timeouts t !! handle) as [entry|] eqn:He.
    + assert (Hmap : timeouts t = {[ handle := entry ]}).
      { apply map_eq. intros k. destruct (decide (handle = k)) as [<-|Hne].
        - rewrite He, lookup_singleton_eq. reflexivity.
        - rewrite lookup_singleton_ne by exact Hne.
          destruct (timeouts t !! k) as [e|] eqn:Hk; [|reflexivity].
          apply Hone in Hk. congruence. }
      rewrite Hmap, map_size_singleton. lia.
    + assert (Hmap : timeouts t = ∅).
      { apply map_eq. intros k. rewrite lookup_empty.
        destruct (timeouts t !! k) as [e|] eqn:Hk; [|reflexivity].
        pose proof (Hone k e Hk) as Hk'. congruence. }
      rewrite Hmap, map_size_empty. lia.
  - assert (Hmap : timeouts t = ∅).
    { apply map_eq. intros k. rewrite lookup_empty.
      destruct (timeouts t !! k) as [e|] eqn:Hk; [|reflexivity].
      apply Hone in Hk. discriminate. }
    rewrite Hmap, map_size_empty. lia.
Qed.

Lemma just_changed_debounced (conversationId : string) (t : Timers) :
  one_timeout t ->
  just_changed conversationId (debouncedUpdateConversationTagPreferences conversationId t).
Proof.
  intros Ht. destruct (one_timeout_debounced conversationId t Ht) as [H1 [H2 H3]].
  split; [exact H1|]. exists (next_handle t). rewrite H2, H3. reflexivity.
Qed.

Lemma elapse_before_due (conversationId : string) (ms : nat) (t : Timers) :
  just_changed conversationId t -> (ms < 500)%nat ->
  fst (elapse ms t) = [] /\ one_timeout (snd (elapse ms t)).
Proof.
  intros [Ht [handle Hmap]] Hms. split; [|apply one_timeout_elapse; exact Ht].
  unfold elapse. cbn [fst]. rewrite Hmap.
  rewrite map_filter_singleton_False by (cbn; lia).
  rewrite map_to_list_empty. reflexivity.
Qed.

Lemma elapse_after_due (conversationId : string) (ms : nat) (t : Timers) :
  just_changed conversationId t -> (500 <= ms)%nat ->
  fst (elapse ms t) = [conversationId] /\ timeouts (snd (elapse ms t)) = ∅.
Proof.
  intros [Ht [handle Hmap]] Hms. unfold elapse. cbn [fst snd timeouts]. rewrite Hmap.
  rewrite map_filter_singleton_True by (cbn; lia).
  rewrite map_filter_singleton_False by (cbn; lia).
  rewrite map_to_list_singleton. split; reflexivity.
Qed.

Lemma ticks_app (l1 l2 : list Tick) (t : Timers) :
  ticks (l1 ++ l2) t
  = (fst (ticks l1 t) ++ fst (ticks l2 (snd (ticks l1 t))),
     snd (ticks l2 (snd (ticks l1 t)))).
Proof.
  revert t. induction l1 as [|[conversationId|ms] rest IH]; intros t; cbn [ticks app fst snd].
  - destruct (ticks l2 t); reflexivity.
  - apply IH.
  - rewrite IH. cbn [fst snd]. rewrite app_assoc. reflexivity.
Qed.

Lemma burst_more (conversationId : string) (more : list (nat * string)) (t : Timers) :
  just_changed conversationId t ->
  Forall (fun c => (fst c < 500)%nat) more ->
  fst (ticks (flat_map (fun c => [elapsed (fst c); changed (snd c)]) more) t) = []
  /\ just_changed (List.last (map snd more) conversationId)
                  (snd (ticks (flat_map (fun c => [elapsed (fst c); changed (snd c)]) more) t)).
Proof.
  intros Ht Hgaps. revert conversationId t Ht.
  induction Hgaps as [|[gap next] more Hgap _ IH]; intros conversationId t Ht.
  - split; [reflexivity | exact Ht].
  - cbn [flat_map app ticks fst snd] in *.
    destruct (elapse_before_due conversationId gap t Ht Hgap) as [Hnone Hone].
    rewrite Hnone. cbn [app].
    destruct (IH next _ (just_changed_debounced next _ Hone)) as [H1 H2].
    split; [exact H1|].
    replace (List.last (map snd ((gap, next) :: more)) conversationId)
      with (List.last (map snd more) next); [exact H2|].
    cbn [map snd]. destruct (map snd more) as [|x xs] eqn:Hm; [reflexivity|].
    change (List.last (next :: x :: xs) conversationId)
      with (List.last (x :: xs) conversationId).
    clear. revert x. induction xs as [|y ys IHx]; intros x; [reflexivity|].
    change (List.last (x :: y :: ys) next) with (List.last (y :: ys) next).
    change (List.last (x :: y :: ys) conversationId)
      with (List.last (y :: ys) conversationId).
    apply IHx.
Qed.

(** X27. A burst of changes, each less than 500 ms after the one before,
    starts no update while it lasts, and once 500 ms have passed after the
    last change it starts exactly one, for the conversation of the last
    change; this holds after any earlier changes and delays. *)
Theorem debounce_burst_updates_once
    (earlier : list Tick) (first : string) (more : list (nat * string)) (wait : nat) :
  Forall (fun c => (fst c < 500)%nat) more ->
  (500 <= wait)%nat ->
  let t := snd (ticks earlier no_timers) in
  fst (ticks (burst first more) t) = []
  /\ fst (ticks (burst first more ++ [elapsed wait]) t)
     = [List.last (map snd more) first]
  /\ timeouts (snd (ticks (burst first more ++ [elapsed wait]) t)) = ∅.
Proof.
  intros Hgaps Hwait. cbv zeta.
  set (t := snd (ticks earlier no_timers)).
  assert (Ht : one_timeout t) by apply one_timeout_ticks, one_timeout_no_timers.
  pose proof (just_changed_debounced first t Ht) as Hfirst.
  destruct (burst_more first more _ Hfirst Hgaps) as [Hnone Hlast].
  assert (Hburst : ticks (burst first more) t
                   = ticks (flat_map (fun c => [elapsed (fst c); changed (snd c)]) more)
                           (debouncedUpdateConversationTagPreferences first t)).
  { reflexivity. }
  split; [rewrite Hburst; exact Hnone|].
  rewrite ticks_app, Hburst. cbn [fst snd ticks]. rewrite Hnone. cbn [app].
  destruct (elapse_after_due _ wait _ Hlast Hwait) as [Hfired Hgone].
  rewrite Hfired. split; [reflexivity | exact Hgone].
Qed.

Lemma debounce_burst_updates_once_witness :
  let t := snd (ticks [changed "c0"; elapsed 700] no_timers) in
  fst (ticks (burst "c1" [(100%nat, "c1"); (499%nat, "c2")]) t) = []
  /\ fst (ticks (burst "c1" [(100%nat, "c1"); (499%nat, "c2")] ++ [elapsed 500]) t)
     = [List.last (map snd [(100%nat, "c1"); (499%nat, "c2")]) "c1"]
  /\ timeouts (snd (ticks (burst "c1" [(100%nat, "c1"); (499%nat, "c2")]
                           ++ [elapsed 500]) t)) = ∅.
Proof.
  apply (debounce_burst_updates_once [changed "c0"; elapsed 700] "c1"
           [(100%nat, "c1"); (499%nat, "c2")] 500).
  - repeat constructor; cbn; lia.
  - lia.
Defined.

End DebounceFacts.

(** ** Tab persistence *)

Section TabPersistenceFacts.
Import TabPersistence.

Lemma setActiveTab_stored (tabName : string) (page : Page) :
  localStorage (setActiveTab tabName page) !! "activeTab" = Some tabName.
Proof.
  unfold setActiveTab.
  destruct (String.eqb tabName "chat"); [|destruct (String.eqb tabName "files")];
    cbn; apply lookup_insert_eq.
Qed.

Lemma classList_add_elem (c d : string) (classList : gset string) :
  d ∈ classList_add c classList <-> d ∈ classList \/ d = c.
Proof. unfold classList_add. rewrite elem_of_union, elem_of_singleton. reflexivity. Qed.

Lemma classList_remove_elem (c d : string) (classList : gset string) :
  d ∈ classList_remove c classList <-> d ∈ classList /\ d <> c.
Proof.
  unfold classList_remove. rewrite elem_of_difference, elem_of_singleton. reflexivity.
Qed.

Lemma setActiveTab_chat (page : Page) : shows_chat (setActiveTab "chat" page).
Proof.
  unfold setActiveTab, shows_chat. cbn.
  rewrite !classList_add_elem, !classList_remove_elem. tauto.
Qed.

Lemma setActiveTab_files (page : Page) : shows_files (setActiveTab "files" page).
Proof.
  unfold setActiveTab, shows_files. cbn.
  rewrite !classList_add_elem, !classList_remove_elem. tauto.
Qed.

(** X19. [setActiveTab] with [chat] or [files] shows that tab and only
    that tab, whatever was shown before; the other classes of the four
    elements are not touched; and the name is stored under [activeTab].
    With any other name the elements are left as they are, and the name is
    stored all the same. *)
Theorem setActiveTab_shows_one_tab (tabName : string) (page : Page) :
  localStorage (setActiveTab tabName page) !! "activeTab" = Some tabName
  /\ (tabName = "chat" -> shows_chat (setActiveTab tabName page))
  /\ (tabName = "files" -> shows_files (setActiveTab tabName page))
  /\ (tabName <> "chat" -> tabName <> "files" ->
      same_classes (setActiveTab tabName page) page)
  /\ (forall c, c <> "active" ->
        (c ∈ chatMenuItem (setActiveTab tabName page) <-> c ∈ chatMenuItem page)
        /\ (c ∈ filesMenuItem (setActiveTab tabName page) <-> c ∈ filesMenuItem page)
        /\ (c ∈ chatInterface (setActiveTab tabName page) <-> c ∈ chatInterface page)
        /\ (c ∈ fileManagement (setActiveTab tabName page) <-> c ∈ fileManagement page)).
Proof.
  split; [apply setActiveTab_stored|].
  split; [intros ->; apply setActiveTab_chat|].
  split; [intros ->; apply setActiveTab_files|].
  unfold setActiveTab, same_classes.
  destruct (String.eqb_spec tabName "chat") as [->|Hchat];
    [|destruct (String.eqb_spec tabName "files") as [->|Hfiles]]; cbn;
    (split; [intros H1 H2; try contradiction; repeat split|]);
    intros c Hc; rewrite ?classList_add_elem, ?classList_remove_elem; tauto.
Qed.

(** X20. The tab chosen survives a reload: after [setActiveTab] with
    [chat] or [files], the page loaded next shows that tab, whatever
    classes the served document starts with.  After any other name, or with
    nothing stored, the page loaded shows the chat tab; and a page load
    always leaves [chat] or [files] stored. *)
Theorem active_tab_survives_a_reload (tabName : string) (page document : Page) :
  let loaded := onPageLoad (reload (setActiveTab tabName page) document) in
  (tabName = "files" -> shows_files loaded)
  /\ (tabName <> "files" -> shows_chat loaded)
  /\ (localStorage page !! "activeTab" = None -> shows_chat (onPageLoad (reload page document)))
  /\ (localStorage loaded !! "activeTab" = Some "chat"
      \/ localStorage loaded !! "activeTab" = Some "files").
Proof.
  cbv zeta.
  assert (Hstored : localStorage (reload (setActiveTab tabName page) document) !! "activeTab"
                    = Some tabName).
  { unfold reload. cbn [localStorage].
    apply (setActiveTab_stored tabName page). }
  unfold onPageLoad. rewrite Hstored.
  split; [|split; [|split]].
  - intros ->. rewrite bool_decide_eq_true_2 by reflexivity.
    apply setActiveTab_files.
  - intros Hne. rewrite bool_decide_eq_false_2 by congruence.
    apply setActiveTab_chat.
  - intros Hnone. rewrite bool_decide_eq_false_2; [apply setActiveTab_chat|].
    unfold reload. cbn [localStorage]. rewrite Hnone. discriminate.
  - case_bool_decide.
    + right. apply (setActiveTab_stored "files").
    + left. apply (setActiveTab_stored "chat").
Qed.

Lemma replay_app (l1 l2 : list (ElementId * ClassCall)) (page : Page) :
  replay (l1 ++ l2) page = replay l2 (replay l1 page).
Proof. apply fold_left_app. Qed.

(** X21. The mock test follows the page: made on the elements of a page,
    the class calls that its stand-in for [setActiveTab] and its simulated
    page load add to the record leave the class lists that the page's own
    [setActiveTab] and page load leave, for every stored value; the stand-in
    stores what the page stores, while the simulated page load, unlike the
    page's, stores nothing. *)
Theorem mock_test_follows_the_page (tabName : string) (mock : Mock) (page : Page) :
  store mock = localStorage page ->
  (exists recorded,
     calls (mock_setActiveTab tabName mock) = calls mock ++ recorded
     /\ same_classes (replay recorded page) (setActiveTab tabName page)
     /\ store (mock_setActiveTab tabName mock) = localStorage (setActiveTab tabName page))
  /\ (exists recorded,
        calls (simulated_page_load mock) = calls mock ++ recorded
        /\ same_classes (replay recorded page) (onPageLoad page)
        /\ store (simulated_page_load mock) = store mock).
Proof.
  intros Hstore. split.
  - unfold mock_setActiveTab, setActiveTab. rewrite Hstore.
    destruct (String.eqb tabName "chat"); [|destruct (String.eqb tabName "files")];
      cbn; eexists; (split; [try reflexivity|]).
    + cbn. repeat split.
    + cbn. repeat split.
    + symmetry. apply app_nil_r.
    + cbn. repeat split.
  - unfold simulated_page_load, onPageLoad, mock_getItem. rewrite Hstore.
    destruct (localStorage page !! "activeTab") as [saved|] eqn:Hsaved.
    + destruct (String.eqb_spec saved "files") as [->|Hne].
      * cbn. rewrite !bool_decide_eq_true_2 by reflexivity.
        eexists. split; [reflexivity|]. cbn. repeat split.
      * assert (Hmock : (if truthy saved then Some saved else None) <> Some "files").
        { destruct (truthy saved); congruence. }
        rewrite (bool_decide_eq_false_2 _ Hmock).
        rewrite bool_decide_eq_false_2 by congruence.
        eexists. split; [reflexivity|]. cbn. repeat split.
    + rewrite !bool_decide_eq_false_2 by discriminate.
      eexists. split; [reflexivity|]. cbn. repeat split.
Qed.

Lemma mock_test_follows_the_page_witness :
  let mock := {| store := {[ "activeTab" := "files" ]}; calls := [] |} in
  let page := {| localStorage := {[ "activeTab" := "files" ]}; chatMenuItem := {[ "active" ]};
                 filesMenuItem := ∅; chatInterface := {[ "active" ]}; fileManagement := ∅ |} in
  (exists recorded,
     calls (mock_setActiveTab "chat" mock) = calls mock ++ recorded
     /\ same_classes (replay recorded page) (setActiveTab "chat" page)
     /\ store (mock_setActiveTab "chat" mock) = localStorage (setActiveTab "chat" page))
  /\ (exists recorded,
        calls (simulated_page_load mock) = calls mock ++ recorded
        /\ same_classes (replay recorded page) (onPageLoad page)
        /\ store (simulated_page_load mock) = store mock).
Proof.
  apply (mock_test_follows_the_page "chat"
           {| store := {[ "activeTab" := "files" ]}; calls := [] |}
           {| localStorage := {[ "activeTab" := "files" ]}; chatMenuItem := {[ "active" ]};
              filesMenuItem := ∅; chatInterface := {[ "active" ]}; fileManagement := ∅ |}).
  reflexivity.
Defined.

End TabPersistenceFacts.

(** ** The chat component, collection-based version *)

Section CollectionQueryFacts.
Import CollectionQuery.

Ltac run_cq :=
  unfold Eff.run, Eff.fetch, Eff.try_catch, Eff.try_finally, Eff.await, Eff.call,
    Eff.modify, Eff.get, mbind, Eff.M_bind, Eff.bind, mret, Eff.M_ret, Eff.ret;
  cbn -[canSubmit trim Array_includes].

(** X22. With collections in the reply, [fetchCollections] makes them the
    list and selects one of them: the collection saved in [localStorage]
    when it is in the list, the first of the list otherwise.  So a
    collection stored by the watcher is selected again on the next load as
    long as it still exists.  On any failure the list and the selection
    stay as they were and an error is set. *)
Theorem fetchCollections_selects_saved_or_first
    (localStorage : gmap string string) (fetched : Fetched CollectionsData) (st : State) :
  let st' := fst (Eff.run (fetchCollections localStorage fetched) st) in
  (forall first rest,
     fetched = Normal (ok_response (Normal {| data_collections := Some (first :: rest) |})) ->
     collections st' = first :: rest
     /\ In (selectedCollection st') (collections st')
     /\ (forall saved, localStorage !! "ragu_selected_collection" = Some saved ->
           saved <> "" -> In saved (first :: rest) -> selectedCollection st' = saved)
     /\ (forall saved, localStorage !! "ragu_selected_collection" = Some saved ->
           ~ In saved (first :: rest) -> selectedCollection st' = first)
     /\ (localStorage !! "ragu_selected_collection" = None -> selectedCollection st' = first))
  /\ ((forall data, fetched <> Normal (ok_response (Normal data))) ->
      collections st' = collections st
      /\ selectedCollection st' = selectedCollection st
      /\ error st' <> "").
Proof.
  cbv zeta. split.
  - intros first rest ->. unfold fetchCollections. run_cq.
    change STORAGE_KEY_COLLECTION with "ragu_selected_collection".
    destruct (localStorage !! "ragu_selected_collection") as [saved|]; cbn -[Array_includes].
    + destruct (truthy saved && Array_includes (first :: rest) saved) eqn:Hsaved;
        cbn -[Array_includes].
      * apply andb_true_iff in Hsaved. destruct Hsaved as [_ Hin].
        apply Array_includes_In in Hin.
        split; [reflexivity|]. split; [exact Hin|].
        split; [intros s Hs _ _; injection Hs as <-; reflexivity|].
        split; [intros s Hs Hn; injection Hs as <-; contradiction | discriminate].
      * split; [reflexivity|]. split; [left; reflexivity|].
        split.
        { intros s Hs Hne Hin. injection Hs as <-. exfalso.
          change (In saved (first :: rest)) in Hin.
          apply Array_includes_In in Hin. rewrite Hin, andb_true_r in Hsaved.
          unfold truthy in Hsaved. apply negb_false_iff, String.eqb_eq in Hsaved.
          contradiction. }
        split; [intros s Hs _; reflexivity | discriminate].
    + split; [reflexivity|]. split; [left; reflexivity|].
      split; [discriminate|]. split; [discriminate | reflexivity].
  - intros Hfail. unfold fetchCollections. run_cq.
    destruct fetched as [[[data|m]|[e|m]]|m]; cbn;
      try (exfalso; exact (Hfail data eq_refl));
      (split; [reflexivity|]); (split; [reflexivity | discriminate]).
Qed.

(** X23. The collection-based [submitQuery] sends nothing while no
    collection is selected or the query is blank.  Otherwise it makes one
    call, the POST, whose [history] ends with the message of the user.  A
    status that is not ok with an error body gives back the history and
    the query text and shows the detail; a fetch that rejects gives back
    the history but leaves the query text empty; an ok reply puts the
    server's history in place.  [isLoading] is cleared in every case. *)
Theorem submitQuery_collection_outcomes (chat : Fetched ModelQuery.ChatData.t) (st : State) :
  let st' := fst (Eff.run (submitQuery chat) st) in
  (canSubmit st = false -> Eff.run (submitQuery chat) st = (st, []))
  /\ (selectedCollection st = "" -> canSubmit st = false)
  /\ (canSubmit st = true ->
      snd (Eff.run (submitQuery chat) st) = [chat_call_of st]
      /\ isLoading st' = false
      /\ (forall message, chat = Throw message ->
            conversationHistory st' = conversationHistory st
            /\ queryText st' = ""
            /\ error st' = "Error submitting query: " +:+ message)
      /\ (forall errorData, chat = Normal (error_response (Normal errorData)) ->
            conversationHistory st' = conversationHistory st
            /\ queryText st' = queryText st
            /\ error st' = or_else (detail errorData)
                                   "Failed to process query. Please try again.")
      /\ (forall data, chat = Normal (ok_response (Normal data)) ->
            conversationHistory st' = ModelQuery.ChatData.history data
            /\ lastSources st' = ModelQuery.ChatData.sources data
            /\ queryText st' = ""
            /\ error st' = "")).
Proof.
  cbv zeta. split; [|split].
  - intros Hblank. unfold submitQuery. run_cq. rewrite Hblank. reflexivity.
  - intros Hnone. unfold canSubmit. rewrite Hnone. reflexivity.
  - intros Hsubmit. unfold submitQuery, chat_call_of. run_cq. rewrite Hsubmit.
    cbn -[canSubmit trim].
    destruct chat as [[[data|m]|[errorData|m]]|m]; cbn; unfold pop, push; rewrite ?removelast_last;
      (split; [reflexivity|]); (split; [reflexivity|]);
      (split; [intros x Hx; try discriminate; injection Hx as <-; repeat split|]);
      (split; [intros x Hx; try discriminate; injection Hx as <-; repeat split|]);
      intros x Hx; try discriminate; injection Hx as <-; repeat split.
Qed.

End CollectionQueryFacts.

(** ** The README's WebSocket client: what it prints *)

Section ClientOutput.
Import Client.

Lemma receive_open_stdout (before : list ServerMessage) (locals : Locals) :
  Forall (fun message => closes message = false) before ->
  stdout (snd (receive before locals)) = stdout locals ++ token_contents before.
Proof.
  intros Hopen. revert locals.
  induction Hopen as [|message before Hm _ IH]; intros locals; simpl.
  - symmetry. apply app_nil_r.
  - destruct message as [c|c|c|c]; try discriminate.
    + apply IH.
    + rewrite IH. simpl. rewrite <- app_assoc. reflexivity.
Qed.

Lemma tokens_joined (messages : list ServerMessage) :
  tokens messages = joined (token_contents messages).
Proof.
  induction messages as [|[c|c|c|c] rest IH]; simpl; try exact IH; [reflexivity|].
  unfold joined in *. simpl. rewrite IH. reflexivity.
Qed.

(** X24. The client prints what it accumulates: up to the message that
    ends the exchange it has printed the contents of the [token] messages,
    one by one and in order, and these, put together, are [full_response];
    then come the closing lines, for [complete] a header and one line per
    source, for [error] one line with the error. *)
Theorem chat_websocket_prints_what_it_accumulates
    (collection_name query : string) (history : option (list Message))
    (model : option string) (before after : list ServerMessage) (message : ServerMessage) :
  Forall (fun m => closes m = false) before ->
  closes message = true ->
  let locals := snd (snd (chat_websocket collection_name query history model
                            (before ++ message :: after))) in
  stdout locals = token_contents before ++ closing_lines message
  /\ joined (token_contents before) = full_response locals
  /\ (forall content, message = complete content ->
        length (closing_lines message) = S (length (sources content))).
Proof.
  intros Hopen Hclose. cbv zeta. unfold chat_websocket. cbn [snd].
  rewrite (receive_app before (message :: after) _ Hopen).
  pose proof (receive_open_stdout before {| full_response := ""; stdout := [] |} Hopen)
    as Hout.
  destruct (receive_open before {| full_response := ""; stdout := [] |} Hopen) as [_ Hacc].
  cbn [stdout full_response app] in Hout, Hacc. rewrite append_empty in Hacc.
  rewrite <- tokens_joined.
  destruct message as [c|c|c|c]; try discriminate; cbn [receive snd stdout full_response];
    rewrite Hout, Hacc; (split; [reflexivity|]); (split; [reflexivity|]);
    intros content Hc; try discriminate.
  injection Hc as <-. cbn. f_equal. unfold source_lines. apply length_imap.
Qed.

Lemma chat_websocket_prints_what_it_accumulates_witness :
  let locals := snd (snd (chat_websocket "my_docs" "q" None None
                            ([start "s"; token "a"; token "b"] ++ error "boom" :: []))) in
  stdout locals = token_contents [start "s"; token "a"; token "b"]
                  ++ closing_lines (error "boom")
  /\ joined (token_contents [start "s"; token "a"; token "b"]) = full_response locals
  /\ (forall content, error "boom" = complete content ->
        length (closing_lines (error "boom")) = S (length (sources content))).
Proof.
  apply (chat_websocket_prints_what_it_accumulates "my_docs" "q" None None
           [start "s"; token "a"; token "b"] [] (error "boom")).
  - repeat constructor.
  - reflexivity.
Defined.

End ClientOutput.
